(** * Encrypted contract deduplication store of the juris backend

    A shallow embedding of
      - [backend/utils/encryption.js]   (EncryptionService, ContractSignatureService),
      - [backend/models/contractSignature.models.js] (the ContractSignature model),
      - [backend/utils/multer.js]       (upload helpers),
      - [backend/routes/smartContractAnalysis.js] (POST /analyze, POST /check-duplicate,
        GET /contract/:contractId),
    together with the Node.js primitives those files call (hex and base64
    buffers, SHA-256, AES-256-GCM, JSON.stringify / JSON.parse), followed by
    the properties of the specification that are stated about them. *)

From Stdlib Require Import String Ascii Bool Arith NArith ZArith Lia List.
From Stdlib Require DecimalN DecimalFacts.
Import ListNotations.

Set Warnings "-register-all".

(* ================================================================== *)
(** * Part I: definitions                                              *)
(* ================================================================== *)

(** ** Buffers

    A Node [Buffer] is a list of bytes; a byte is an [ascii].  A JS string
    is represented by the bytes of its UTF-8 encoding, so that
    [Buffer.from(s, 'utf8')] and [buf.toString('utf8')] are the identity on
    this representation.  Half of a surrogate pair standing alone, which
    only a [\u] escape of a JSON text brings into a string, is held in
    the three bytes that the same encoding gives its code unit. *)

Module Buf.

Definition byte := ascii.
Definition buffer := list byte.

Definition of_string (s : string) : buffer := list_ascii_of_string s.
Definition to_string (b : buffer) : string := string_of_list_ascii b.

Definition byte_of_N (n : N) : byte := ascii_of_N (n mod 256).
Definition N_of_byte (b : byte) : N := N_of_ascii b.

Definition xor_byte (a b : byte) : byte :=
  match a, b with
  | Ascii a0 a1 a2 a3 a4 a5 a6 a7, Ascii b0 b1 b2 b3 b4 b5 b6 b7 =>
      Ascii (xorb a0 b0) (xorb a1 b1) (xorb a2 b2) (xorb a3 b3)
            (xorb a4 b4) (xorb a5 b5) (xorb a6 b6) (xorb a7 b7)
  end.

(** Big-endian conversions between byte strings and numbers. *)
Fixpoint to_N_acc (acc : N) (b : buffer) : N :=
  match b with
  | [] => acc
  | x :: r => to_N_acc (acc * 256 + N_of_byte x) r
  end.

Definition to_N (b : buffer) : N := to_N_acc 0 b.

(** [of_N len n]: the [len] low-order bytes of [n], most significant first. *)
Definition of_N (len : nat) (n : N) : buffer :=
  map (fun i => byte_of_N (N.shiftr n (8 * N.of_nat (len - 1 - i)))) (seq 0 len).

(** Cut a buffer into chunks of [n] bytes (the last one may be shorter). *)
Fixpoint chunks_fuel (fuel n : nat) (b : buffer) : list buffer :=
  match fuel with
  | O => []
  | S f =>
      match b with
      | [] => []
      | _ => firstn n b :: chunks_fuel f n (skipn n b)
      end
  end.

Definition chunks (n : nat) (b : buffer) : list buffer :=
  chunks_fuel (length b) n b.

Definition zeros (n : nat) : buffer := repeat zero n.

(** Zero padding up to a multiple of [n] bytes. *)
Definition pad_to (n : nat) (b : buffer) : buffer :=
  b ++ zeros ((n - length b mod n) mod n).

End Buf.

(** ** Hexadecimal encoding: [buf.toString('hex')], [Buffer.from(s, 'hex')] *)

Module Hex.
Import Buf.

Definition digit (n : N) : ascii :=
  if (n <? 10)%N then ascii_of_N (48 + n) else ascii_of_N (87 + n).

(** Node's [unhex]: both letter cases are accepted. *)
Definition undigit (c : ascii) : option N :=
  let n := N_of_ascii c in
  if ((48 <=? n) && (n <=? 57))%N then Some (n - 48)%N
  else if ((97 <=? n) && (n <=? 102))%N then Some (n - 87)%N
  else if ((65 <=? n) && (n <=? 70))%N then Some (n - 55)%N
  else None.

Definition encode_byte (b : byte) : list ascii :=
  let n := N_of_byte b in [digit (n / 16); digit (n mod 16)].

Definition encode_list (b : buffer) : list ascii := flat_map encode_byte b.

Definition encode (b : buffer) : string := string_of_list_ascii (encode_list b).

(** Decoding takes the characters two by two and stops at the first pair
    that is not made of two hexadecimal digits; a trailing odd character is
    dropped. *)
Fixpoint decode_list (s : list ascii) : buffer :=
  match s with
  | h :: l :: r =>
      match undigit h, undigit l with
      | Some a, Some b => byte_of_N (16 * a + b) :: decode_list r
      | _, _ => []
      end
  | _ => []
  end.

Definition decode (s : string) : buffer := decode_list (list_ascii_of_string s).

End Hex.

(** ** SHA-256 (FIPS 180-4), as computed by [crypto.createHash('sha256')] *)

Module SHA256.
Import Buf.

Local Open Scope N_scope.

Definition w32 (x : N) : N := x mod 4294967296.
Definition add32 (x y : N) : N := w32 (x + y).
Definition rotr (n x : N) : N := w32 (N.lor (N.shiftr x n) (N.shiftl x (32 - n))).
Definition shr (n x : N) : N := N.shiftr x n.
Definition not32 (x : N) : N := 4294967295 - x.

Definition Ch (x y z : N) : N := N.lxor (N.land x y) (N.land (not32 x) z).
Definition Maj (x y z : N) : N :=
  N.lxor (N.lxor (N.land x y) (N.land x z)) (N.land y z).
Definition Sigma0 (x : N) : N := N.lxor (N.lxor (rotr 2 x) (rotr 13 x)) (rotr 22 x).
Definition Sigma1 (x : N) : N := N.lxor (N.lxor (rotr 6 x) (rotr 11 x)) (rotr 25 x).
Definition sigma0 (x : N) : N := N.lxor (N.lxor (rotr 7 x) (rotr 18 x)) (shr 3 x).
Definition sigma1 (x : N) : N := N.lxor (N.lxor (rotr 17 x) (rotr 19 x)) (shr 10 x).

(** The constants are taken from the first primes: the initial hash
    value holds the first 32 bits of the fractional parts of the square
    roots of the first 8 primes, the round constants those of the cube
    roots of the first 64. *)
Fixpoint primes_from (fuel : nat) (c : N) (found : list N) : list N :=
  match fuel with
  | O => rev found
  | S fuel' =>
      if existsb (fun p => c mod p =? 0) found
      then primes_from fuel' (c + 1) found
      else primes_from fuel' (c + 1) (c :: found)
  end.

Definition primes (n : nat) : list N := firstn n (primes_from 310 2 []).

(** The greatest [r] below [2 ^ bits] with [r ^ 3 <= n], bit by bit. *)
Fixpoint cube_root (bits : nat) (n r : N) : N :=
  match bits with
  | O => r
  | S bits' =>
      let r' := r + N.shiftl 1 (N.of_nat bits') in
      cube_root bits' n (if r' * r' * r' <=? n then r' else r)
  end.

Definition K : list N :=
  Eval vm_compute in
    map (fun p => w32 (cube_root 36 (N.shiftl p 96) 0)) (primes 64).

Definition H0 : list N :=
  Eval vm_compute in
    map (fun p => w32 (N.sqrt (N.shiftl p 64))) (primes 8).

(** Padding: a 1 bit, zeros, and the bit length on 64 bits. *)
Definition pad (m : buffer) : buffer :=
  let l := length m in
  let k := ((119 - l mod 64) mod 64)%nat in
  m ++ [byte_of_N 128] ++ zeros k ++ of_N 8 (8 * N.of_nat l).

(** The message schedule, kept most recent word first. *)
Fixpoint extend (n : nat) (w : list N) : list N :=
  match n with
  | O => w
  | S n' =>
      let x := add32 (add32 (sigma1 (nth 1 w 0)) (nth 6 w 0))
                     (add32 (sigma0 (nth 14 w 0)) (nth 15 w 0)) in
      extend n' (x :: w)
  end.

Definition schedule (block : buffer) : list N :=
  rev (extend 48 (rev (map to_N (chunks 4 block)))).

Definition round (st : list N) (kw : N * N) : list N :=
  match st with
  | [a; b; c; d; e; f; g; h] =>
      let t1 := add32 (add32 (add32 h (Sigma1 e)) (add32 (Ch e f g) (fst kw))) (snd kw) in
      let t2 := add32 (Sigma0 a) (Maj a b c) in
      [add32 t1 t2; a; b; c; add32 d t1; e; f; g]
  | _ => st
  end.

Definition compress (h : list N) (block : buffer) : list N :=
  let r := fold_left round (combine K (schedule block)) h in
  map (fun p => add32 (fst p) (snd p)) (combine h r).

Definition digest (m : buffer) : buffer :=
  flat_map (of_N 4) (fold_left compress (chunks 64 (pad m)) H0).

End SHA256.

(** ** AES-256 (FIPS 197), the block cipher behind ['aes-256-gcm'] *)

Module AES256.
Import Buf.

Local Open Scope N_scope.

(** Multiplication by x in GF(2^8) modulo x^8 + x^4 + x^3 + x + 1. *)
Definition xtime (a : N) : N :=
  let d := a * 2 in
  if 256 <=? d then N.lxor (d - 256) 27 else d.

Fixpoint gmul_fuel (fuel : nat) (a b : N) : N :=
  match fuel with
  | O => 0
  | S f =>
      N.lxor (if N.odd b then a else 0) (gmul_fuel f (xtime a) (b / 2))
  end.

Definition gmul (a b : N) : N := gmul_fuel 8 a b.

Fixpoint gpow (a : N) (n : nat) : N :=
  match n with
  | O => 1
  | S n' => gmul a (gpow a n')
  end.

Definition rotl8 (n x : N) : N :=
  (N.lor (N.shiftl x n) (N.shiftr x (8 - n))) mod 256.

(** The S-box: inversion in GF(2^8) followed by the affine map. *)
Definition sbox_of (x : N) : N :=
  let b := gpow x 254 in
  N.lxor (N.lxor (N.lxor (N.lxor (N.lxor b (rotl8 1 b)) (rotl8 2 b)) (rotl8 3 b))
                 (rotl8 4 b)) 99.

Definition sbox_table : list N :=
  Eval vm_compute in map (fun i => sbox_of (N.of_nat i)) (seq 0 256).

Definition sbox (x : N) : N := nth (N.to_nat x) sbox_table 0.

Definition sub_word (w : N) : N :=
  to_N (map (fun b => byte_of_N (sbox (N_of_byte b))) (of_N 4 w)).

Definition rot_word (w : N) : N :=
  (N.lor (N.shiftl w 8) (N.shiftr w 24)) mod 4294967296.

Definition rcon (j : nat) : N := N.shiftl (gpow 2 (j - 1)) 24.

(** Key expansion for Nk = 8: 60 words, kept most recent first while they
    are produced. *)
Fixpoint expand (n : nat) (i : nat) (w : list N) : list N :=
  match n with
  | O => w
  | S n' =>
      let prev := nth 0 w 0 in
      let temp :=
        if (i mod 8 =? 0)%nat then N.lxor (sub_word (rot_word prev)) (rcon (i / 8))
        else if (i mod 8 =? 4)%nat then sub_word prev
        else prev in
      expand n' (S i) (N.lxor (nth 7 w 0) temp :: w)
  end.

Definition key_schedule (key : buffer) : list N :=
  rev (expand 52 8 (rev (map to_N (chunks 4 key)))).

Definition round_key (w : list N) (r : nat) : list N :=
  map N_of_byte (flat_map (of_N 4) (firstn 4 (skipn (4 * r) w))).

Definition add_round_key (st rk : list N) : list N :=
  map (fun p => N.lxor (fst p) (snd p)) (combine st rk).

Definition sub_bytes (st : list N) : list N := map sbox st.

(** The state is kept column by column: byte [r + 4c] is row r, column c. *)
Definition shift_rows (st : list N) : list N :=
  map (fun i => nth (4 * ((i / 4 + i mod 4) mod 4) + i mod 4)%nat st 0) (seq 0 16).

Definition mix_column (c : list N) : list N :=
  match c with
  | [a0; a1; a2; a3] =>
      [ N.lxor (N.lxor (gmul 2 a0) (gmul 3 a1)) (N.lxor a2 a3);
        N.lxor (N.lxor a0 (gmul 2 a1)) (N.lxor (gmul 3 a2) a3);
        N.lxor (N.lxor a0 a1) (N.lxor (gmul 2 a2) (gmul 3 a3));
        N.lxor (N.lxor (gmul 3 a0) a1) (N.lxor a2 (gmul 2 a3)) ]
  | _ => c
  end.

Definition mix_columns (st : list N) : list N :=
  flat_map (fun c => mix_column (firstn 4 (skipn (4 * c) st))) (seq 0 4).

Definition cipher_round (w : list N) (st : list N) (r : nat) : list N :=
  add_round_key (mix_columns (shift_rows (sub_bytes st))) (round_key w r).

Definition cipher (w : list N) (input : list N) : list N :=
  let st := fold_left (cipher_round w) (seq 1 13) (add_round_key input (round_key w 0)) in
  add_round_key (shift_rows (sub_bytes st)) (round_key w 14).

(** Encryption of one 128-bit block, given as a big-endian number. *)
Definition encrypt_block (key : buffer) (block : N) : N :=
  to_N (map byte_of_N (cipher (key_schedule key) (map N_of_byte (of_N 16 block)))).

End AES256.

(** ** Galois/Counter Mode (NIST SP 800-38D) with 128-bit tags *)

Module GCM.
Import Buf.

Local Open Scope N_scope.

Definition R : N := N.shiftl 225 120.

(** Multiplication in GF(2^128); bit 0 of a block is its leftmost bit. *)
Fixpoint gf_mul_loop (n : nat) (x z v : N) : N :=
  match n with
  | O => z
  | S n' =>
      let i := 128 - N.of_nat (S n') in
      let z' := if N.testbit x (127 - i) then N.lxor z v else z in
      let v' := if N.odd v then N.lxor (N.shiftr v 1) R else N.shiftr v 1 in
      gf_mul_loop n' x z' v'
  end.

Definition gf_mul (x y : N) : N := gf_mul_loop 128 x 0 y.

(** GHASH over a buffer whose length is a multiple of 16. *)
Definition ghash (h : N) (data : buffer) : N :=
  fold_left (fun y blk => gf_mul (N.lxor y (to_N blk)) h) (chunks 16 data) 0.

Definition inc32 (x : N) : N :=
  N.shiftl (N.shiftr x 32) 32 + (x mod 4294967296 + 1) mod 4294967296.

Fixpoint inc32_n (n : nat) (x : N) : N :=
  match n with
  | O => x
  | S n' => inc32 (inc32_n n' x)
  end.

Definition xor_bytes (a b : buffer) : buffer :=
  map (fun p => xor_byte (fst p) (snd p)) (combine a b).

Definition keystream (key : buffer) (icb : N) (len : nat) : buffer :=
  flat_map (fun i => of_N 16 (AES256.encrypt_block key (inc32_n i icb)))
           (seq 0 ((len + 15) / 16)).

Definition gctr (key : buffer) (icb : N) (x : buffer) : buffer :=
  xor_bytes x (keystream key icb (length x)).

Definition hash_subkey (key : buffer) : N := AES256.encrypt_block key 0.

Definition j0 (key iv : buffer) : N :=
  if (length iv =? 12)%nat then to_N iv * 4294967296 + 1
  else ghash (hash_subkey key)
             (pad_to 16 iv ++ zeros 8 ++ of_N 8 (8 * N.of_nat (length iv))).

Definition tag (key iv aad c : buffer) : buffer :=
  let s := ghash (hash_subkey key)
                 (pad_to 16 aad ++ pad_to 16 c
                  ++ of_N 8 (8 * N.of_nat (length aad))
                  ++ of_N 8 (8 * N.of_nat (length c))) in
  of_N 16 (N.lxor s (AES256.encrypt_block key (j0 key iv))).

Definition encrypt (key iv aad p : buffer) : buffer * buffer :=
  let c := gctr key (inc32 (j0 key iv)) p in
  (c, tag key iv aad c).

(** Tag lengths that [setAuthTag] accepts for GCM. *)
Definition valid_tag_length (n : nat) : bool :=
  ((n =? 4) || (n =? 8) || ((12 <=? n) && (n <=? 16)))%nat.

(** The deciphered text is released only when the supplied tag equals the
    leading bytes of the computed one. *)
Definition decrypt (key iv aad c t : buffer) : option buffer :=
  let expected := firstn (length t) (tag key iv aad c) in
  if list_eq_dec ascii_dec t expected
  then Some (gctr key (inc32 (j0 key iv)) c)
  else None.

End GCM.

(** ** Base64: [buf.toString('base64')], [Buffer.from(s, 'base64')] *)

Module Base64.
Import Buf.

Local Open Scope N_scope.

Definition alphabet : list ascii :=
  list_ascii_of_string
    "ABCDEFGHIJKLMNOPQRSTUVWXYZabcdefghijklmnopqrstuvwxyz0123456789+/".

Definition char (n : N) : ascii := nth (N.to_nat n) alphabet "="%char.

(** Node's [unbase64] accepts the standard and the URL-safe alphabet. *)
Definition unchar (c : ascii) : option N :=
  let n := N_of_ascii c in
  if (65 <=? n) && (n <=? 90) then Some (n - 65)
  else if (97 <=? n) && (n <=? 122) then Some (n - 71)
  else if (48 <=? n) && (n <=? 57) then Some (n + 4)
  else if (n =? 43) || (n =? 45) then Some 62
  else if (n =? 47) || (n =? 95) then Some 63
  else None.

Fixpoint encode_list (b : buffer) : list ascii :=
  match b with
  | [] => []
  | [x] =>
      let x := N_of_byte x in
      [char (x / 4); char (x mod 4 * 16); "="%char; "="%char]
  | [x; y] =>
      let x := N_of_byte x in
      let y := N_of_byte y in
      [char (x / 4); char (x mod 4 * 16 + y / 16); char (y mod 16 * 4); "="%char]
  | x :: y :: z :: r =>
      let x := N_of_byte x in
      let y := N_of_byte y in
      let z := N_of_byte z in
      char (x / 4) :: char (x mod 4 * 16 + y / 16)
        :: char (y mod 16 * 4 + z / 64) :: char (z mod 64) :: encode_list r
  end.

Definition encode (b : buffer) : string := string_of_list_ascii (encode_list b).

(** Decoding skips the characters outside the alphabet and stops at the
    first padding character. *)
Fixpoint sextets (s : list ascii) : list N :=
  match s with
  | [] => []
  | c :: r =>
      if (c =? "=")%char then []
      else match unchar c with
           | Some n => n :: sextets r
           | None => sextets r
           end
  end.

Fixpoint bytes_of_sextets (l : list N) : buffer :=
  match l with
  | a :: b :: c :: d :: r =>
      byte_of_N (a * 4 + b / 16) :: byte_of_N (b mod 16 * 16 + c / 4)
        :: byte_of_N (c mod 4 * 64 + d) :: bytes_of_sextets r
  | [a; b; c] => [byte_of_N (a * 4 + b / 16); byte_of_N (b mod 16 * 16 + c / 4)]
  | [a; b] => [byte_of_N (a * 4 + b / 16)]
  | _ => []
  end.

Definition decode (s : string) : buffer :=
  bytes_of_sextets (sextets (list_ascii_of_string s)).

End Base64.

(** ** JavaScript values and JSON

    Payloads are JS values.  A number is an integer ([VNum]) or, when its
    source text has a fraction or an exponent, that literal kept as written
    ([VNumLit]): it stands for the double that the engine reads the
    literal as, and is written back as it was read, not in the shortest
    form that the engine prints.  A [Date] is its time value in
    milliseconds.  An object is the list of its own properties in creation
    order, which is the order of enumeration but for the properties named
    by an array index, which the engine enumerates before the others. *)

Module JSON.
Import Buf.

Inductive jsval : Type :=
| VUndefined
| VNull
| VBool (b : bool)
| VNum (z : Z)
| VNumLit (raw : string)
| VStr (s : string)
| VDate (ms : Z)
| VArr (l : list jsval)
| VObj (l : list (string * jsval)).

(** *** Dates: [Date.prototype.toISOString] *)

Definition digits_fixed (width : nat) (n : Z) : list ascii :=
  map (fun i => ascii_of_N (48 + Z.to_N ((n / 10 ^ Z.of_nat (width - 1 - i)) mod 10)))
      (seq 0 width).

(** Civil date of a day number counted from 1970-01-01. *)
Definition civil_from_days (days : Z) : Z * Z * Z :=
  let z := (days + 719468)%Z in
  let era := (z / 146097)%Z in
  let doe := (z - era * 146097)%Z in
  let yoe := ((doe - doe / 1460 + doe / 36524 - doe / 146096) / 365)%Z in
  let doy := (doe - (365 * yoe + yoe / 4 - yoe / 100))%Z in
  let mp := ((5 * doy + 2) / 153)%Z in
  let d := (doy - (153 * mp + 2) / 5 + 1)%Z in
  let m := (if mp <? 10 then mp + 3 else mp - 9)%Z in
  let y := (yoe + era * 400 + (if m <=? 2 then 1 else 0))%Z in
  (y, m, d).

Definition valid_date (ms : Z) : bool :=
  ((-8640000000000000 <=? ms) && (ms <=? 8640000000000000))%Z.

Definition toISOString (ms : Z) : string :=
  let days := (ms / 86400000)%Z in
  let t := (ms mod 86400000)%Z in
  let '(y, m, d) := civil_from_days days in
  let year :=
    if ((0 <=? y) && (y <=? 9999))%Z then digits_fixed 4 y
    else (if (y <? 0)%Z then "-"%char else "+"%char) :: digits_fixed 6 (Z.abs y) in
  string_of_list_ascii
    (year ++ ["-"%char] ++ digits_fixed 2 m ++ ["-"%char] ++ digits_fixed 2 d
     ++ ["T"%char] ++ digits_fixed 2 (t / 3600000)
     ++ [":"%char] ++ digits_fixed 2 ((t / 60000) mod 60)
     ++ [":"%char] ++ digits_fixed 2 ((t / 1000) mod 60)
     ++ ["."%char] ++ digits_fixed 3 (t mod 1000) ++ ["Z"%char]).

(** *** The JSON image of a value

    What [JSON.stringify] serialises: [undefined] has no image, an
    [undefined] array element becomes [null], an [undefined] property is
    left out, and a [Date] is replaced by [toJSON()], its ISO string. *)

Fixpoint json_image (v : jsval) : option jsval :=
  match v with
  | VUndefined => None
  | VDate ms => Some (if valid_date ms then VStr (toISOString ms) else VNull)
  | VArr l =>
      Some (VArr (map (fun x => match json_image x with
                                | Some y => y
                                | None => VNull
                                end) l))
  | VObj l =>
      Some (VObj ((fix props (l : list (string * jsval)) : list (string * jsval) :=
                     match l with
                     | [] => []
                     | (k, x) :: r =>
                         match json_image x with
                         | Some y => (k, y) :: props r
                         | None => props r
                         end
                     end) l))
  | _ => Some v
  end.

(** *** Serialisation *)

Definition hex4 (n : N) : list ascii :=
  [Hex.digit (n / 4096); Hex.digit (n / 256 mod 16);
   Hex.digit (n / 16 mod 16); Hex.digit (n mod 16)].

(** QuoteJSONString, one character at a time. *)
Definition escape_char (c : ascii) : list ascii :=
  if (c =? "034")%char then ["\"%char; "034"%char]
  else if (c =? "\")%char then ["\"%char; "\"%char]
  else if (c =? "008")%char then ["\"%char; "b"%char]
  else if (c =? "012")%char then ["\"%char; "f"%char]
  else if (c =? "010")%char then ["\"%char; "n"%char]
  else if (c =? "013")%char then ["\"%char; "r"%char]
  else if (c =? "009")%char then ["\"%char; "t"%char]
  else if (N_of_ascii c <? 32)%N
       then "\"%char :: "u"%char :: hex4 (N_of_ascii c)
  else [c].

(** The code units of the two halves of a surrogate pair. *)
Definition is_high (cu : N) : bool := ((55296 <=? cu) && (cu <=? 56319))%N.
Definition is_low (cu : N) : bool := ((56320 <=? cu) && (cu <=? 57343))%N.

(** The code unit of half a surrogate pair held in three bytes. *)
Definition surrogate_unit (c1 c2 c3 : ascii) : option N :=
  let a := N_of_ascii c1 in
  let b := N_of_ascii c2 in
  let c := N_of_ascii c3 in
  if ((a =? 237) && (160 <=? b) && (b <=? 191) && (128 <=? c) && (c <=? 191))%N
  then Some (53248 + (b - 128) * 64 + (c - 128))%N
  else None.

Definition unit_escape (cu : N) : list ascii := "\"%char :: "u"%char :: hex4 cu.

(** The characters of a string, escaped.  Half a surrogate pair that
    stands alone is written as its [\u] escape.  A high half followed by
    a low half, which is the form of no string (a pair is one character,
    of four bytes), is left as it is. *)
Fixpoint escape (s : list ascii) : list ascii :=
  match s with
  | [] => []
  | c1 :: t =>
      match t with
      | c2 :: c3 :: r =>
          match surrogate_unit c1 c2 c3 with
          | Some cu =>
              if is_high cu then
                match r with
                | d1 :: d2 :: d3 :: r' =>
                    match surrogate_unit d1 d2 d3 with
                    | Some lo =>
                        if is_low lo
                        then c1 :: c2 :: c3 :: d1 :: d2 :: d3 :: escape r'
                        else unit_escape cu ++ escape r
                    | None => unit_escape cu ++ escape r
                    end
                | _ => unit_escape cu ++ escape r
                end
              else unit_escape cu ++ escape r
          | None => escape_char c1 ++ escape t
          end
      | _ => escape_char c1 ++ escape t
      end
  end.

Definition quote (s : string) : list ascii :=
  "034"%char :: escape (list_ascii_of_string s) ++ ["034"%char].

Definition digit_char (d : N) : ascii := ascii_of_N (48 + d).

Fixpoint uint_chars (d : Decimal.uint) : list ascii :=
  match d with
  | Decimal.Nil => []
  | Decimal.D0 r => "0"%char :: uint_chars r
  | Decimal.D1 r => "1"%char :: uint_chars r
  | Decimal.D2 r => "2"%char :: uint_chars r
  | Decimal.D3 r => "3"%char :: uint_chars r
  | Decimal.D4 r => "4"%char :: uint_chars r
  | Decimal.D5 r => "5"%char :: uint_chars r
  | Decimal.D6 r => "6"%char :: uint_chars r
  | Decimal.D7 r => "7"%char :: uint_chars r
  | Decimal.D8 r => "8"%char :: uint_chars r
  | Decimal.D9 r => "9"%char :: uint_chars r
  end.

Definition number_chars (z : Z) : list ascii :=
  (if (z <? 0)%Z then ["-"%char] else []) ++ uint_chars (N.to_uint (Z.abs_N z)).

Definition join (sep : ascii) (parts : list (list ascii)) : list ascii :=
  match parts with
  | [] => []
  | p :: r => p ++ flat_map (fun q => sep :: q) r
  end.

(** The text of a JSON value, without any white space. *)
Fixpoint print (v : jsval) : list ascii :=
  match v with
  | VUndefined => list_ascii_of_string "null"
  | VNull => list_ascii_of_string "null"
  | VBool true => list_ascii_of_string "true"
  | VBool false => list_ascii_of_string "false"
  | VNum z => number_chars z
  | VNumLit raw => list_ascii_of_string raw
  | VStr s => quote s
  | VDate ms => quote (toISOString ms)
  | VArr l => "["%char :: join ","%char (map print l) ++ ["]"%char]
  | VObj l =>
      "{"%char
        :: join ","%char (map (fun kv => quote (fst kv) ++ ":"%char :: print (snd kv)) l)
        ++ ["}"%char]
  end.

(** [JSON.stringify(v)]: [None] stands for the result [undefined]. *)
Definition stringify (v : jsval) : option string :=
  match json_image v with
  | Some j => Some (string_of_list_ascii (print j))
  | None => None
  end.

(** *** Parsing *)

Definition is_ws (c : ascii) : bool :=
  ((c =? " ") || (c =? "009") || (c =? "010") || (c =? "013"))%char.

Fixpoint skip_ws (s : list ascii) : list ascii :=
  match s with
  | c :: r => if is_ws c then skip_ws r else s
  | [] => []
  end.

Definition is_digit (c : ascii) : bool :=
  ((48 <=? N_of_ascii c) && (N_of_ascii c <=? 57))%N.

Definition is_numchar (c : ascii) : bool :=
  (is_digit c || (c =? "-") || (c =? "+") || (c =? ".") || (c =? "e") || (c =? "E"))%char.

Fixpoint span (p : ascii -> bool) (s : list ascii) : list ascii * list ascii :=
  match s with
  | c :: r => if p c then let (a, b) := span p r in (c :: a, b) else ([], s)
  | [] => ([], [])
  end.

Definition digit_cons (c : ascii) (d : Decimal.uint) : Decimal.uint :=
  match N_of_ascii c with
  | 48%N => Decimal.D0 d | 49%N => Decimal.D1 d | 50%N => Decimal.D2 d
  | 51%N => Decimal.D3 d | 52%N => Decimal.D4 d | 53%N => Decimal.D5 d
  | 54%N => Decimal.D6 d | 55%N => Decimal.D7 d | 56%N => Decimal.D8 d
  | _ => Decimal.D9 d
  end.

Fixpoint read_uint (s : list ascii) : Decimal.uint * list ascii :=
  match s with
  | c :: r =>
      if is_digit c then let (d, rest) := read_uint r in (digit_cons c d, rest)
      else (Decimal.Nil, s)
  | [] => (Decimal.Nil, [])
  end.

Definition uint_beq (a b : Decimal.uint) : bool :=
  if Decimal.uint_eq_dec a b then true else false.

Definition nonempty (s : list ascii) : bool :=
  match s with [] => false | _ => true end.

Definition is_nil (s : list ascii) : bool :=
  match s with [] => true | _ => false end.

(** An exponent part, up to the end of the token. *)
Definition exp_ok (t : list ascii) : bool :=
  match t with
  | c :: r =>
      if ((c =? "e") || (c =? "E"))%char then
        let r1 := match r with
                  | s :: r' => if ((s =? "+") || (s =? "-"))%char then r' else r
                  | [] => r
                  end in
        let (ds, r2) := span is_digit r1 in
        nonempty ds && is_nil r2
      else false
  | [] => false
  end.

(** A fraction and/or an exponent, up to the end of the token. *)
Definition frac_exp_ok (t : list ascii) : bool :=
  match t with
  | c :: r =>
      if (c =? ".")%char then
        let (ds, r') := span is_digit r in
        nonempty ds && (is_nil r' || exp_ok r')
      else exp_ok t
  | [] => false
  end.

(** The value of a number token, when it follows the JSON grammar. *)
Definition classify_number (tok : list ascii) : option jsval :=
  let (neg, t1) :=
    match tok with
    | c :: r => if (c =? "-")%char then (true, r) else (false, tok)
    | [] => (false, tok)
    end in
  let (d, t2) := read_uint t1 in
  if uint_beq (Decimal.unorm d) d then
    match t2 with
    | [] =>
        let n := Z.of_N (N.of_uint d) in
        Some (VNum (if neg then (- n)%Z else n))
    | _ =>
        if frac_exp_ok t2 then Some (VNumLit (string_of_list_ascii tok)) else None
    end
  else None.

(** UTF-8 encoding of a code point. *)
Definition utf8 (cp : N) : list ascii :=
  if (cp <? 128)%N then [ascii_of_N cp]
  else if (cp <? 2048)%N
    then [ascii_of_N (192 + cp / 64); ascii_of_N (128 + cp mod 64)]
  else if (cp <? 65536)%N
    then [ascii_of_N (224 + cp / 4096); ascii_of_N (128 + cp / 64 mod 64);
          ascii_of_N (128 + cp mod 64)]
  else [ascii_of_N (240 + cp / 262144); ascii_of_N (128 + cp / 4096 mod 64);
        ascii_of_N (128 + cp / 64 mod 64); ascii_of_N (128 + cp mod 64)].

(** The code unit written by the four digits of a [\uXXXX] escape. *)
Definition code_unit (h1 h2 h3 h4 : ascii) : option N :=
  match Hex.undigit h1, Hex.undigit h2, Hex.undigit h3, Hex.undigit h4 with
  | Some a, Some b, Some c, Some d => Some (a * 4096 + b * 256 + c * 16 + d)%N
  | _, _, _, _ => None
  end.

(** The code point of a surrogate pair. *)
Definition pair_point (hi lo : N) : N :=
  (65536 + (hi - 55296) * 1024 + (lo - 56320))%N.

(** The characters of a string literal after its opening quote.  An
    escaped high surrogate followed by an escaped low surrogate is one
    character. *)
Fixpoint parse_string (s : list ascii) : option (list ascii * list ascii) :=
  match s with
  | [] => None
  | c :: r =>
      if (c =? "034")%char then Some ([], r)
      else if (c =? "\")%char then
        match r with
        | e :: r' =>
            let simple (x : ascii) :=
              match parse_string r' with
              | Some (t, rest) => Some (x :: t, rest)
              | None => None
              end in
            if (e =? "034")%char then simple "034"%char
            else if (e =? "\")%char then simple "\"%char
            else if (e =? "/")%char then simple "/"%char
            else if (e =? "b")%char then simple "008"%char
            else if (e =? "f")%char then simple "012"%char
            else if (e =? "n")%char then simple "010"%char
            else if (e =? "r")%char then simple "013"%char
            else if (e =? "t")%char then simple "009"%char
            else if (e =? "u")%char then
              match r' with
              | h1 :: h2 :: h3 :: h4 :: r'' =>
                  match code_unit h1 h2 h3 h4 with
                  | Some cu =>
                      let alone :=
                        match parse_string r'' with
                        | Some (t, rest) => Some (utf8 cu ++ t, rest)
                        | None => None
                        end in
                      if is_high cu then
                        match r'' with
                        | b :: u :: l1 :: l2 :: l3 :: l4 :: r3 =>
                            if ((b =? "\") && (u =? "u"))%char then
                              match code_unit l1 l2 l3 l4 with
                              | Some lo =>
                                  if is_low lo then
                                    match parse_string r3 with
                                    | Some (t, rest) =>
                                        Some (utf8 (pair_point cu lo) ++ t, rest)
                                    | None => None
                                    end
                                  else alone
                              | None => alone
                              end
                            else alone
                        | _ => alone
                        end
                      else alone
                  | None => None
                  end
              | _ => None
              end
            else None
        | [] => None
        end
      else if (N_of_ascii c <? 32)%N then None
      else
        match parse_string r with
        | Some (t, rest) => Some (c :: t, rest)
        | None => None
        end
  end.

Fixpoint expect (w s : list ascii) : option (list ascii) :=
  match w, s with
  | [], _ => Some s
  | a :: w', b :: s' => if (a =? b)%char then expect w' s' else None
  | _ :: _, [] => None
  end.

(** Defining property [k] on an object under construction: an existing
    property keeps its place and takes the new value. *)
Fixpoint obj_set (l : list (string * jsval)) (k : string) (v : jsval)
  : list (string * jsval) :=
  match l with
  | [] => [(k, v)]
  | (k', v') :: r =>
      if String.eqb k' k then (k', v) :: r else (k', v') :: obj_set r k v
  end.

Definition obj_of (l : list (string * jsval)) : list (string * jsval) :=
  fold_left (fun acc kv => obj_set acc (fst kv) (snd kv)) l [].

(** The rest of [s] when it starts with [c]. *)
Definition peek (c : ascii) (s : list ascii) : option (list ascii) :=
  match s with
  | x :: r => if (x =? c)%char then Some r else None
  | [] => None
  end.

Fixpoint parse_value (fuel : nat) (s : list ascii) {struct fuel}
  : option (jsval * list ascii) :=
  match fuel with
  | O => None
  | S f =>
      match skip_ws s with
      | [] => None
      | c :: r =>
          if (c =? "{")%char then
            match peek "}" (skip_ws r) with
            | Some r' => Some (VObj [], r')
            | None =>
                match parse_members f r with
                | Some (l, rest) => Some (VObj (obj_of l), rest)
                | None => None
                end
            end
          else if (c =? "[")%char then
            match peek "]" (skip_ws r) with
            | Some r' => Some (VArr [], r')
            | None =>
                match parse_elements f r with
                | Some (l, rest) => Some (VArr l, rest)
                | None => None
                end
            end
          else if (c =? "034")%char then
            match parse_string r with
            | Some (t, rest) => Some (VStr (string_of_list_ascii t), rest)
            | None => None
            end
          else if (c =? "t")%char then
            option_map (fun rest => (VBool true, rest))
                       (expect (list_ascii_of_string "rue") r)
          else if (c =? "f")%char then
            option_map (fun rest => (VBool false, rest))
                       (expect (list_ascii_of_string "alse") r)
          else if (c =? "n")%char then
            option_map (fun rest => (VNull, rest))
                       (expect (list_ascii_of_string "ull") r)
          else if (is_digit c || (c =? "-")%char) then
            let (tok, rest) := span is_numchar (c :: r) in
            match classify_number tok with
            | Some v => Some (v, rest)
            | None => None
            end
          else None
      end
  end

with parse_elements (fuel : nat) (s : list ascii) {struct fuel}
  : option (list jsval * list ascii) :=
  match fuel with
  | O => None
  | S f =>
      match parse_value f s with
      | Some (v, rest) =>
          match skip_ws rest with
          | c :: r =>
              if (c =? ",")%char then
                match parse_elements f r with
                | Some (l, rest') => Some (v :: l, rest')
                | None => None
                end
              else if (c =? "]")%char then Some ([v], r)
              else None
          | [] => None
          end
      | None => None
      end
  end

with parse_members (fuel : nat) (s : list ascii) {struct fuel}
  : option (list (string * jsval) * list ascii) :=
  match fuel with
  | O => None
  | S f =>
      match peek "034" (skip_ws s) with
      | Some r =>
          match parse_string r with
          | Some (k, r1) =>
              match peek ":" (skip_ws r1) with
              | Some r2 =>
                  match parse_value f r2 with
                  | Some (v, r3) =>
                      match skip_ws r3 with
                      | c :: r4 =>
                          if (c =? ",")%char then
                            match parse_members f r4 with
                            | Some (l, rest) =>
                                Some ((string_of_list_ascii k, v) :: l, rest)
                            | None => None
                            end
                          else if (c =? "}")%char
                            then Some ([(string_of_list_ascii k, v)], r4)
                          else None
                      | [] => None
                      end
                  | None => None
                  end
              | None => None
              end
          | None => None
          end
      | None => None
      end
  end.

(** [JSON.parse(text)]: [None] stands for a SyntaxError. *)
Definition parse (text : string) : option jsval :=
  let s := list_ascii_of_string text in
  match parse_value (2 * length s + 2) s with
  | Some (v, rest) =>
      match skip_ws rest with
      | [] => Some v
      | _ => None
      end
  | None => None
  end.

(** *** Operations on values used by the handlers *)

(** [v.k]; [None] stands for the TypeError raised on [null] and [undefined]. *)
Fixpoint lookup (l : list (string * jsval)) (k : string) : jsval :=
  match l with
  | [] => VUndefined
  | (k', v) :: r => if String.eqb k' k then v else lookup r k
  end.

(** [v.k] when [v] is known to be neither [null] nor [undefined]. *)
Definition lookup_prop (v : jsval) (k : string) : jsval :=
  match v with
  | VObj l => lookup l k
  | _ => VUndefined
  end.

Definition get_prop (v : jsval) (k : string) : option jsval :=
  match v with
  | VUndefined | VNull => None
  | VObj l => Some (lookup l k)
  | _ => Some VUndefined
  end.

Definition digits_value (ds : list ascii) : N :=
  fold_left (fun acc c => (acc * 10 + (N_of_ascii c - 48))%N) ds 0%N.

(** A number literal as its digits [ds], exponent left out, and the power
    of ten [e] that the number written by those digits is multiplied by. *)
Definition literal_parts (raw : list ascii) : list ascii * Z :=
  let t := match raw with
           | c :: r => if (c =? "-")%char then r else raw
           | [] => raw
           end in
  let (int, t1) := span is_digit t in
  let (frac, t2) := match t1 with
                    | c :: r => if (c =? ".")%char then span is_digit r else ([], t1)
                    | [] => ([], t1)
                    end in
  let exponent :=
    match t2 with
    | _ :: s :: r =>
        if (s =? "-")%char then (- Z.of_N (digits_value r))%Z
        else if (s =? "+")%char then Z.of_N (digits_value r)
        else Z.of_N (digits_value (s :: r))
    | _ => 0%Z
    end in
  (int ++ frac, (exponent - Z.of_nat (length frac))%Z).

(** The engine reads a literal as the double nearest to the number
    written, a tie going to the double with an even mantissa.  The number
    is read as 0 when it is at most [2 ^ -1075], half of the least positive
    double.  A number of [n] digits times [10 ^ e] is below [10 ^ (n + e)],
    so that below [10 ^ -330] the digits need not be weighed. *)
Definition lit_is_zero (raw : list ascii) : bool :=
  let (ds, e) := literal_parts raw in
  let m := Z.of_N (digits_value ds) in
  if (m =? 0)%Z then true
  else if (0 <=? e)%Z then false
  else if (Z.of_nat (length ds) + e <? -330)%Z then true
  else (m * 2 ^ 1075 <=? 10 ^ (- e))%Z.

(** ToBoolean. *)
Definition truthy (v : jsval) : bool :=
  match v with
  | VUndefined | VNull => false
  | VBool b => b
  | VNum z => negb (z =? 0)%Z
  | VNumLit raw => negb (lit_is_zero (list_ascii_of_string raw))
  | VStr s => negb (String.eqb s EmptyString)
  | VDate _ | VArr _ | VObj _ => true
  end.

(** [String(v)], as used for error messages. *)
Fixpoint to_display (v : jsval) : list ascii :=
  match v with
  | VUndefined => list_ascii_of_string "undefined"
  | VNull => list_ascii_of_string "null"
  | VBool true => list_ascii_of_string "true"
  | VBool false => list_ascii_of_string "false"
  | VNum z => number_chars z
  | VNumLit raw => list_ascii_of_string raw
  | VStr s => list_ascii_of_string s
  | VDate ms => list_ascii_of_string (toISOString ms)
  | VArr l =>
      join ","%char (map (fun x => match x with
                                   | VUndefined | VNull => []
                                   | _ => to_display x
                                   end) l)
  | VObj _ => list_ascii_of_string "[object Object]"
  end.

(** *** Values that are proper representations

    A value is well formed when the properties of each of its objects
    have distinct names and each of its kept number literals is a JSON
    number with a fraction or an exponent; it is a JSON value when it
    contains neither [undefined] nor a [Date]. *)

Fixpoint keys_distinct (ks : list string) : bool :=
  match ks with
  | [] => true
  | k :: r => negb (existsb (String.eqb k) r) && keys_distinct r
  end.

Definition literal_ok (raw : string) : bool :=
  forallb is_numchar (list_ascii_of_string raw)
  && match classify_number (list_ascii_of_string raw) with
     | Some (VNumLit r) => String.eqb r raw
     | _ => false
     end.

Fixpoint well_formed (v : jsval) : bool :=
  match v with
  | VNumLit raw => literal_ok raw
  | VArr l => forallb well_formed l
  | VObj l =>
      keys_distinct (map fst l)
      && forallb (fun kv => well_formed (snd kv)) l
  | _ => true
  end.

Fixpoint is_json (v : jsval) : bool :=
  match v with
  | VUndefined | VDate _ => false
  | VArr l => forallb is_json l
  | VObj l => forallb (fun kv => is_json (snd kv)) l
  | _ => true
  end.

(** A bound on the fuel [parse_value] needs to read back [print v]. *)
Fixpoint cost (v : jsval) : nat :=
  match v with
  | VArr l => S (fold_right (fun x n => S (cost x + n)) 0 l)
  | VObj l => S (fold_right (fun kv n => S (cost (snd kv) + n)) 0 l)
  | _ => 1
  end.

End JSON.

(** ** Exceptions

    A computation that may throw returns a [result]; a thrown [Error] has a
    message and, for errors made by an HTTP client, the status of the
    response it carries ([error.response.status]). *)

Record JsError : Type := mkError {
  message : string;
  response_status : option Z
}.

Inductive result (A : Type) : Type :=
| Ok (a : A)
| Throw (e : JsError).

Arguments Ok {A} a.
Arguments Throw {A} e.

(** [new Error(msg)] *)
Definition new_Error (msg : string) : JsError := mkError msg None.

Definition bind {A B : Type} (r : result A) (k : A -> result B) : result B :=
  match r with
  | Ok a => k a
  | Throw e => Throw e
  end.

Notation "'do' x <- r ; k" := (bind r (fun x => k))
  (at level 10, x pattern, r at level 100, k at level 200).

Definition is_ok {A : Type} (r : result A) : bool :=
  match r with Ok _ => true | Throw _ => false end.

(** ** The secure random source

    [crypto.randomBytes] reads the operating system's generator: the bytes it
    will deliver are a given of the environment, [entropy], of which [drawn]
    have been handed out so far. *)

Record Rng : Type := mkRng {
  entropy : nat -> Buf.byte;
  drawn : nat
}.

Definition randomBytes (n : nat) (g : Rng) : Buf.buffer * Rng :=
  (map (entropy g) (seq (drawn g) n), mkRng (entropy g) (drawn g + n)).

(** ** HMAC-SHA256 (RFC 2104) and PBKDF2 (RFC 8018), behind [crypto.pbkdf2Sync] *)

Module PBKDF2.
Import Buf.

(** The block length of SHA-256, in bytes. *)
Definition block_length : nat := 64.

(** A key longer than a block is hashed first; the key is then padded
    with zeros to a full block. *)
Definition hmac_key (key : buffer) : buffer :=
  let k := if block_length <? length key then SHA256.digest key else key in
  k ++ zeros (block_length - length k).

Definition ipad : byte := byte_of_N 54.
Definition opad : byte := byte_of_N 92.

Definition hmac (key msg : buffer) : buffer :=
  let k := hmac_key key in
  SHA256.digest (map (xor_byte opad) k ++ SHA256.digest (map (xor_byte ipad) k ++ msg)).

(** One iteration: the running value [u] is replaced by its HMAC, which
    is folded into the sum [t]. *)
Definition step (password : buffer) (st : buffer * buffer) : buffer * buffer :=
  let u := hmac password (fst st) in (u, GCM.xor_bytes (snd st) u).

(** Block number [i] of the derived key. *)
Definition block (password salt : buffer) (iterations i : N) : buffer :=
  let u1 := hmac password (salt ++ of_N 4 i) in
  snd (N.iter (iterations - 1) (step password) (u1, u1)).

Definition pbkdf2 (password salt : buffer) (iterations : N) (keylen : nat) : buffer :=
  firstn keylen
    (flat_map (fun i => block password salt iterations (N.of_nat i))
              (seq 1 ((keylen + 31) / 32))).

End PBKDF2.

(** ** [utils/encryption.js] *)

Module EncryptionService.
Import Buf JSON.

Definition keyLength : nat := 32.
Definition ivLength : nat := 16.
Definition tagLength : nat := 16.

Record Sealed : Type := mkSealed {
  encrypted : string;
  tag : string
}.

Definition generateKey (g : Rng) : string * Rng :=
  let (b, g') := randomBytes keyLength g in (Base64.encode b, g').

Definition generateIV (g : Rng) : string * Rng :=
  let (b, g') := randomBytes ivLength g in (Base64.encode b, g').

(** The associated data set on every cipher. *)
Definition aad : buffer := of_string "contract-signature".

(** The longest iv that the GCM implementation of OpenSSL 3 takes, in
    bytes. *)
Definition ivLimit : nat := 128.

(** [crypto.createCipheriv('aes-256-gcm', key, iv)] and
    [createDecipheriv]: the key must have 32 bytes, the iv at least one
    and at most [ivLimit]. *)
Definition check_key_iv (keyBuffer ivBuffer : buffer) : result unit :=
  if negb (length keyBuffer =? 32) then Throw (new_Error "Invalid key length")
  else if (length ivBuffer =? 0) || (ivLimit <? length ivBuffer)
  then Throw (new_Error "Invalid initialization vector")
  else Ok tt.

(** The body of [encrypt], inside its [try]. *)
Definition encrypt_body (data : jsval) (key iv : string) : result Sealed :=
  let keyBuffer := Base64.decode key in
  let ivBuffer := Base64.decode iv in
  do _ <- check_key_iv keyBuffer ivBuffer;
  match stringify data with
  | None =>
      Throw (new_Error "The data argument must be of type string or an instance of Buffer")
  | Some text =>
      let (c, t) := GCM.encrypt keyBuffer ivBuffer aad (of_string text) in
      Ok (mkSealed (Hex.encode c) (Hex.encode t))
  end.

Definition encrypt (data : jsval) (key iv : string) : result Sealed :=
  match encrypt_body data key iv with
  | Ok s => Ok s
  | Throw e => Throw (new_Error ("Encryption failed: " ++ message e))
  end.

(** [decipher.update(encryptedData, 'hex', 'utf8')] checks its argument
    before decoding it: a text of odd length is refused. *)
Definition invalid_hex_length (n : nat) : JsError :=
  new_Error ("The argument 'encoding' is invalid for data of length "
             ++ string_of_list_ascii (number_chars (Z.of_nat n))
             ++ ". Received 'hex'").

(** The body of [decrypt], inside its [try]. *)
Definition decrypt_body (encryptedData key iv tag : string) : result jsval :=
  let keyBuffer := Base64.decode key in
  let ivBuffer := Base64.decode iv in
  let tagBuffer := Hex.decode tag in
  do _ <- check_key_iv keyBuffer ivBuffer;
  if negb (GCM.valid_tag_length (length tagBuffer))
  then Throw (new_Error "Invalid authentication tag length")
  else if Nat.odd (String.length encryptedData)
  then Throw (invalid_hex_length (String.length encryptedData))
  else
    match GCM.decrypt keyBuffer ivBuffer aad (Hex.decode encryptedData) tagBuffer with
    | None => Throw (new_Error "Unsupported state or unable to authenticate data")
    | Some p =>
        match parse (to_string p) with
        | Some v => Ok v
        | None => Throw (new_Error "Unexpected token in JSON")
        end
    end.

Definition decrypt (encryptedData key iv tag : string) : result jsval :=
  match decrypt_body encryptedData key iv tag with
  | Ok v => Ok v
  | Throw e => Throw (new_Error ("Decryption failed: " ++ message e))
  end.

Definition generateFileHash (fileBuffer : buffer) : string :=
  Hex.encode (SHA256.digest fileBuffer).

(** [generateSalt()] *)
Definition generateSalt (g : Rng) : string * Rng :=
  let (b, g') := randomBytes 32 g in (Base64.encode b, g').

(** [deriveKey(password, salt)]: PBKDF2 with HMAC-SHA256, 100000
    iterations, a key of [keyLength] bytes. *)
Definition deriveKey (password salt : string) : string :=
  Base64.encode
    (PBKDF2.pbkdf2 (of_string password) (Base64.decode salt) 100000 keyLength).

(** The characters that [\s] and [trim] take for white space, among the
    ASCII characters. *)
Definition is_blank (c : ascii) : bool :=
  ((c =? " ") || (c =? "009") || (c =? "010") || (c =? "011")
   || (c =? "012") || (c =? "013"))%char.

(** [content.replace(/\s+/g, ' ')]; [in_run] tells that the character
    before was white space. *)
Fixpoint squeeze (in_run : bool) (s : list ascii) : list ascii :=
  match s with
  | [] => []
  | c :: r =>
      if is_blank c
      then if in_run then squeeze true r else " "%char :: squeeze true r
      else c :: squeeze false r
  end.

Fixpoint strip_start (s : list ascii) : list ascii :=
  match s with
  | c :: r => if is_blank c then strip_start r else s
  | [] => []
  end.

(** [s.trim()] *)
Definition strip (s : list ascii) : list ascii :=
  rev (strip_start (rev (strip_start s))).

(** [c.toLowerCase()] for an ASCII character. *)
Definition lower (c : ascii) : ascii :=
  let n := N_of_ascii c in
  if ((65 <=? n) && (n <=? 90))%N then ascii_of_N (n + 32) else c.

Definition is_ascii7 (c : ascii) : bool := (N_of_ascii c <? 128)%N.

Definition normalize (content : list ascii) : list ascii :=
  map lower (strip (squeeze false content)).

(** [generateContentHash(content)].  The normalisation is the one the
    engine performs on ASCII text.  On other text [\s], [trim] and
    [toLowerCase] follow the Unicode tables of the engine, which are not
    part of this development: the result is [None] there. *)
Definition generateContentHash (content : string) : option string :=
  let s := list_ascii_of_string content in
  if forallb is_ascii7 s
  then Some (Hex.encode (SHA256.digest (normalize s)))
  else None.

End EncryptionService.

Module ContractSignatureService.
Import JSON EncryptionService.

Record Signature : Type := mkSignature {
  key : string;
  iv : string;
  encryptedContent : string;
  contentTag : string;
  encryptedAnalysis : string;
  analysisTag : string
}.

(** [createSignature(contractData, analysisData, userId)]; the generator
    has been read even when an encryption throws. *)
Definition createSignature (contractData analysisData : jsval) (userId : N) (g : Rng)
  : result Signature * Rng :=
  let (key, g1) := generateKey g in
  let (iv, g2) := generateIV g1 in
  (do c <- encrypt contractData key iv;
   do a <- encrypt analysisData key iv;
   Ok (mkSignature key iv (encrypted c) (tag c) (encrypted a) (tag a)),
   g2).

Definition decryptSignature (s : Signature) : result (jsval * jsval) :=
  do contractData <- decrypt (encryptedContent s) (key s) (iv s) (contentTag s);
  do analysisData <- decrypt (encryptedAnalysis s) (key s) (iv s) (analysisTag s);
  Ok (contractData, analysisData).

Record Fingerprint : Type := mkFingerprint {
  fp_fileHash : string;
  fp_contentHash : string;
  fingerprint : string
}.

(** [generateContractFingerprint(fileBuffer, extractedText)], on the
    texts for which [generateContentHash] is defined. *)
Definition generateContractFingerprint (fileBuffer : Buf.buffer) (extractedText : string)
  : option Fingerprint :=
  let fileHash := generateFileHash fileBuffer in
  match generateContentHash extractedText with
  | Some contentHash =>
      Some (mkFingerprint fileHash contentHash
              (generateFileHash (Buf.of_string (fileHash ++ contentHash))))
  | None => None
  end.

End ContractSignatureService.

(** ** [models/contractSignature.models.js] *)

Module Model.
Import JSON.

Inductive Status : Type := active | archived | deleted.

Definition status_eqb (a b : Status) : bool :=
  match a, b with
  | active, active | archived, archived | deleted, deleted => true
  | _, _ => false
  end.

Record ContractSignature : Type := mkContractSignature {
  doc_id : N;
  fileHash : string;
  fileName : string;
  fileSize : Z;
  fileType : string;
  uploadedBy : N;
  encryptedContent : string;
  encryptedAnalysis : string;
  encryptionKey : string;
  iv : string;
  contentTag : string;
  analysisTag : string;
  analysisDate : Z;
  analysisVersion : string;
  accessCount : Z;
  lastAccessed : Z;
  status : Status;
  createdAt : Z;
  updatedAt : Z
}.

(** The collection, in insertion order. *)
Definition Collection : Type := list ContractSignature.

(** [findOne({ fileHash, uploadedBy, status: 'active' })], as the
    collection answers it.  That the driver may reject a query instead is
    among the conditions of a request, in [Routes]. *)
Definition findOne (db : Collection) (h : string) (user : N) : option ContractSignature :=
  find (fun d => String.eqb (fileHash d) h && N.eqb (uploadedBy d) user
                 && status_eqb (status d) active) db.

(** [findOne({ _id, uploadedBy, status: 'active' })] *)
Definition findById (db : Collection) (id user : N) : option ContractSignature :=
  find (fun d => N.eqb (doc_id d) id && N.eqb (uploadedBy d) user
                 && status_eqb (status d) active) db.

Definition nonblank (s : string) : bool := negb (String.eqb s EmptyString).

(** The [required: true] validators: a required string must not be empty. *)
Definition validate (d : ContractSignature) : bool :=
  nonblank (fileHash d) && nonblank (fileName d) && nonblank (fileType d)
  && nonblank (encryptedContent d) && nonblank (encryptedAnalysis d)
  && nonblank (encryptionKey d) && nonblank (iv d)
  && nonblank (contentTag d) && nonblank (analysisTag d).

(** [save()] of a new document.  The schema declares [fileHash] with
    [unique: true]: the insert is refused when any document of the
    collection, whatever its uploader or status, holds the same hash. *)
Definition insert (db : Collection) (now : Z) (d : ContractSignature)
  : result (Collection * ContractSignature) :=
  if negb (validate d)
  then Throw (new_Error "ContractSignature validation failed")
  else if existsb (fun x => String.eqb (fileHash x) (fileHash d)) db
  then Throw (new_Error "E11000 duplicate key error collection: contractsignatures index: fileHash_1")
  else
    let stored :=
      mkContractSignature (doc_id d) (fileHash d) (fileName d) (fileSize d) (fileType d)
        (uploadedBy d) (encryptedContent d) (encryptedAnalysis d) (encryptionKey d)
        (iv d) (contentTag d) (analysisTag d) (analysisDate d) (analysisVersion d)
        (accessCount d) (lastAccessed d) (status d) now now in
    Ok (db ++ [stored], stored).

(** The in-memory part of [incrementAccess]: [this.accessCount += 1;
    this.lastAccessed = new Date()]. *)
Definition touch (now : Z) (d : ContractSignature) : ContractSignature :=
  mkContractSignature (doc_id d) (fileHash d) (fileName d) (fileSize d) (fileType d)
    (uploadedBy d) (encryptedContent d) (encryptedAnalysis d) (encryptionKey d)
    (iv d) (contentTag d) (analysisTag d) (analysisDate d) (analysisVersion d)
    (accessCount d + 1) now (status d) (createdAt d) (updatedAt d).

(** What [save()] writes for a document modified by [touch]: the modified
    paths [accessCount] and [lastAccessed] are set to the values held in
    memory, and [updatedAt] to the time of the save. *)
Definition write_access (now : Z) (mem stored : ContractSignature) : ContractSignature :=
  mkContractSignature (doc_id stored) (fileHash stored) (fileName stored)
    (fileSize stored) (fileType stored) (uploadedBy stored) (encryptedContent stored)
    (encryptedAnalysis stored) (encryptionKey stored) (iv stored) (contentTag stored)
    (analysisTag stored) (analysisDate stored) (analysisVersion stored)
    (accessCount mem) (lastAccessed mem) (status stored) (createdAt stored) now.

(** [save()] of a document read from the collection and modified by
    [touch]; it throws when the document is no longer there. *)
Definition save_access (db : Collection) (now : Z) (mem : ContractSignature)
  : result (Collection * ContractSignature) :=
  if existsb (fun x => N.eqb (doc_id x) (doc_id mem)) db
  then Ok (map (fun x => if N.eqb (doc_id x) (doc_id mem)
                         then write_access now mem x else x) db,
           write_access now mem mem)
  else Throw (new_Error "No document found for query").

(** [statics.decryptData]: the same steps as [EncryptionService.decrypt],
    without the rewording of the error. *)
Definition decryptData (encryptedData key iv tag : string) : result jsval :=
  EncryptionService.decrypt_body encryptedData key iv tag.

(** [statics.encryptData] *)
Definition encryptData (data : jsval) (key iv : string)
  : result EncryptionService.Sealed :=
  EncryptionService.encrypt_body data key iv.

Definition getDecryptedAnalysis (d : ContractSignature) : result jsval :=
  match decryptData (encryptedAnalysis d) (encryptionKey d) (iv d) (analysisTag d) with
  | Ok v => Ok v
  | Throw _ => Throw (new_Error "Failed to decrypt analysis data")
  end.

Definition getDecryptedContent (d : ContractSignature) : result jsval :=
  match decryptData (encryptedContent d) (encryptionKey d) (iv d) (contentTag d) with
  | Ok v => Ok v
  | Throw _ => Throw (new_Error "Failed to decrypt content data")
  end.

End Model.

(** ** [utils/multer.js]: the shared disk-storage upload middleware *)

Module Multer.
Import Buf.

(** The transient upload directory: paths and their contents. *)
Definition FS : Type := list (string * buffer).

Definition existsSync (fs : FS) (p : string) : bool :=
  existsb (fun e => String.eqb (fst e) p) fs.

Definition unlinkSync (fs : FS) (p : string) : FS :=
  filter (fun e => negb (String.eqb (fst e) p)) fs.

Definition readFileSync (fs : FS) (p : string) : result buffer :=
  match find (fun e => String.eqb (fst e) p) fs with
  | Some e => Ok (snd e)
  | None => Throw (new_Error ("ENOENT: no such file or directory, open " ++ p))
  end.

Definition writeFile (fs : FS) (p : string) (data : buffer) : FS :=
  (p, data) :: unlinkSync fs p.

(** The file part of a multipart request, sent in the field that the
    route names.  [up_name] is the file name as the parser reports it: the
    last component of the name sent, and empty when that is [.] or
    [..]. *)
Record Upload : Type := mkUpload {
  up_name : string;
  up_type : string;
  up_bytes : buffer
}.

(** [req.file].  Disk storage fills [destination], [filename] and [path];
    the [buffer] property exists under memory storage only. *)
Record MulterFile : Type := mkMulterFile {
  originalname : string;
  mimetype : string;
  filename : string;
  path : string;
  size : Z;
  buffer : option Buf.buffer
}.

Definition uploadsDir : string := "upload".

Definition join (dir name : string) : string := dir ++ "/" ++ name.

Definition allowedMimeTypes : list string :=
  [ "application/pdf";
    "application/vnd.openxmlformats-officedocument.wordprocessingml.document";
    "text/plain" ]%string.

Definition endsWith (s suffix : string) : bool :=
  let n := String.length s in
  let m := String.length suffix in
  (m <=? n) && String.eqb (String.substring (n - m) m s) suffix.

Definition fileFilter (u : Upload) : bool :=
  existsb (String.eqb (up_type u)) allowedMimeTypes
  || endsWith (up_name u) ".pdf" || endsWith (up_name u) ".docx"
  || endsWith (up_name u) ".txt".

Definition fileSizeLimit : N := 10 * 1024 * 1024.

(** [a || b] on strings: the empty string is falsy. *)
Definition or_else (a b : string) : string :=
  if String.eqb a EmptyString then b else a.

Definition decimal (z : Z) : string := string_of_list_ascii (JSON.number_chars z).

(** [upload.single(field)].  A file part without a file name is passed
    over, and the request goes on without [req.file].  For a named part:
    the filter, then the [filename] callback, which removes a file of the
    same name, then the write to disk, which is given up, and what was
    written removed, as soon as the bytes read reach the limit. *)
Definition single (fs : FS) (now : Z) (u : Upload) : FS * result (option MulterFile) :=
  if String.eqb (up_name u) EmptyString then (fs, Ok None)
  else if negb (fileFilter u)
  then (fs, Throw (new_Error "Invalid file type. Only PDF, DOCX, and TXT files are allowed."))
  else
    let safeName := or_else (up_name u) ("upload_" ++ decimal now) in
    let targetPath := join uploadsDir safeName in
    if (fileSizeLimit <=? N.of_nat (length (up_bytes u)))%N
    then (unlinkSync fs targetPath, Throw (new_Error "File too large"))
    else (writeFile fs targetPath (up_bytes u),
          Ok (Some (mkMulterFile (up_name u) (up_type u) safeName targetPath
                                 (Z.of_nat (length (up_bytes u))) None))).

Definition getUploadedFilePath (file : MulterFile) : string :=
  or_else (path file) (join uploadsDir (filename file)).

Definition deleteFileIfExists (fs : FS) (filePath : string) : FS :=
  if String.eqb filePath EmptyString then fs
  else if existsSync fs filePath then unlinkSync fs filePath else fs.

End Multer.

(** ** [routes/smartContractAnalysis.js] *)

Module Routes.
Import Buf JSON Model Multer.

Local Open Scope string_scope.

(** Everything a request can read or change. *)
Record World : Type := mkWorld {
  db : Collection;
  fs : FS;
  rng : Rng;
  now : Z;
  next_id : N;
  analyzer_runs : nat;
  temp_dirs : nat
}.

Definition set_db (w : World) (d : Collection) : World :=
  mkWorld d (fs w) (rng w) (now w) (next_id w) (analyzer_runs w) (temp_dirs w).

Definition set_fs (w : World) (f : FS) : World :=
  mkWorld (db w) f (rng w) (now w) (next_id w) (analyzer_runs w) (temp_dirs w).

Definition set_rng (w : World) (g : Rng) : World :=
  mkWorld (db w) (fs w) g (now w) (next_id w) (analyzer_runs w) (temp_dirs w).

Definition take_id (w : World) : World :=
  mkWorld (db w) (fs w) (rng w) (now w) (next_id w + 1) (analyzer_runs w) (temp_dirs w).

(** [fs.mkdtempSync] followed by [spawn]. *)
Definition spawn_analyzer (w : World) : World :=
  mkWorld (db w) (fs w) (rng w) (now w) (next_id w)
          (S (analyzer_runs w)) (S (temp_dirs w)).

(** [fs.rmSync(tempDir, { recursive: true, force: true })] *)
Definition remove_temp_dir (w : World) : World :=
  mkWorld (db w) (fs w) (rng w) (now w) (next_id w)
          (analyzer_runs w) (pred (temp_dirs w)).

Definition delete_upload (w : World) (p : string) : World :=
  set_fs w (deleteFileIfExists (fs w) p).

(** A request after [verifyUser] and the upload middleware. *)
Record Request : Type := mkRequest {
  user : N;
  file : option MulterFile
}.

Record Response : Type := mkResponse {
  status_code : Z;
  body : jsval
}.

(** What the [close] event of the analyzer process delivers: the exit
    code ([None] when the process was killed by a signal), and the texts
    gathered from its two output streams until then. *)
Record ProcResult : Type := mkProcResult {
  exit_code : option Z;
  stdout : string;
  stderr : string
}.

Definition failure (code : Z) (msg : string) (error : option string) : Response :=
  mkResponse code
    (VObj (("success"%string, VBool false) :: ("message"%string, VStr msg)
           :: match error with
              | Some e => [("error"%string, VStr e)]
              | None => []
              end)).

(** *** The [close] handler of the analyzer process *)

(** The white space and the line terminators that [String.prototype.trim]
    removes: those of one byte, of two bytes (U+00A0) and of three bytes
    (U+1680, U+2000 to U+200A, U+2028, U+2029, U+202F, U+205F, U+3000,
    U+FEFF) in UTF-8. *)
Definition is_space (c : ascii) : bool :=
  ((c =? " ") || (c =? "009") || (c =? "010") || (c =? "011")
   || (c =? "012") || (c =? "013"))%char.

Definition is_space2 (c1 c2 : ascii) : bool :=
  ((N_of_ascii c1 =? 194) && (N_of_ascii c2 =? 160))%N.

Definition is_space3 (c1 c2 c3 : ascii) : bool :=
  let a := N_of_ascii c1 in
  let b := N_of_ascii c2 in
  let c := N_of_ascii c3 in
  (((a =? 225) && (b =? 154) && (c =? 128))
   || ((a =? 226) && (b =? 128)
       && (((128 <=? c) && (c <=? 138)) || (c =? 168) || (c =? 169) || (c =? 175)))
   || ((a =? 226) && (b =? 129) && (c =? 159))
   || ((a =? 227) && (b =? 128) && (c =? 128))
   || ((a =? 239) && (b =? 187) && (c =? 191)))%N.

Fixpoint trim_start (s : list ascii) : list ascii :=
  match s with
  | c1 :: r1 =>
      if is_space c1 then trim_start r1
      else
        match r1 with
        | c2 :: r2 =>
            if is_space2 c1 c2 then trim_start r2
            else
              match r2 with
              | c3 :: r3 => if is_space3 c1 c2 c3 then trim_start r3 else s
              | [] => s
              end
        | [] => s
        end
  | [] => []
  end.

(** The same from the end of a text, which is given last byte first. *)
Fixpoint trim_end (s : list ascii) : list ascii :=
  match s with
  | c1 :: r1 =>
      if is_space c1 then trim_end r1
      else
        match r1 with
        | c2 :: r2 =>
            if is_space2 c2 c1 then trim_end r2
            else
              match r2 with
              | c3 :: r3 => if is_space3 c3 c2 c1 then trim_end r3 else s
              | [] => s
              end
        | [] => s
        end
  | [] => []
  end.

Definition trim (s : list ascii) : list ascii :=
  rev (trim_end (rev (trim_start s))).

(** [s.split("\n")] *)
Fixpoint split_lines (cur : list ascii) (s : list ascii) : list (list ascii) :=
  match s with
  | [] => [rev cur]
  | c :: r =>
      if (c =? "010")%char then rev cur :: split_lines [] r
      else split_lines (c :: cur) r
  end.

Definition looks_like_json (l : list ascii) : bool :=
  match trim l with
  | c :: _ => (c =? "{")%char
  | [] => false
  end
  && match rev (trim l) with
     | c :: _ => (c =? "}")%char
     | [] => false
     end.

Definition candidate_line (out : string) : string :=
  let lines := filter nonempty (split_lines [] (trim (list_ascii_of_string out))) in
  match find looks_like_json (rev lines) with
  | Some l => string_of_list_ascii l
  | None => "{}"%string
  end.

Definition first_truthy (v : jsval) (err fallback : string) : string :=
  if truthy v then string_of_list_ascii (to_display v)
  else or_else err fallback.

(** What the [close] handler makes of the promise built around the child
    process: [Ok parsed] when it resolves it, [Throw] when it rejects
    it. *)
Definition analyzer_promise (p : ProcResult) : result jsval :=
  let parse_failure :=
    Throw (new_Error (or_else (stderr p) "Failed to parse analyzer output")) in
  match parse (candidate_line (stdout p)) with
  | None => parse_failure
  | Some parsed =>
      match get_prop parsed "ok", get_prop parsed "error" with
      | Some ok, Some error =>
          let exited_zero := match exit_code p with
                             | Some 0%Z => true
                             | _ => false
                             end in
          if negb exited_zero || match ok with VBool false => true | _ => false end
          then Throw (new_Error (first_truthy error (stderr p) "Analyzer exited with error"))
          else Ok parsed
      | _, _ => parse_failure
      end
  end.

(** The analysis step for an analyzer that closes with [p]: the promise,
    settled by the [close] handler, then the check of its result. *)
Definition run_analysis (p : ProcResult) : result (jsval * jsval) :=
  do result <- analyzer_promise p;
  if negb (truthy result) || negb (truthy (lookup_prop result "analysis"))
  then Throw (new_Error "Invalid response from local analyzer")
  else Ok (lookup_prop result "analysis", lookup_prop result "extracted_text").

(** *** POST /analyze *)

(** [new contractSignatureModel({...})]: the given paths and the schema
    defaults. *)
Definition new_document (w : World) (h : string) (f : MulterFile) (uid : N)
           (s : ContractSignatureService.Signature) : ContractSignature :=
  mkContractSignature (next_id w) h (originalname f) (size f) (mimetype f) uid
    (ContractSignatureService.encryptedContent s)
    (ContractSignatureService.encryptedAnalysis s)
    (ContractSignatureService.key s) (ContractSignatureService.iv s)
    (ContractSignatureService.contentTag s) (ContractSignatureService.analysisTag s)
    (now w) "1.0" 0 (now w) active (now w) (now w).

Definition contract_data (w : World) (f : MulterFile) (extracted_text : jsval) : jsval :=
  VObj [ ("fileName", VStr (originalname f));
         ("fileSize", VNum (size f));
         ("fileType", VStr (mimetype f));
         ("uploadDate", VDate (now w));
         ("extractedText", extracted_text) ]%string.

Definition contract_info (d : ContractSignature) : jsval :=
  VObj [ ("fileName", VStr (fileName d));
         ("fileSize", VNum (fileSize d));
         ("analysisDate", VDate (analysisDate d)) ]%string.

Definition id_value (id : N) : jsval := VNum (Z.of_N id).

Definition duplicate_response (d : ContractSignature) (analysis extracted : jsval)
  : Response :=
  mkResponse 200
    (VObj [ ("success", VBool true);
            ("message", VStr "Contract already analyzed. Returning previous analysis.");
            ("isDuplicate", VBool true);
            ("analysis", analysis);
            ("extracted_text", extracted);
            ("contractId", id_value (doc_id d));
            ("accessCount", VNum (accessCount d));
            ("lastAnalyzed", VDate (analysisDate d));
            ("contractInfo", contract_info d) ]%string).

Definition analyzed_response (d : ContractSignature) (analysis extracted : jsval)
  : Response :=
  mkResponse 200
    (VObj [ ("success", VBool true);
            ("message", VStr "Contract analyzed and stored successfully");
            ("isDuplicate", VBool false);
            ("analysis", analysis);
            ("extracted_text", extracted);
            ("contractId", id_value (doc_id d));
            ("contractInfo", contract_info d) ]%string).

(** The outer [catch] of the handler. *)
Definition analyze_failed (e : JsError) : Response :=
  failure 500 "Failed to analyze contract" (Some (message e)).

(** The [catch (analysisError)] around the analysis, the sealing and the
    save.  [tempDir] is declared inside the [try] block, so that removing
    it from the [catch] block fails, silently. *)
Definition analysis_catch (w : World) (uploadedFilePath : string) (e : JsError)
  : World * Response :=
  if match response_status e with Some 500%Z => true | _ => false end
  then (w, failure 500 "Contract analysis failed. Please try again."
                   (Some "Analysis service error"))
  else (delete_upload w uploadedFilePath, analyze_failed e).

(** The handler stops at the operations on the collection.  Between the
    lookup and the write that follows it, other requests may run. *)
Inductive Pending : Type :=
| Finished (r : Response)
| AwaitAccessSave (existingContract : ContractSignature)
| AwaitInsert (contractSignature : ContractSignature) (analysis extracted_text : jsval)
              (uploadedFilePath : string).

(** From the [close] event of the analyzer, started in [w1], to the save
    of the new record. *)
Definition analysis_step (w1 : World) (uid : N) (f : MulterFile)
           (uploadedFilePath h : string) (proc : ProcResult) : World * Pending :=
  match run_analysis proc with
  | Throw e =>
      let (w2, r) := analysis_catch w1 uploadedFilePath e in
      (w2, Finished r)
  | Ok (analysis, extracted_text) =>
      let (sig, g) :=
        ContractSignatureService.createSignature
          (contract_data w1 f extracted_text) analysis uid (rng w1) in
      let w2 := set_rng w1 g in
      match sig with
      | Throw e =>
          let (w3, r) := analysis_catch w2 uploadedFilePath e in
          (w3, Finished r)
      | Ok signatureData =>
          (take_id w2,
           AwaitInsert (new_document w2 h f uid signatureData)
                       analysis extracted_text uploadedFilePath)
      end
  end.

(** From the start of the handler to its first write to the collection,
    when the lookup is served and the analyzer, if it is started, closes
    with [proc]. *)
Definition analyze_start (w : World) (req : Request) (proc : ProcResult)
  : World * Pending :=
  match file req with
  | None => (w, Finished (failure 400 "No file uploaded" None))
  | Some f =>
      let uploadedFilePath := getUploadedFilePath f in
      if String.eqb uploadedFilePath EmptyString
      then (w, Finished (failure 500 "Upload failed" None))
      else
        match readFileSync (fs w) uploadedFilePath with
        | Throw e => (w, Finished (analyze_failed e))
        | Ok fileBuffer =>
            let h := EncryptionService.generateFileHash fileBuffer in
            match findOne (db w) h (user req) with
            | Some existingContract =>
                let w1 := delete_upload w uploadedFilePath in
                (w1, AwaitAccessSave (touch (now w1) existingContract))
            | None =>
                analysis_step (spawn_analyzer w) (user req) f uploadedFilePath h proc
            end
        end
  end.

(** From the write to the collection to the response. *)
Definition analyze_finish (w : World) (p : Pending) : World * Response :=
  match p with
  | Finished r => (w, r)
  | AwaitAccessSave existingContract =>
      match save_access (db w) (now w) existingContract with
      | Throw e => (w, analyze_failed e)
      | Ok (db', saved) =>
          let w1 := set_db w db' in
          match (do decryptedAnalysis <- getDecryptedAnalysis saved;
                 do decryptedContent <- getDecryptedContent saved;
                 match get_prop decryptedContent "extractedText" with
                 | Some t => Ok (decryptedAnalysis, t)
                 | None => Throw (new_Error "Cannot read properties of null")
                 end) with
          | Ok (decryptedAnalysis, extracted) =>
              (w1, duplicate_response saved decryptedAnalysis extracted)
          | Throw e => (w1, analyze_failed e)
          end
      end
  | AwaitInsert contractSignature analysis extracted_text uploadedFilePath =>
      match insert (db w) (now w) contractSignature with
      | Throw e =>
          let (w1, r) := analysis_catch w uploadedFilePath e in (w1, r)
      | Ok (db', saved) =>
          let w1 := remove_temp_dir (delete_upload (set_db w db') uploadedFilePath) in
          (w1, analyzed_response saved analysis extracted_text)
      end
  end.

(** The handler run without interruption. *)
Definition analyze (w : World) (req : Request) (proc : ProcResult) : World * Response :=
  let (w1, p) := analyze_start w req proc in analyze_finish w1 p.

(** *** POST /analyze and what its environment may do

    The handler waits three times: for the lookup, for the [close] event
    of the analyzer, and for a save.  The database driver may reject the
    lookup or the save with an error of its own, of which the message is
    given here; such an error carries no HTTP response.  The promise
    around the analyzer is settled by the [close] event alone.  The
    handler sets no timer, so that a process that does not close leaves
    the request waiting; and it registers no listener for the [error]
    event of the child, so that a start that fails with this event (no
    interpreter at the path given, say) stops the server before the
    [close] event is handled.  In both cases no response is sent. *)

Inductive Analyzer : Type :=
| Closes (p : ProcResult)
| NeverCloses.

Record Conditions : Type := mkConditions {
  lookup_rejected : option string;
  save_rejected : option string;
  analyzer : Analyzer
}.

(** The lookup is served, the save goes through to the collection, the
    analyzer closes. *)
Definition served (proc : ProcResult) : Conditions :=
  mkConditions None None (Closes proc).

(** The write to the collection.  A save that the server rejects ends in
    the [catch] block around it, as a save that the collection refuses. *)
Definition save_under (c : Conditions) (w : World) (p : Pending) : World * Response :=
  match save_rejected c, p with
  | Some msg, AwaitAccessSave _ => (w, analyze_failed (new_Error msg))
  | Some msg, AwaitInsert _ _ _ uploadedFilePath =>
      analysis_catch w uploadedFilePath (new_Error msg)
  | _, _ => analyze_finish w p
  end.

(** The handler from the request to the response; [None] when no
    response is sent. *)
Definition analyze_under (c : Conditions) (w : World) (req : Request)
  : World * option Response :=
  match file req with
  | None => (w, Some (failure 400 "No file uploaded" None))
  | Some f =>
      let uploadedFilePath := getUploadedFilePath f in
      if String.eqb uploadedFilePath EmptyString
      then (w, Some (failure 500 "Upload failed" None))
      else
        match readFileSync (fs w) uploadedFilePath with
        | Throw e => (w, Some (analyze_failed e))
        | Ok fileBuffer =>
            let h := EncryptionService.generateFileHash fileBuffer in
            match lookup_rejected c with
            | Some msg => (w, Some (analyze_failed (new_Error msg)))
            | None =>
                match findOne (db w) h (user req) with
                | Some existingContract =>
                    let w1 := delete_upload w uploadedFilePath in
                    let (w2, r) :=
                      save_under c w1 (AwaitAccessSave (touch (now w1) existingContract)) in
                    (w2, Some r)
                | None =>
                    let w1 := spawn_analyzer w in
                    match analyzer c with
                    | NeverCloses => (w1, None)
                    | Closes proc =>
                        let (w2, p) :=
                          analysis_step w1 (user req) f uploadedFilePath h proc in
                        let (w3, r) := save_under c w2 p in
                        (w3, Some r)
                    end
                end
            end
        end
  end.

(** *** POST /check-duplicate *)

Definition check_failed (e : JsError) : Response :=
  failure 500 "Failed to check for duplicate contract" (Some (message e)).

Definition found_response (d : ContractSignature) (analysis extracted : jsval)
  : Response :=
  mkResponse 200
    (VObj [ ("success", VBool true);
            ("isDuplicate", VBool true);
            ("contractId", id_value (doc_id d));
            ("analysis", analysis);
            ("extracted_text", extracted);
            ("contractInfo",
             VObj [ ("fileName", VStr (fileName d));
                    ("fileSize", VNum (fileSize d));
                    ("analysisDate", VDate (analysisDate d));
                    ("accessCount", VNum (accessCount d)) ]) ]%string).

Definition not_found_response : Response :=
  mkResponse 200
    (VObj [ ("success", VBool true);
            ("isDuplicate", VBool false);
            ("message", VStr "Contract not found in database. Analysis required.") ]%string).

(** [encryptionService.generateFileHash(req.file.buffer)]: hashing
    [undefined] throws a TypeError. *)
Definition hash_of_buffer (b : option Buf.buffer) : result string :=
  match b with
  | Some bytes => Ok (EncryptionService.generateFileHash bytes)
  | None =>
      Throw (new_Error "The data argument must be of type string or an instance of Buffer")
  end.

Definition check_duplicate (w : World) (req : Request) : World * Response :=
  match file req with
  | None => (w, failure 400 "No file uploaded" None)
  | Some f =>
      match hash_of_buffer (buffer f) with
      | Throw e => (w, check_failed e)
      | Ok h =>
          match findOne (db w) h (user req) with
          | Some existingContract =>
              match (do analysis <- getDecryptedAnalysis existingContract;
                     do content <- getDecryptedContent existingContract;
                     match get_prop content "extractedText" with
                     | Some t => Ok (analysis, t)
                     | None => Throw (new_Error "Cannot read properties of null")
                     end) with
              | Ok (analysis, extracted) =>
                  (w, found_response existingContract analysis extracted)
              | Throw e => (w, check_failed e)
              end
          | None => (w, not_found_response)
          end
      end
  end.

(** *** The endpoints: the upload middleware, then the handler *)

(** Express's answer to an error raised by a middleware. *)
Definition middleware_error (e : JsError) : Response :=
  mkResponse 500 (VStr (message e)).

Definition receive (w : World) (uid : N) (u : option Upload)
  : World * result Request :=
  match u with
  | None => (w, Ok (mkRequest uid None))
  | Some up =>
      let (fs', f) := single (fs w) (now w) up in
      (set_fs w fs',
       match f with
       | Ok file => Ok (mkRequest uid file)
       | Throw e => Throw e
       end)
  end.

Definition post_analyze (w : World) (uid : N) (u : option Upload) (proc : ProcResult)
  : World * Response :=
  match receive w uid u with
  | (w1, Ok req) => analyze w1 req proc
  | (w1, Throw e) => (w1, middleware_error e)
  end.

Definition post_analyze_under (c : Conditions) (w : World) (uid : N) (u : option Upload)
  : World * option Response :=
  match receive w uid u with
  | (w1, Ok req) => analyze_under c w1 req
  | (w1, Throw e) => (w1, Some (middleware_error e))
  end.

Definition post_check_duplicate (w : World) (uid : N) (u : option Upload)
  : World * Response :=
  match receive w uid u with
  | (w1, Ok req) => check_duplicate w1 req
  | (w1, Throw e) => (w1, middleware_error e)
  end.

(** Fields of a response body. *)
Definition field (r : Response) (k : string) : jsval :=
  match body r with
  | VObj l => lookup l k
  | _ => VUndefined
  end.

(** *** GET /contract/:contractId *)

Definition retrieve_failed (e : JsError) : Response :=
  failure 500 "Failed to retrieve contract" (Some (message e)).

Definition contract_response (d : ContractSignature) (analysis extracted : jsval)
  : Response :=
  mkResponse 200
    (VObj [ ("success", VBool true);
            ("contract",
             VObj [ ("id", id_value (doc_id d));
                    ("fileName", VStr (fileName d));
                    ("fileSize", VNum (fileSize d));
                    ("fileType", VStr (fileType d));
                    ("analysisDate", VDate (analysisDate d));
                    ("accessCount", VNum (accessCount d));
                    ("lastAccessed", VDate (lastAccessed d)) ]);
            ("analysis", analysis);
            ("extracted_text", extracted) ]%string).

(** [contractId] is the route parameter after the cast to an [ObjectId]
    that the query makes; it is [None] for a parameter that is no
    [ObjectId], on which the query throws a [CastError]. *)
Definition get_contract (w : World) (uid : N) (contractId : option N)
  : World * Response :=
  match contractId with
  | None =>
      (w, retrieve_failed
            (new_Error "Cast to ObjectId failed for value at path _id for model ContractSignature"))
  | Some id =>
      match findById (db w) id uid with
      | None => (w, failure 404 "Contract not found" None)
      | Some contractSignature =>
          match save_access (db w) (now w) (touch (now w) contractSignature) with
          | Throw e => (w, retrieve_failed e)
          | Ok (db', saved) =>
              let w1 := set_db w db' in
              match (do analysis <- getDecryptedAnalysis saved;
                     do content <- getDecryptedContent saved;
                     match get_prop content "extractedText" with
                     | Some t => Ok (analysis, t)
                     | None => Throw (new_Error "Cannot read properties of null")
                     end) with
              | Ok (analysis, extracted) => (w1, contract_response saved analysis extracted)
              | Throw e => (w1, retrieve_failed e)
              end
          end
      end
  end.

End Routes.

(** ** Notions used in the statements *)

Section JsonRoundTripNotions.
Import JSON.

(** A text after which a number token stops. *)
Definition stops (rest : list ascii) : Prop :=
  match rest with
  | [] => True
  | c :: _ => is_numchar c = false
  end.

(** [parse_value] reads [print v] back, whatever follows it. *)
Definition reads_back (v : jsval) : Prop :=
  forall fuel rest, cost v <= fuel -> stops rest ->
    parse_value fuel (print v ++ rest) = Some (v, rest).

Definition costs (l : list jsval) : nat :=
  fold_right (fun x n => S (cost x + n)) 0 l.

Definition member_costs (l : list (string * jsval)) : nat :=
  fold_right (fun kv n => S (cost (snd kv) + n)) 0 l.

Definition member_text (kv : string * jsval) : list ascii :=
  quote (fst kv) ++ ":"%char :: print (snd kv).

(** The text goes on with the escape of a low surrogate. *)
Definition low_ahead (tail : list ascii) : bool :=
  match tail with
  | b :: u :: t =>
      (b =? "\")%char && (u =? "u")%char
      && match t with
         | l1 :: l2 :: l3 :: l4 :: _ =>
             match code_unit l1 l2 l3 l4 with
             | Some lo => is_low lo
             | None => false
             end
         | _ => false
         end
  | _ => false
  end.

(** Rows of the tables by which the escapes of the surrogates are checked. *)
Definition hex4_row (k : N) : bool :=
  let cu := (55296 + k)%N in
  match code_unit (Hex.digit (cu / 4096)) (Hex.digit (cu / 256 mod 16))
                  (Hex.digit (cu / 16 mod 16)) (Hex.digit (cu mod 16)) with
  | Some x => N.eqb x cu
  | None => false
  end.

Definition bytes_eqb (a b : list ascii) : bool :=
  if list_eq_dec ascii_dec a b then true else false.

Definition surrogate_row (k : N) : bool :=
  let b := (160 + k / 64)%N in
  let c := (128 + k mod 64)%N in
  match surrogate_unit (ascii_of_N 237) (ascii_of_N b) (ascii_of_N c) with
  | Some cu =>
      (is_high cu || is_low cu)
      && Bool.eqb (is_high cu) (b <? 176)%N
      && bytes_eqb (utf8 cu) [ascii_of_N 237; ascii_of_N b; ascii_of_N c]
  | None => false
  end.

(** The bytes go on with a low surrogate. *)
Definition starts_low (r : list ascii) : bool :=
  match r with
  | d1 :: d2 :: d3 :: _ =>
      match surrogate_unit d1 d2 d3 with
      | Some lo => is_low lo
      | None => false
      end
  | _ => false
  end.

End JsonRoundTripNotions.

Section JsonValuesNotions.
Import JSON.

(** Both conditions at once. *)
Definition json_value (v : jsval) : bool := well_formed v && is_json v.

Definition image_props (l : list (string * jsval)) : list (string * jsval) :=
  match json_image (VObj l) with
  | Some (VObj l') => l'
  | _ => []
  end.

End JsonValuesNotions.

Section SealingNotions.
Import JSON EncryptionService.

(** The key and iv handed out by the generator. *)
Definition key_bytes (g : Rng) : Buf.buffer := map (entropy g) (seq (drawn g) 32).
Definition iv_bytes (g : Rng) : Buf.buffer := map (entropy g) (seq (drawn g + 32) 16).

End SealingNotions.

Section StoreNotions.
Import JSON Model.

(** A record whose two payloads open, the content being an object. *)
Definition readable (d : ContractSignature) : bool :=
  match getDecryptedAnalysis d, getDecryptedContent d with
  | Ok _, Ok c =>
      match get_prop c "extractedText" with
      | Some _ => true
      | None => false
      end
  | _, _ => false
  end.

Definition store_readable (db : Collection) : bool := forallb readable db.

(** The lookup key of a record. *)
Definition matches (h : string) (u : N) (d : ContractSignature) : bool :=
  String.eqb (fileHash d) h && N.eqb (uploadedBy d) u && status_eqb (status d) active.

(** An administrator's soft delete: no route of the repository changes
    [status]; it is changed on the collection directly. *)
Definition set_status (st : Status) (d : ContractSignature) : ContractSignature :=
  mkContractSignature (doc_id d) (fileHash d) (fileName d) (fileSize d) (fileType d)
    (uploadedBy d) (encryptedContent d) (encryptedAnalysis d) (encryptionKey d)
    (iv d) (contentTag d) (analysisTag d) (analysisDate d) (analysisVersion d)
    (accessCount d) (lastAccessed d) st (createdAt d) (updatedAt d).

Definition retire (db : Collection) (id : N) (st : Status) : Collection :=
  map (fun d => if N.eqb (doc_id d) id then set_status st d else d) db.

(** The collection after the save of an in-memory copy [mem]. *)
Definition saved_access (db : Collection) (now : Z) (mem : ContractSignature)
  : Collection :=
  map (fun x => if N.eqb (doc_id x) (doc_id mem) then write_access now mem x else x) db.

End StoreNotions.

Section HandlersNotions.
Import JSON Model Multer Routes.

Local Open Scope string_scope.


End HandlersNotions.

(** *** Sample data *)

Section SamplesNotions.
Import JSON Model Multer Routes.
Local Open Scope string_scope.

Definition sample_entropy (i : nat) : Buf.byte := ascii_of_nat ((i * 37 + 11) mod 256).

Definition world0 : World :=
  mkWorld [] [] (mkRng sample_entropy 0) 1700000000000 1 0 0.

Definition alice : N := 1.
Definition bob : N := 2.

Definition lease : Upload :=
  mkUpload "lease.txt" "text/plain" (Buf.of_string "This lease is made between A and B.").

Definition sample_analysis : jsval :=
  VObj [("risk", VStr "low"); ("clauses", VArr [VNum 3; VNumLit "0.5"])].

(** An analyzer run that prints its result and exits with code 0. *)
Definition analyzer_ok : ProcResult :=
  mkProcResult (Some 0%Z)
    (string_of_list_ascii
       (print (VObj [("ok", VBool true); ("analysis", sample_analysis);
                     ("extracted_text", VStr "This lease")])))
    EmptyString.

(** An analyzer run that fails. *)
Definition analyzer_crash : ProcResult :=
  mkProcResult (Some 1%Z) EmptyString "Traceback: cannot open file".

Definition after_first_upload : World :=
  fst (post_analyze world0 alice (Some lease) analyzer_ok).

(** Two requests, the second received while the first waits for the
    analyzer: both look the collection up before either writes to it. *)
Definition interleaved (w : World) (uid1 uid2 : N) (u1 u2 : Upload)
           (proc1 proc2 : ProcResult) : World * Response * Response :=
  match receive w uid1 (Some u1) with
  | (w1, Throw e) => (w1, middleware_error e, middleware_error e)
  | (w1, Ok req1) =>
      let (w2, p1) := analyze_start w1 req1 proc1 in
      match receive w2 uid2 (Some u2) with
      | (w3, Throw e) => (w3, middleware_error e, middleware_error e)
      | (w3, Ok req2) =>
          let (w4, p2) := analyze_start w3 req2 proc2 in
          let (w5, r1) := analyze_finish w4 p1 in
          let (w6, r2) := analyze_finish w5 p2 in
          (w6, r1, r2)
      end
  end.

End SamplesNotions.

Section ClaimsOnSamplesNotions.
Import JSON Model Multer Routes.
Local Open Scope string_scope.

Definition lease_hash : string := EncryptionService.generateFileHash (up_bytes lease).

(** The request the upload middleware hands to the handler for [lease]. *)
Definition lease_file : MulterFile :=
  mkMulterFile "lease.txt" "text/plain" "lease.txt" "upload/lease.txt" 35 None.

Definition lease_request (uid : N) : Request := mkRequest uid (Some lease_file).

(** The collection after a first upload, the file of a second one stored. *)
Definition second_upload_stored : World :=
  fst (receive after_first_upload alice (Some lease)).


Definition after_archive : World :=
  set_db after_first_upload (retire (db after_first_upload) 1 archived).

(** The content payload of an upload, as the handler builds it. *)
Definition dated_payload : jsval := contract_data world0 lease_file (VStr "This lease").

Definition sample_key : string := fst (EncryptionService.generateKey (rng world0)).
Definition sample_iv : string :=
  fst (EncryptionService.generateIV (snd (EncryptionService.generateKey (rng world0)))).

(** The sealed analysis of the first record, and its tag with the last
    character changed. *)
Definition sealed_sample : EncryptionService.Sealed :=
  match EncryptionService.encrypt sample_analysis sample_key sample_iv with
  | Ok s => s
  | Throw _ => EncryptionService.mkSealed EmptyString EmptyString
  end.

(** [s] with its character at position [n] replaced by [c]. *)
Fixpoint set_char (n : nat) (c : ascii) (s : string) : string :=
  match s, n with
  | EmptyString, _ => EmptyString
  | String _ r, O => String c r
  | String x r, S n' => String x (set_char n' c r)
  end.

(** The analyzer started for a request never closes. *)
Definition analyzer_hangs : Conditions := mkConditions None None NeverCloses.

(** The first record of the sample collection. *)
Definition first_record : ContractSignature :=
  Eval vm_compute in
    match db after_first_upload with
    | d :: _ => d
    | [] => mkContractSignature 0 EmptyString EmptyString 0 EmptyString 0 EmptyString
              EmptyString EmptyString EmptyString EmptyString EmptyString 0 EmptyString
              0 0 deleted 0 0
    end.

End ClaimsOnSamplesNotions.

Section ShapeNotions.

(** A lower-case hexadecimal digit. *)
Definition lower_hex (c : ascii) : bool :=
  let n := N_of_ascii c in
  (((48 <=? n) && (n <=? 57)) || ((97 <=? n) && (n <=? 102)))%N.

End ShapeNotions.

Section StoreInvariantNotions.
Import JSON Model Routes.

Fixpoint ids_distinct (l : list N) : bool :=
  match l with
  | [] => true
  | x :: r => negb (existsb (N.eqb x) r) && ids_distinct r
  end.

(** What the handlers keep true of the collection: every record can be
    opened, no two records hold the same file hash or the same id, and
    every id is below the next one to be given out. *)
Definition consistent (w : World) : bool :=
  store_readable (db w)
  && keys_distinct (map fileHash (db w))
  && ids_distinct (map doc_id (db w))
  && forallb (fun d => (doc_id d <? next_id w)%N) (db w).

End StoreInvariantNotions.

Section FurtherSamples.
Import JSON Model Multer Routes.
Local Open Scope string_scope.

(** The text that [JSON.stringify] gives for a value that has one. *)
Definition text_of (v : jsval) : string :=
  match stringify v with
  | Some t => t
  | None => EmptyString
  end.

(** The signature made for the sample upload. *)
Definition sample_signature : ContractSignatureService.Signature :=
  Eval vm_compute in
    match fst (ContractSignatureService.createSignature dated_payload sample_analysis
                 alice (rng world0)) with
    | Ok s => s
    | Throw _ =>
        ContractSignatureService.mkSignature EmptyString EmptyString EmptyString
          EmptyString EmptyString EmptyString
    end.

(** The content payload of the sample upload, as it is read back. *)
Definition dated_payload_image : jsval :=
  VObj [ ("fileName", VStr "lease.txt"); ("fileSize", VNum 35);
         ("fileType", VStr "text/plain");
         ("uploadDate", VStr "2023-11-14T22:13:20.000Z");
         ("extractedText", VStr "This lease") ].

(** An upload of 16 MiB. *)
Definition big_upload : Upload :=
  mkUpload "scan.pdf" "application/pdf" (repeat zero (2 ^ 24)).

(** Another text under the name of [lease]. *)
Definition other_lease : Upload :=
  mkUpload "lease.txt" "text/plain" (Buf.of_string "Another text").

Definition other_lease_file : MulterFile :=
  mkMulterFile "lease.txt" "text/plain" "lease.txt" "upload/lease.txt" 12 None.

(** A second contract. *)
Definition deed : Upload :=
  mkUpload "deed.txt" "text/plain" (Buf.of_string "This deed is made by C.").

End FurtherSamples.

Section CorruptedSample.
Import JSON Model Multer Routes.
Local Open Scope string_scope.

(** The first record with the tag of its analysis replaced by the tag of
    its content: its analysis can no longer be opened. *)
Definition damaged_record : ContractSignature :=
  mkContractSignature (doc_id first_record) (fileHash first_record)
    (fileName first_record) (fileSize first_record) (fileType first_record)
    (uploadedBy first_record) (encryptedContent first_record)
    (encryptedAnalysis first_record) (encryptionKey first_record) (iv first_record)
    (contentTag first_record) (contentTag first_record) (analysisDate first_record)
    (analysisVersion first_record) (accessCount first_record)
    (lastAccessed first_record) (status first_record) (createdAt first_record)
    (updatedAt first_record).

Definition damaged_store : World :=
  fst (receive (set_db after_first_upload [damaged_record]) alice (Some lease)).

End CorruptedSample.

(* ================================================================== *)
(** * Part II: properties                                              *)
(* ================================================================== *)

(** ** Checks of the primitives against published test vectors *)

Example sha256_abc :
  Hex.encode (SHA256.digest (Buf.of_string "abc"))
  = "ba7816bf8f01cfea414140de5dae2223b00361a396177a9cb410ff61f20015ad"%string.
Proof. vm_compute. reflexivity. Qed.

Example sha256_two_blocks :
  Hex.encode (SHA256.digest (repeat "a"%char 100))
  = "2816597888e4a0d3a36b82b83316ab32680eb8f00f8cd3b904d681246d285a0e"%string.
Proof. vm_compute. reflexivity. Qed.

Example aes256_fips197 :
  AES256.encrypt_block
    (Hex.decode "000102030405060708090a0b0c0d0e0f101112131415161718191a1b1c1d1e1f")
    0x00112233445566778899aabbccddeeff
  = 0x8ea2b7ca516745bfeafc49904b496089%N.
Proof. vm_compute. reflexivity. Qed.

Example gcm_aes256_empty :
  GCM.encrypt (Buf.zeros 32) (Buf.zeros 12) [] []
  = ([], Hex.decode "530f8afbc74536b9a963b4f1c4cb738b").
Proof. vm_compute. reflexivity. Qed.

Example gcm_aes256_one_block :
  GCM.encrypt (Buf.zeros 32) (Buf.zeros 12) [] (Buf.zeros 16)
  = (Hex.decode "cea7403d4d606b6e074ec5d3baf39d18",
     Hex.decode "d0d1c8a799996bf0265b98b5d48ab919").
Proof. vm_compute. reflexivity. Qed.

Example gcm_aes256_aad_and_long_iv :
  snd (GCM.encrypt
    (Hex.decode "feffe9928665731c6d6a8f9467308308feffe9928665731c6d6a8f9467308308")
    (Hex.decode "9313225df88406e555909c5aff5269aa6a7a9538534f7da1e4c303d2a318a728c3c0c95156809539fcf0e2429a6b525416aedbf5a0de6a57a637b39b")
    (Hex.decode "feedfacedeadbeeffeedfacedeadbeefabaddad2")
    (Hex.decode "d9313225f88406e5a55909c5aff5269a86a7a9531534f7da2e4c303d8a318a721c3c0c95956809532fcf0e2449a6b525b16aedf5aa0de657ba637b39"))
  = Hex.decode "a44a8266ee1c8eb0c8b5d4cf5ae9f19a".
Proof. vm_compute. reflexivity. Qed.

Example base64_sample :
  Base64.encode (Buf.of_string "any carnal pleas") = "YW55IGNhcm5hbCBwbGVhcw=="%string
  /\ Base64.decode "YW55IGNhcm5hbCBwbGVhcw==" = Buf.of_string "any carnal pleas".
Proof. vm_compute. split; reflexivity. Qed.

Example toISOString_samples :
  JSON.toISOString 0 = "1970-01-01T00:00:00.000Z"%string
  /\ JSON.toISOString 1700000000123 = "2023-11-14T22:13:20.123Z"%string
  /\ JSON.toISOString (-1) = "1969-12-31T23:59:59.999Z"%string.
Proof. vm_compute. repeat split; reflexivity. Qed.

(** ** Buffers and encodings *)

Lemma forall_below (P : N -> bool) (k : nat) :
  forallb (fun i => P (N.of_nat i)) (seq 0 k) = true ->
  forall n, (n < N.of_nat k)%N -> P n = true.
Proof.
  intros H n Hn.
  rewrite forallb_forall in H.
  rewrite <- (N2Nat.id n).
  apply H, in_seq. lia.
Qed.

Lemma N_of_byte_bound (b : Buf.byte) : (Buf.N_of_byte b < 256)%N.
Proof. apply N_ascii_bounded. Qed.

Lemma byte_of_N_of_byte (b : Buf.byte) : Buf.byte_of_N (Buf.N_of_byte b) = b.
Proof.
  unfold Buf.byte_of_N, Buf.N_of_byte.
  rewrite N.mod_small by apply N_ascii_bounded.
  apply ascii_N_embedding.
Qed.

Lemma xor_byte_involutive (a b : Buf.byte) : Buf.xor_byte (Buf.xor_byte a b) b = a.
Proof.
  destruct a, b; simpl.
  repeat match goal with |- context [xorb (xorb ?x ?y) ?y] =>
    replace (xorb (xorb x y) y) with x by (destruct x, y; reflexivity) end.
  reflexivity.
Qed.

Lemma length_of_N (len : nat) (n : N) : length (Buf.of_N len n) = len.
Proof. unfold Buf.of_N. now rewrite length_map, length_seq. Qed.

Lemma hex_decode_encode_byte (b : Buf.byte) (r : list ascii) :
  Hex.decode_list (Hex.encode_byte b ++ r) = b :: Hex.decode_list r.
Proof.
  destruct b as [[] [] [] [] [] [] [] []]; reflexivity.
Qed.

Lemma hex_decode_encode_list (b : Buf.buffer) :
  Hex.decode_list (Hex.encode_list b) = b.
Proof.
  induction b as [|x b IH]; [reflexivity|].
  change (Hex.encode_list (x :: b)) with (Hex.encode_byte x ++ Hex.encode_list b).
  now rewrite hex_decode_encode_byte, IH.
Qed.

Lemma flat_map_length_const {A B : Type} (f : A -> list B) (n : nat) (l : list A) :
  (forall x, length (f x) = n) -> length (flat_map f l) = length l * n.
Proof.
  intros H. induction l as [|x l IH]; [reflexivity|].
  cbn [flat_map length]. rewrite length_app, H, IH. lia.
Qed.

Lemma string_length_of_list (l : list ascii) :
  String.length (string_of_list_ascii l) = length l.
Proof. induction l as [|c l IH]; [reflexivity|]. cbn. now rewrite IH. Qed.

Lemma length_list_of_string (s : string) :
  length (list_ascii_of_string s) = String.length s.
Proof. induction s as [|c s IH]; [reflexivity|]. cbn. now rewrite IH. Qed.

Lemma hex_encode_length (b : Buf.buffer) : String.length (Hex.encode b) = 2 * length b.
Proof.
  unfold Hex.encode, Hex.encode_list. rewrite string_length_of_list.
  rewrite (flat_map_length_const Hex.encode_byte 2) by reflexivity. lia.
Qed.

Lemma hex_encode_even (b : Buf.buffer) : Nat.odd (String.length (Hex.encode b)) = false.
Proof.
  rewrite hex_encode_length, <- Nat.negb_even, Nat.even_mul. reflexivity.
Qed.

Lemma hex_decode_encode (b : Buf.buffer) : Hex.decode (Hex.encode b) = b.
Proof.
  unfold Hex.decode, Hex.encode.
  now rewrite list_ascii_of_string_of_list_ascii, hex_decode_encode_list.
Qed.

Lemma base64_unchar_char (n : N) :
  (n < 64)%N -> Base64.unchar (Base64.char n) = Some n.
Proof.
  intros Hn.
  assert (H : (match Base64.unchar (Base64.char n) with
               | Some m => N.eqb m n
               | None => false
               end) = true).
  { revert n Hn. apply (forall_below (fun n => match Base64.unchar (Base64.char n) with
               | Some m => N.eqb m n
               | None => false
               end) 64). vm_compute. reflexivity. }
  destruct (Base64.unchar (Base64.char n)); [|discriminate].
  apply N.eqb_eq in H. now subst.
Qed.

Lemma base64_sextets_char (n : N) (r : list ascii) :
  (n < 64)%N -> Base64.sextets (Base64.char n :: r) = n :: Base64.sextets r.
Proof.
  intros Hn. simpl.
  assert (H : negb (Base64.char n =? "=")%char = true).
  { revert n Hn. apply (forall_below (fun n => negb (Base64.char n =? "=")%char) 64).
    vm_compute. reflexivity. }
  apply negb_true_iff in H. rewrite H.
  now rewrite base64_unchar_char.
Qed.

Lemma base64_group (x y z : N) :
  (x < 256)%N -> (y < 256)%N -> (z < 256)%N ->
  (x / 4 < 64 /\ x mod 4 * 16 + y / 16 < 64 /\ y mod 16 * 4 + z / 64 < 64
   /\ z mod 64 < 64 /\ x mod 4 * 16 < 64 /\ y mod 16 * 4 < 64
   /\ x / 4 * 4 + (x mod 4 * 16 + y / 16) / 16 = x
   /\ (x mod 4 * 16 + y / 16) mod 16 * 16 + (y mod 16 * 4 + z / 64) / 4 = y
   /\ (y mod 16 * 4 + z / 64) mod 4 * 64 + z mod 64 = z
   /\ x / 4 * 4 + (x mod 4 * 16) / 16 = x
   /\ (x mod 4 * 16 + y / 16) mod 16 * 16 + (y mod 16 * 4) / 4 = y)%N.
Proof.
  intros. repeat split; zify; Z.to_euclidean_division_equations; lia.
Qed.

Lemma base64_decode_encode_list (b : Buf.buffer) :
  Base64.bytes_of_sextets (Base64.sextets (Base64.encode_list b)) = b.
Proof.
  remember (length b) as n eqn:Hn.
  revert b Hn. induction n as [n IH] using lt_wf_ind. intros b Hn.
  destruct b as [|x [|y [|z r]]].
  - reflexivity.
  - pose proof (N_of_byte_bound x) as Hx.
    destruct (base64_group _ _ _ Hx Hx Hx) as (A & _ & _ & _ & B & _ & _ & _ & _ & C & _).
    cbn [Base64.encode_list].
    rewrite !base64_sextets_char by assumption.
    cbn [Base64.sextets Base64.bytes_of_sextets Ascii.eqb Bool.eqb].
    now rewrite C, byte_of_N_of_byte.
  - pose proof (N_of_byte_bound x) as Hx. pose proof (N_of_byte_bound y) as Hy.
    destruct (base64_group _ _ _ Hx Hy Hy) as (A & B & _ & _ & _ & C & D & _ & _ & _ & E).
    cbn [Base64.encode_list].
    rewrite !base64_sextets_char by assumption.
    cbn [Base64.sextets Base64.bytes_of_sextets Ascii.eqb Bool.eqb].
    now rewrite D, E, !byte_of_N_of_byte.
  - pose proof (N_of_byte_bound x) as Hx. pose proof (N_of_byte_bound y) as Hy.
    pose proof (N_of_byte_bound z) as Hz.
    destruct (base64_group _ _ _ Hx Hy Hz) as (A & B & C & D & _ & _ & E & F & G & _).
    cbn [Base64.encode_list].
    rewrite !base64_sextets_char by assumption.
    cbn [Base64.bytes_of_sextets].
    rewrite E, F, G, !byte_of_N_of_byte.
    do 3 f_equal. apply (IH (length r)); [subst n; simpl; lia | reflexivity].
Qed.

Lemma base64_decode_encode (b : Buf.buffer) : Base64.decode (Base64.encode b) = b.
Proof.
  unfold Base64.decode, Base64.encode.
  now rewrite list_ascii_of_string_of_list_ascii, base64_decode_encode_list.
Qed.


(** ** The AEAD construction *)

Lemma xor_bytes_length (p ks : Buf.buffer) :
  length p <= length ks -> length (GCM.xor_bytes p ks) = length p.
Proof.
  intros H. unfold GCM.xor_bytes. rewrite length_map, length_combine. lia.
Qed.

Lemma xor_bytes_involutive (p ks : Buf.buffer) :
  length p <= length ks -> GCM.xor_bytes (GCM.xor_bytes p ks) ks = p.
Proof.
  revert ks. induction p as [|x p IH]; intros ks H; [reflexivity|].
  destruct ks as [|k ks]; [simpl in H; lia|].
  simpl in H. unfold GCM.xor_bytes in *. simpl.
  rewrite xor_byte_involutive. f_equal. apply IH. lia.
Qed.

Lemma keystream_length (key : Buf.buffer) (icb : N) (len : nat) :
  len <= length (GCM.keystream key icb len).
Proof.
  unfold GCM.keystream.
  assert (H : forall l : list nat,
             length (flat_map (fun i => Buf.of_N 16 (AES256.encrypt_block key (GCM.inc32_n i icb))) l)
             = 16 * length l).
  { induction l as [|i l IHl]; [reflexivity|].
    cbn [flat_map]. rewrite length_app, length_of_N, IHl. cbn [length]. lia. }
  rewrite H, length_seq.
  pose proof (Nat.div_mod_eq (len + 15) 16) as E.
  pose proof (Nat.mod_upper_bound (len + 15) 16). lia.
Qed.

Lemma gctr_involutive (key : Buf.buffer) (icb : N) (x : Buf.buffer) :
  GCM.gctr key icb (GCM.gctr key icb x) = x.
Proof.
  unfold GCM.gctr.
  rewrite xor_bytes_length by apply keystream_length.
  apply xor_bytes_involutive, keystream_length.
Qed.

Lemma gcm_tag_length (key iv aad c : Buf.buffer) : length (GCM.tag key iv aad c) = 16.
Proof. apply length_of_N. Qed.

Lemma gcm_decrypt_encrypt (key iv aad p : Buf.buffer) :
  GCM.decrypt key iv aad (fst (GCM.encrypt key iv aad p)) (snd (GCM.encrypt key iv aad p))
  = Some p.
Proof.
  unfold GCM.decrypt, GCM.encrypt. cbn [fst snd].
  rewrite gcm_tag_length.
  rewrite firstn_all2 by (rewrite gcm_tag_length; lia).
  destruct (list_eq_dec ascii_dec _ _) as [_|N]; [|now elim N].
  now rewrite gctr_involutive.
Qed.

(** The deciphered text comes out only with a tag that is a leading part of
    the tag computed from the key, the iv and the ciphertext received. *)
Lemma gcm_decrypt_checks_tag (key iv aad c t p : Buf.buffer) :
  GCM.decrypt key iv aad c t = Some p ->
  t = firstn (length t) (GCM.tag key iv aad c).
Proof.
  unfold GCM.decrypt.
  destruct (list_eq_dec ascii_dec _ _) as [E|]; [intros _; exact E | discriminate].
Qed.

(** ** JSON: reading back what was written *)

Section JsonRoundTrip.
Import JSON.

Lemma jsval_nested_ind (P : jsval -> Prop) :
  P VUndefined -> P VNull -> (forall b, P (VBool b)) -> (forall z, P (VNum z)) ->
  (forall raw, P (VNumLit raw)) -> (forall s, P (VStr s)) -> (forall ms, P (VDate ms)) ->
  (forall l, Forall P l -> P (VArr l)) ->
  (forall l, Forall (fun kv => P (snd kv)) l -> P (VObj l)) ->
  forall v, P v.
Proof.
  intros Hu Hn Hb Hz Hl Hs Hd Ha Ho.
  fix IH 1. intros [ | | b | z | raw | s | ms | l | l];
    [exact Hu | exact Hn | apply Hb | apply Hz | apply Hl | apply Hs | apply Hd | | ].
  - apply Ha. revert l. fix IHl 1. intros [|x l]; constructor; [apply IH | apply IHl].
  - apply Ho. revert l. fix IHl 1. intros [|[k x] l]; constructor; [apply IH | apply IHl].
Qed.

Lemma skip_ws_cons (c : ascii) (r : list ascii) :
  is_ws c = false -> skip_ws (c :: r) = c :: r.
Proof. intros H. simpl. now rewrite H. Qed.

Lemma span_app (p : ascii -> bool) (tok rest : list ascii) :
  forallb p tok = true ->
  match rest with [] => True | c :: _ => p c = false end ->
  span p (tok ++ rest) = (tok, rest).
Proof.
  intros Ht Hr. induction tok as [|c tok IH].
  - destruct rest as [|c r]; [reflexivity|]. simpl. now rewrite Hr.
  - simpl in Ht. apply andb_true_iff in Ht as [Hc Ht].
    simpl. rewrite Hc, (IH Ht). reflexivity.
Qed.

(** *** Strings *)

Lemma parse_string_escape (c : ascii) (tail : list ascii) :
  parse_string (escape_char c ++ tail)
  = match parse_string tail with
    | Some (t, rest) => Some (c :: t, rest)
    | None => None
    end.
Proof. destruct c as [[] [] [] [] [] [] [] []]; reflexivity. Qed.

Lemma parse_string_unit (h1 h2 h3 h4 : ascii) (cu : N) (tail : list ascii) :
  code_unit h1 h2 h3 h4 = Some cu ->
  is_high cu && low_ahead tail = false ->
  parse_string ("\"%char :: "u"%char :: h1 :: h2 :: h3 :: h4 :: tail)
  = match parse_string tail with
    | Some (t, rest) => Some (utf8 cu ++ t, rest)
    | None => None
    end.
Proof.
  intros Hc Hl.
  cbn -[code_unit utf8 is_high is_low pair_point]. rewrite Hc.
  destruct (is_high cu); [|reflexivity]. cbn [andb] in Hl.
  destruct tail as [|b [|u [|l1 [|l2 [|l3 [|l4 r3]]]]]]; try reflexivity.
  cbn [low_ahead] in Hl. destruct ((b =? "\")%char && (u =? "u")%char); [|reflexivity].
  cbn [andb] in Hl. destruct (code_unit l1 l2 l3 l4) as [lo|]; [|reflexivity].
  now rewrite Hl.
Qed.

Lemma code_unit_hex4 (cu : N) :
  is_high cu || is_low cu = true ->
  code_unit (Hex.digit (cu / 4096)) (Hex.digit (cu / 256 mod 16))
            (Hex.digit (cu / 16 mod 16)) (Hex.digit (cu mod 16)) = Some cu.
Proof.
  intros H.
  assert (B : (55296 <= cu < 57344)%N).
  { unfold is_high, is_low in H. apply orb_true_iff in H as [H|H];
      apply andb_true_iff in H as [H1 H2]; apply N.leb_le in H1, H2; lia. }
  assert (K : hex4_row (cu - 55296) = true).
  { apply (forall_below hex4_row 2048); [vm_compute; reflexivity | lia]. }
  unfold hex4_row in K. replace (55296 + (cu - 55296))%N with cu in K by lia.
  cbv zeta in K.
  destruct (code_unit _ _ _ _) as [x|]; [|discriminate K].
  apply N.eqb_eq in K. now subst.
Qed.

Lemma surrogate_unit_spec (c1 c2 c3 : ascii) (cu : N) :
  surrogate_unit c1 c2 c3 = Some cu ->
  is_high cu || is_low cu = true /\ utf8 cu = [c1; c2; c3]
  /\ (128 <= N_of_ascii c1)%N /\ (128 <= N_of_ascii c2)%N /\ (128 <= N_of_ascii c3)%N.
Proof.
  intros H.
  assert (B : (N_of_ascii c1 = 237 /\ 160 <= N_of_ascii c2 <= 191
               /\ 128 <= N_of_ascii c3 <= 191)%N).
  { unfold surrogate_unit in H.
    destruct (N.eqb_spec (N_of_ascii c1) 237); [|discriminate H].
    destruct (N.leb_spec 160 (N_of_ascii c2)); [|discriminate H].
    destruct (N.leb_spec (N_of_ascii c2) 191); [|discriminate H].
    destruct (N.leb_spec 128 (N_of_ascii c3)); [|discriminate H].
    destruct (N.leb_spec (N_of_ascii c3) 191); [|discriminate H].
    lia. }
  destruct B as (B1 & B2 & B3).
  set (k := ((N_of_ascii c2 - 160) * 64 + (N_of_ascii c3 - 128))%N).
  assert (R : surrogate_row k = true).
  { apply (forall_below surrogate_row 2048); [vm_compute; reflexivity | unfold k; lia]. }
  unfold surrogate_row in R.
  replace (k / 64)%N with (N_of_ascii c2 - 160)%N in R
    by (apply (N.div_unique _ 64 _ (N_of_ascii c3 - 128)); unfold k; lia).
  replace (k mod 64)%N with (N_of_ascii c3 - 128)%N in R
    by (apply (N.mod_unique _ 64 (N_of_ascii c2 - 160)); unfold k; lia).
  cbv zeta in R.
  replace (160 + (N_of_ascii c2 - 160))%N with (N_of_ascii c2) in R by lia.
  replace (128 + (N_of_ascii c3 - 128))%N with (N_of_ascii c3) in R by lia.
  rewrite <- B1, !ascii_N_embedding, H in R.
  apply andb_true_iff in R as [R R3]. apply andb_true_iff in R as [R1 R2].
  unfold bytes_eqb in R3.
  destruct (list_eq_dec ascii_dec (utf8 cu) [c1; c2; c3]) as [E|]; [|discriminate R3].
  repeat split; try assumption; lia.
Qed.

Lemma escape_char_raw (c : ascii) : (128 <= N_of_ascii c)%N -> escape_char c = [c].
Proof.
  destruct c as [[] [] [] [] [] [] [] []]; intros H; try reflexivity;
    exfalso; apply H; reflexivity.
Qed.

Lemma parse_string_raw (c : ascii) (x : list ascii) :
  (128 <= N_of_ascii c)%N ->
  parse_string (c :: x)
  = match parse_string x with
    | Some (t, rest) => Some (c :: t, rest)
    | None => None
    end.
Proof.
  intros H. rewrite <- parse_string_escape, (escape_char_raw c H). reflexivity.
Qed.

Lemma low_ahead_escape_char (c : ascii) (x : list ascii) :
  low_ahead (escape_char c ++ x) = false.
Proof. destruct c as [[] [] [] [] [] [] [] []]; destruct x; reflexivity. Qed.

Lemma low_ahead_raw (c : ascii) (x : list ascii) :
  (128 <= N_of_ascii c)%N -> low_ahead (c :: x) = false.
Proof. intros H. rewrite <- (low_ahead_escape_char c x), (escape_char_raw c H). reflexivity. Qed.

Lemma escape_eq (s : list ascii) :
  escape s
  = match s with
    | [] => []
    | c1 :: t =>
        match t with
        | c2 :: c3 :: r =>
            match surrogate_unit c1 c2 c3 with
            | Some cu =>
                if is_high cu then
                  match r with
                  | d1 :: d2 :: d3 :: r' =>
                      match surrogate_unit d1 d2 d3 with
                      | Some lo =>
                          if is_low lo
                          then c1 :: c2 :: c3 :: d1 :: d2 :: d3 :: escape r'
                          else unit_escape cu ++ escape r
                      | None => unit_escape cu ++ escape r
                      end
                  | _ => unit_escape cu ++ escape r
                  end
                else unit_escape cu ++ escape r
            | None => escape_char c1 ++ escape t
            end
        | _ => escape_char c1 ++ escape t
        end
    end.
Proof. destruct s; reflexivity. Qed.

Lemma low_ahead_unit (cu : N) (x : list ascii) :
  is_high cu = true -> low_ahead (unit_escape cu ++ x) = false.
Proof.
  intros H. unfold unit_escape. cbn [hex4 app low_ahead].
  rewrite code_unit_hex4 by now rewrite H.
  change (("\" =? "\")%char && ("u" =? "u")%char) with true. cbn [andb].
  unfold is_high, is_low in *. apply andb_true_iff in H as [H1 H2].
  apply N.leb_le in H1, H2. apply andb_false_iff. left. apply N.leb_gt. lia.
Qed.

Lemma low_ahead_escape (r rest : list ascii) :
  starts_low r = false -> low_ahead (escape r ++ "034"%char :: rest) = false.
Proof.
  intros H. rewrite escape_eq. destruct r as [|c1 t].
  - destruct rest; reflexivity.
  - destruct t as [|c2 [|c3 r]];
      try (rewrite <- app_assoc; apply low_ahead_escape_char).
    cbn [starts_low] in H.
    destruct (surrogate_unit c1 c2 c3) as [cu|] eqn:Hu;
      [|rewrite <- app_assoc; apply low_ahead_escape_char].
    destruct (surrogate_unit_spec _ _ _ _ Hu) as (Hs & _ & B1 & _).
    rewrite H in Hs. rewrite orb_false_r in Hs. rewrite Hs.
    assert (U : forall x, low_ahead ((unit_escape cu ++ x) ++ "034"%char :: rest) = false).
    { intros x. rewrite <- app_assoc. now apply low_ahead_unit. }
    destruct r as [|d1 [|d2 [|d3 r']]]; try apply U.
    destruct (surrogate_unit d1 d2 d3) as [lo|]; [|apply U].
    destruct (is_low lo); [|apply U].
    cbn [app]. now apply low_ahead_raw.
Qed.

Lemma parse_string_escaped (s rest : list ascii) :
  parse_string (escape s ++ "034"%char :: rest) = Some (s, rest).
Proof.
  remember (length s) as n eqn:Hn. assert (Hle : length s <= n) by lia. clear Hn.
  revert s rest Hle. induction n as [|n IH]; intros s rest Hle.
  - destruct s; [reflexivity | cbn [length] in Hle; lia].
  - destruct s as [|c1 t]; [reflexivity|]. cbn [length] in Hle.
    assert (Plain : parse_string ((escape_char c1 ++ escape t) ++ "034"%char :: rest)
                    = Some (c1 :: t, rest)).
    { rewrite <- app_assoc, parse_string_escape, IH by lia. reflexivity. }
    rewrite escape_eq.
    destruct t as [|c2 [|c3 r]]; try exact Plain.
    destruct (surrogate_unit c1 c2 c3) as [cu|] eqn:Hu; [|exact Plain].
    destruct (surrogate_unit_spec _ _ _ _ Hu) as (Hs & Hutf & B1 & B2 & B3).
    cbn [length] in Hle.
    assert (Single : starts_low r = false \/ is_high cu = false ->
                     parse_string ((unit_escape cu ++ escape r) ++ "034"%char :: rest)
                     = Some (c1 :: c2 :: c3 :: r, rest)).
    { intros Hcase. rewrite <- app_assoc. unfold unit_escape. cbn [hex4 app].
      rewrite (parse_string_unit _ _ _ _ cu).
      - rewrite IH by lia. now rewrite Hutf.
      - apply code_unit_hex4. exact Hs.
      - destruct Hcase as [Hl|Hh].
        + rewrite (low_ahead_escape _ _ Hl). apply andb_false_r.
        + now rewrite Hh. }
    destruct (is_high cu) eqn:Hh; [|apply Single; now right].
    destruct r as [|d1 [|d2 [|d3 r']]]; try (apply Single; left; reflexivity).
    destruct (surrogate_unit d1 d2 d3) as [lo|] eqn:Hv;
      [|apply Single; left; cbn [starts_low]; now rewrite Hv].
    destruct (is_low lo) eqn:Hlo;
      [|apply Single; left; cbn [starts_low]; now rewrite Hv].
    destruct (surrogate_unit_spec _ _ _ _ Hv) as (_ & _ & D1 & D2 & D3).
    cbn [app length] in *. rewrite !parse_string_raw by assumption.
    rewrite IH by lia. reflexivity.
Qed.

Lemma quote_app (s : string) (t : list ascii) :
  quote s ++ t
  = "034"%char :: escape (list_ascii_of_string s) ++ "034"%char :: t.
Proof. unfold quote. cbn [app]. now rewrite <- app_assoc. Qed.

(** *** Numbers *)

Lemma uint_chars_digits (d : Decimal.uint) : forallb is_digit (uint_chars d) = true.
Proof. induction d; cbn [uint_chars forallb]; try rewrite IHd; reflexivity. Qed.

Lemma read_uint_chars (d : Decimal.uint) : read_uint (uint_chars d) = (d, []).
Proof.
  induction d; [reflexivity | ..];
    cbn [uint_chars read_uint]; rewrite IHd; reflexivity.
Qed.

Lemma is_digit_numchar (c : ascii) : is_digit c = true -> is_numchar c = true.
Proof. intros H. unfold is_numchar. now rewrite H. Qed.

Lemma digit_not_minus (c : ascii) : is_digit c = true -> (c =? "-")%char = false.
Proof.
  destruct c as [[] [] [] [] [] [] [] []]; intros H; try reflexivity; discriminate H.
Qed.

Lemma to_uint_normal (n : N) : Decimal.unorm (N.to_uint n) = N.to_uint n.
Proof.
  rewrite <- (DecimalN.Unsigned.of_to n) at 2.
  now rewrite DecimalN.Unsigned.to_of.
Qed.

Lemma to_uint_nonnil (n : N) : N.to_uint n <> Decimal.Nil.
Proof. rewrite <- to_uint_normal. apply DecimalFacts.unorm_nonnil. Qed.

Lemma uint_beq_refl (d : Decimal.uint) : uint_beq d d = true.
Proof. unfold uint_beq. destruct (Decimal.uint_eq_dec d d); congruence. Qed.

Lemma number_chars_numchars (z : Z) : forallb is_numchar (number_chars z) = true.
Proof.
  unfold number_chars. rewrite forallb_app. apply andb_true_iff. split.
  - destruct (z <? 0)%Z; reflexivity.
  - generalize (uint_chars_digits (N.to_uint (Z.abs_N z))).
    generalize (uint_chars (N.to_uint (Z.abs_N z))).
    induction l as [|c l IH]; [reflexivity|].
    cbn [forallb]. intros H. apply andb_true_iff in H as [Hc Hl].
    now rewrite (is_digit_numchar _ Hc), IH.
Qed.

Lemma classify_uint (d : Decimal.uint) (neg : bool) :
  Decimal.unorm d = d ->
  classify_number ((if neg then ["-"%char] else []) ++ uint_chars d)
  = Some (VNum (if neg then (- Z.of_N (N.of_uint d))%Z else Z.of_N (N.of_uint d))).
Proof.
  intros Hd. unfold classify_number.
  assert (Hne : d <> Decimal.Nil).
  { rewrite <- Hd. apply DecimalFacts.unorm_nonnil. }
  destruct neg.
  - cbn [app]. change ("-" =? "-")%char with true. cbv iota.
    rewrite read_uint_chars, Hd, uint_beq_refl. reflexivity.
  - cbn [app].
    pose proof (uint_chars_digits d) as Hdig.
    destruct (uint_chars d) as [|c r] eqn:E.
    + destruct d; discriminate E || congruence.
    + cbn [forallb] in Hdig. apply andb_true_iff in Hdig as [Hc _].
      rewrite (digit_not_minus _ Hc). rewrite <- E.
      rewrite read_uint_chars, Hd, uint_beq_refl. reflexivity.
Qed.

Lemma classify_number_chars (z : Z) : classify_number (number_chars z) = Some (VNum z).
Proof.
  unfold number_chars.
  rewrite (classify_uint _ _ (to_uint_normal (Z.abs_N z))).
  rewrite DecimalN.Unsigned.of_to. f_equal. f_equal.
  destruct (Z.ltb_spec z 0); rewrite N2Z.inj_abs_N; lia.
Qed.

(** The first character of a number token. *)
Lemma classify_head (tok : list ascii) (v : jsval) :
  classify_number tok = Some v ->
  exists c r, tok = c :: r /\ (is_digit c || (c =? "-")%char) = true.
Proof.
  unfold classify_number. destruct tok as [|c r].
  - cbn. discriminate.
  - intros H. exists c, r. split; [reflexivity|].
    destruct (c =? "-")%char eqn:Em; [apply orb_true_r|].
    rewrite orb_false_r.
    cbn [read_uint] in H. destruct (is_digit c); [reflexivity|].
    cbn in H. discriminate H.
Qed.

Lemma number_head_plain (c : ascii) :
  (is_digit c || (c =? "-")%char) = true ->
  is_ws c = false /\ (c =? "]")%char = false.
Proof.
  destruct c as [[] [] [] [] [] [] [] []]; intros H; try (split; reflexivity);
    discriminate H.
Qed.

Lemma parse_value_number (f : nat) (c : ascii) (r : list ascii) :
  (is_digit c || (c =? "-")%char) = true ->
  parse_value (S f) (c :: r)
  = (let (tok, rest) := span is_numchar (c :: r) in
     match classify_number tok with
     | Some v => Some (v, rest)
     | None => None
     end).
Proof.
  destruct c as [[] [] [] [] [] [] [] []]; intros H; try discriminate H; reflexivity.
Qed.

Lemma parse_number_token (f : nat) (tok rest : list ascii) (v : jsval) :
  forallb is_numchar tok = true -> classify_number tok = Some v -> stops rest ->
  parse_value (S f) (tok ++ rest) = Some (v, rest).
Proof.
  intros Hall Hc Hr.
  destruct (classify_head _ _ Hc) as (c & r & -> & Hhead).
  cbn [app]. rewrite (parse_value_number f c (r ++ rest) Hhead).
  change (c :: r ++ rest) with ((c :: r) ++ rest).
  rewrite (span_app is_numchar (c :: r) rest Hall Hr).
  now rewrite Hc.
Qed.

(** *** Objects *)

Lemma obj_set_fresh (l : list (string * jsval)) (k : string) (v : jsval) :
  existsb (String.eqb k) (map fst l) = false -> obj_set l k v = l ++ [(k, v)].
Proof.
  induction l as [|[k' v'] l IH]; [reflexivity|].
  cbn [map fst existsb obj_set]. intros H.
  apply orb_false_iff in H as [H1 H2].
  rewrite String.eqb_sym, H1. cbn [app]. now rewrite IH.
Qed.

Lemma keys_distinct_app_cons (acc : list string) (k : string) (ks : list string) :
  keys_distinct (acc ++ k :: ks) = true ->
  existsb (String.eqb k) acc = false /\ keys_distinct ((acc ++ [k]) ++ ks) = true.
Proof.
  intros H. rewrite <- app_assoc. split; [|exact H].
  induction acc as [|a acc IH]; [reflexivity|].
  cbn [app keys_distinct] in H. apply andb_true_iff in H as [H1 H2].
  cbn [existsb]. rewrite (IH H2), orb_false_r.
  apply negb_true_iff in H1. rewrite existsb_app in H1.
  apply orb_false_iff in H1 as [_ H1]. cbn [existsb] in H1.
  apply orb_false_iff in H1 as [H1 _]. now rewrite String.eqb_sym.
Qed.

Lemma fold_obj_set (l acc : list (string * jsval)) :
  keys_distinct (map fst (acc ++ l)) = true ->
  fold_left (fun a kv => obj_set a (fst kv) (snd kv)) l acc = acc ++ l.
Proof.
  revert acc. induction l as [|[k v] l IH]; intros acc H.
  - now rewrite app_nil_r.
  - cbn [fold_left fst snd].
    rewrite map_app in H. cbn [map fst] in H.
    apply keys_distinct_app_cons in H as [Hk Hd].
    rewrite obj_set_fresh by exact Hk.
    rewrite IH.
    + now rewrite <- app_assoc.
    + rewrite !map_app. cbn [map fst]. exact Hd.
Qed.

Lemma obj_of_distinct (l : list (string * jsval)) :
  keys_distinct (map fst l) = true -> obj_of l = l.
Proof. intros H. unfold obj_of. now rewrite fold_obj_set. Qed.

(** *** Values *)

Lemma member_text_app (k : string) (x : jsval) (t : list ascii) :
  member_text (k, x) ++ t
  = "034"%char :: escape (list_ascii_of_string k)
      ++ "034"%char :: ":"%char :: print x ++ t.
Proof.
  unfold member_text. cbn [fst snd].
  now rewrite <- app_assoc, quote_app, <- app_comm_cons.
Qed.

Lemma parse_elements_eq (f : nat) (s : list ascii) :
  parse_elements (S f) s
  = match parse_value f s with
    | Some (v, rest) =>
        match skip_ws rest with
        | c :: r =>
            if (c =? ",")%char then
              match parse_elements f r with
              | Some (l, rest') => Some (v :: l, rest')
              | None => None
              end
            else if (c =? "]")%char then Some ([v], r)
            else None
        | [] => None
        end
    | None => None
    end.
Proof. reflexivity. Qed.

Lemma parse_elements_print (l : list jsval) :
  Forall reads_back l ->
  forall x f rest, reads_back x -> S (cost x + costs l) <= f ->
    parse_elements f (print x ++ flat_map (fun q => ","%char :: q) (map print l)
                        ++ "]"%char :: rest)
    = Some (x :: l, rest).
Proof.
  induction 1 as [|y l Hy Hl IH]; intros x f rest Hx Hf.
  - destruct f as [|f]; [lia|]. cbn [map flat_map app].
    rewrite parse_elements_eq, Hx by (cbn; lia || reflexivity).
    reflexivity.
  - destruct f as [|f]; [cbn in Hf; lia|]. cbn [map flat_map].
    cbn [costs fold_right] in Hf. fold (costs l) in Hf.
    rewrite parse_elements_eq.
    rewrite <- app_assoc. rewrite <- app_comm_cons.
    rewrite Hx by (lia || reflexivity).
    rewrite skip_ws_cons by reflexivity.
    change ("," =? ",")%char with true. cbv iota.
    rewrite IH by (assumption || lia). reflexivity.
Qed.

Lemma parse_members_eq (f : nat) (s : list ascii) :
  parse_members (S f) s
  = match peek "034" (skip_ws s) with
    | Some r =>
        match parse_string r with
        | Some (k, r1) =>
            match peek ":" (skip_ws r1) with
            | Some r2 =>
                match parse_value f r2 with
                | Some (v, r3) =>
                    match skip_ws r3 with
                    | c :: r4 =>
                        if (c =? ",")%char then
                          match parse_members f r4 with
                          | Some (l, rest) =>
                              Some ((string_of_list_ascii k, v) :: l, rest)
                          | None => None
                          end
                        else if (c =? "}")%char
                          then Some ([(string_of_list_ascii k, v)], r4)
                        else None
                    | [] => None
                    end
                | None => None
                end
            | None => None
            end
        | None => None
        end
    | None => None
    end.
Proof. reflexivity. Qed.

Lemma parse_members_print (l : list (string * jsval)) :
  Forall (fun kv => reads_back (snd kv)) l ->
  forall k x f rest, reads_back x -> S (cost x + member_costs l) <= f ->
    parse_members f (member_text (k, x)
                       ++ flat_map (fun q => ","%char :: q) (map member_text l)
                       ++ "}"%char :: rest)
    = Some ((k, x) :: l, rest).
Proof.
  induction 1 as [|[k' y] l Hy Hl IH]; intros k x f rest Hx Hf.
  - destruct f as [|f]; [lia|]. cbn [map flat_map app].
    rewrite member_text_app, parse_members_eq.
    rewrite skip_ws_cons by reflexivity.
    cbn [peek]. change ("034" =? "034")%char with true. cbv iota.
    rewrite parse_string_escaped.
    rewrite skip_ws_cons by reflexivity.
    cbn [peek]. change (":" =? ":")%char with true. cbv iota.
    rewrite Hx by (cbn; lia || reflexivity).
    rewrite string_of_list_ascii_of_string. reflexivity.
  - destruct f as [|f]; [cbn in Hf; lia|]. cbn [map flat_map].
    cbn [member_costs fold_right snd] in Hf. fold (member_costs l) in Hf.
    rewrite member_text_app, parse_members_eq.
    rewrite skip_ws_cons by reflexivity.
    cbn [peek]. change ("034" =? "034")%char with true. cbv iota.
    rewrite parse_string_escaped.
    rewrite skip_ws_cons by reflexivity.
    cbn [peek]. change (":" =? ":")%char with true. cbv iota.
    rewrite <- app_assoc, <- app_comm_cons.
    rewrite Hx by (lia || reflexivity).
    rewrite skip_ws_cons by reflexivity.
    change ("," =? ",")%char with true. cbv iota.
    cbn [snd] in Hy.
    rewrite (IH k' y f rest Hy) by lia.
    rewrite string_of_list_ascii_of_string. reflexivity.
Qed.

(** The first character of a printed value is neither white space nor a
    closing bracket. *)
Lemma print_head (v : jsval) :
  well_formed v = true -> is_json v = true ->
  exists c r, print v = c :: r /\ is_ws c = false /\ (c =? "]")%char = false.
Proof.
  destruct v as [ | | [|] | z | raw | s | ms | l | l]; intros Hw Hj;
    try discriminate Hj;
    try (eexists; eexists; split; [reflexivity | split; reflexivity]).
  - destruct (classify_head _ _ (classify_number_chars z)) as (c & r & E & Hc).
    exists c, r. split; [exact E | now apply number_head_plain].
  - cbn [well_formed] in Hw. unfold literal_ok in Hw.
    apply andb_true_iff in Hw as [_ Hw].
    destruct (classify_number (list_ascii_of_string raw)) as [v|] eqn:E;
      [|discriminate Hw].
    destruct (classify_head _ _ E) as (c & r & E' & Hc).
    exists c, r. split; [exact E' | now apply number_head_plain].
Qed.

Lemma parse_value_array (f : nat) (r : list ascii) :
  parse_value (S f) ("["%char :: r)
  = match peek "]" (skip_ws r) with
    | Some r' => Some (VArr [], r')
    | None =>
        match parse_elements f r with
        | Some (l, rest) => Some (VArr l, rest)
        | None => None
        end
    end.
Proof. reflexivity. Qed.

Lemma parse_value_object (f : nat) (r : list ascii) :
  parse_value (S f) ("{"%char :: r)
  = match peek "}" (skip_ws r) with
    | Some r' => Some (VObj [], r')
    | None =>
        match parse_members f r with
        | Some (l, rest) => Some (VObj (obj_of l), rest)
        | None => None
        end
    end.
Proof. reflexivity. Qed.

Lemma parse_value_string (f : nat) (r : list ascii) :
  parse_value (S f) ("034"%char :: r)
  = match parse_string r with
    | Some (t, rest) => Some (VStr (string_of_list_ascii t), rest)
    | None => None
    end.
Proof. reflexivity. Qed.

Lemma forallb_Forall_imp {A : Type} (p q : A -> bool) (P : A -> Prop) (l : list A) :
  Forall (fun x => p x = true -> q x = true -> P x) l ->
  forallb p l = true -> forallb q l = true -> Forall P l.
Proof.
  induction 1 as [|x l Hx Hl IH]; intros Hp Hq; constructor;
    cbn [forallb] in Hp, Hq;
    apply andb_true_iff in Hp as [Hp1 Hp2]; apply andb_true_iff in Hq as [Hq1 Hq2];
    auto.
Qed.

Lemma parse_print (v : jsval) :
  well_formed v = true -> is_json v = true -> reads_back v.
Proof.
  induction v as [ | | b | z | raw | s | ms | l IH | l IH] using jsval_nested_ind;
    intros Hw Hj; try discriminate Hj; intros fuel rest Hf Hr;
    (destruct fuel as [|f]; [cbn in Hf; lia|]).
  - reflexivity.
  - destruct b; reflexivity.
  - apply parse_number_token;
      [apply number_chars_numchars | apply classify_number_chars | exact Hr].
  - cbn [well_formed] in Hw. unfold literal_ok in Hw.
    apply andb_true_iff in Hw as [Hall Hc].
    destruct (classify_number (list_ascii_of_string raw)) as [[]|] eqn:E;
      try discriminate Hc.
    apply String.eqb_eq in Hc. subst raw0.
    now apply parse_number_token.
  - cbn [print]. rewrite quote_app, parse_value_string, parse_string_escaped.
    now rewrite string_of_list_ascii_of_string.
  - cbn [well_formed] in Hw. cbn [is_json] in Hj.
    pose proof (forallb_Forall_imp _ _ _ _ IH Hw Hj) as Hl.
    cbn [print]. rewrite <- app_comm_cons, parse_value_array.
    destruct l as [|x l]; [reflexivity|].
    cbn [map join]. rewrite <- !app_assoc.
    inversion Hl as [|? ? Hx Hl']; subst.
    cbn [forallb] in Hw, Hj.
    apply andb_true_iff in Hw as [Hwx _]. apply andb_true_iff in Hj as [Hjx _].
    assert (Hpeek : forall t, peek "]" (skip_ws (print x ++ t)) = None).
    { intros t. destruct (print_head x Hwx Hjx) as (c & r & E & Hws & Hc).
      rewrite E, <- app_comm_cons, skip_ws_cons by exact Hws.
      cbn [peek]. now rewrite Hc. }
    rewrite Hpeek.
    cbn [cost] in Hf. fold (costs (x :: l)) in Hf. cbn [costs fold_right] in Hf.
    fold (costs l) in Hf.
    change (["]"%char] ++ rest) with ("]"%char :: rest).
    rewrite (parse_elements_print l Hl' x f rest) by (assumption || lia).
    reflexivity.
  - cbn [well_formed] in Hw. cbn [is_json] in Hj.
    apply andb_true_iff in Hw as [Hk Hw].
    assert (Hl : Forall (fun kv => reads_back (snd kv)) l).
    { revert Hw Hj. clear -IH. induction IH as [|kv l Hx Hl IH']; intros Hw Hj;
        constructor; cbn [forallb] in Hw, Hj;
        apply andb_true_iff in Hw as [Hw1 Hw2]; apply andb_true_iff in Hj as [Hj1 Hj2];
        auto. }
    cbn [print]. rewrite <- app_comm_cons, parse_value_object.
    destruct l as [|[k x] l]; [reflexivity|].
    change (map (fun kv => quote (fst kv) ++ ":"%char :: print (snd kv)) ((k, x) :: l))
      with (member_text (k, x) :: map member_text l).
    cbn [join]. rewrite <- !app_assoc.
    inversion Hl as [|? ? Hx Hl']; subst. cbn [snd] in Hx.
    assert (Hpeek : forall t, peek "}" (skip_ws (member_text (k, x) ++ t)) = None).
    { intros t. rewrite member_text_app, skip_ws_cons by reflexivity. reflexivity. }
    rewrite Hpeek.
    cbn [cost] in Hf. fold (member_costs ((k, x) :: l)) in Hf.
    cbn [member_costs fold_right snd] in Hf. fold (member_costs l) in Hf.
    change (["}"%char] ++ rest) with ("}"%char :: rest).
    rewrite (parse_members_print l Hl' k x f rest Hx) by lia.
    now rewrite obj_of_distinct.
Qed.

Lemma length_separated (parts : list (list ascii)) :
  length (flat_map (fun q => ","%char :: q) parts)
  = fold_right (fun q n => S (length q + n)) 0 parts.
Proof.
  induction parts as [|q parts IH]; [reflexivity|].
  cbn [flat_map fold_right]. rewrite length_app, IH. reflexivity.
Qed.

Lemma length_join (parts : list (list ascii)) :
  fold_right (fun q n => S (length q + n)) 0 parts
  <= S (length (join ","%char parts)).
Proof.
  destruct parts as [|q parts]; [cbn; lia|].
  cbn [join fold_right]. rewrite length_app, length_separated. lia.
Qed.

Lemma cost_bound (v : jsval) : cost v <= 2 * length (print v) + 1.
Proof.
  induction v as [ | | b | z | raw | s | ms | l IH | l IH] using jsval_nested_ind;
    try (cbn [cost]; lia).
  - cbn [cost print]. cbn [length]. rewrite length_app. cbn [length].
    assert (H : fold_right (fun x n => S (cost x + n)) 0 l
                <= 2 * fold_right (fun q n => S (length q + n)) 0 (map print l)).
    { induction IH as [|x l Hx Hl IHl]; [cbn; lia|]. cbn [map fold_right]. lia. }
    pose proof (length_join (map print l)) as Hj.
    lia.
  - cbn [cost print]. cbn [length]. rewrite length_app. cbn [length].
    assert (H : fold_right (fun kv n => S (cost (snd kv) + n)) 0 l
                <= 2 * fold_right (fun q n => S (length q + n)) 0
                       (map (fun kv => quote (fst kv) ++ ":"%char :: print (snd kv)) l)).
    { induction IH as [|x l Hx Hl IHl]; [cbn; lia|]. cbn [map fold_right].
      rewrite length_app. cbn [length]. lia. }
    pose proof (length_join
                  (map (fun kv => quote (fst kv) ++ ":"%char :: print (snd kv)) l)) as Hj.
    lia.
Qed.

(** [JSON.parse] reads back the text of every JSON value. *)
Lemma parse_print_text (v : jsval) :
  well_formed v = true -> is_json v = true ->
  parse (string_of_list_ascii (print v)) = Some v.
Proof.
  intros Hw Hj. unfold parse.
  rewrite list_ascii_of_string_of_list_ascii.
  pose proof (parse_print v Hw Hj (2 * length (print v) + 2) []) as H.
  rewrite app_nil_r in H. rewrite H; [reflexivity | | exact I].
  pose proof (cost_bound v). lia.
Qed.

End JsonRoundTrip.

(** ** The JSON image of a value, and what [JSON.parse] returns *)

Section JsonValues.
Import JSON.

Lemma image_props_cons (k : string) (x : jsval) (r : list (string * jsval)) :
  image_props ((k, x) :: r)
  = match json_image x with
    | Some y => (k, y) :: image_props r
    | None => image_props r
    end.
Proof. unfold image_props. cbn [json_image]. destruct (json_image x); reflexivity. Qed.

Lemma json_image_obj (l : list (string * jsval)) :
  json_image (VObj l) = Some (VObj (image_props l)).
Proof. reflexivity. Qed.

Lemma image_props_keys (k : string) (l : list (string * jsval)) :
  existsb (String.eqb k) (map fst l) = false ->
  existsb (String.eqb k) (map fst (image_props l)) = false.
Proof.
  induction l as [|[k' x] l IH]; [reflexivity|].
  cbn [map fst existsb]. intros H. apply orb_false_iff in H as [H1 H2].
  rewrite image_props_cons. destruct (json_image x).
  - cbn [map fst existsb]. now rewrite H1, IH.
  - now apply IH.
Qed.

Lemma image_props_distinct (l : list (string * jsval)) :
  keys_distinct (map fst l) = true -> keys_distinct (map fst (image_props l)) = true.
Proof.
  induction l as [|[k x] l IH]; [reflexivity|].
  cbn [map fst keys_distinct]. intros H. apply andb_true_iff in H as [H1 H2].
  rewrite image_props_cons. destruct (json_image x).
  - cbn [map fst keys_distinct]. apply negb_true_iff in H1.
    now rewrite (image_props_keys _ _ H1), IH.
  - now apply IH.
Qed.

Lemma forallb_andb {A : Type} (p q : A -> bool) (l : list A) :
  forallb (fun x => p x && q x) l = forallb p l && forallb q l.
Proof.
  induction l as [|x l IH]; [reflexivity|]. cbn [forallb]. rewrite IH.
  destruct (p x), (q x), (forallb p l), (forallb q l); reflexivity.
Qed.

(** The image of a well-formed value is a well-formed JSON value. *)
Lemma json_image_value (v : jsval) :
  well_formed v = true -> forall j, json_image v = Some j -> json_value j = true.
Proof.
  unfold json_value.
  induction v as [ | | b | z | raw | s | ms | l IH | l IH] using jsval_nested_ind;
    intros Hw j Hj.
  - discriminate Hj.
  - injection Hj as <-. reflexivity.
  - injection Hj as <-. reflexivity.
  - injection Hj as <-. reflexivity.
  - injection Hj as <-. cbn [well_formed is_json] in *. now rewrite Hw.
  - injection Hj as <-. reflexivity.
  - cbn [json_image] in Hj. injection Hj as <-. destruct (valid_date ms); reflexivity.
  - cbn [json_image] in Hj. injection Hj as <-. cbn [well_formed is_json] in *.
    rewrite <- forallb_andb.
    induction IH as [|x l Hx Hl IHl]; [reflexivity|].
    cbn [forallb] in Hw. apply andb_true_iff in Hw as [Hwx Hwl].
    cbn [map forallb]. rewrite (IHl Hwl), andb_true_r.
    destruct (json_image x) as [y|] eqn:E; [now apply Hx | reflexivity].
  - rewrite json_image_obj in Hj.
    injection Hj as <-. cbn [well_formed is_json] in *.
    apply andb_true_iff in Hw as [Hk Hw].
    rewrite (image_props_distinct _ Hk). cbn [andb].
    rewrite <- forallb_andb.
    induction IH as [|[k x] l Hx Hl IHl]; [reflexivity|].
    cbn [forallb map fst keys_distinct snd] in Hw, Hk, Hx.
    apply andb_true_iff in Hw as [Hwx Hwl]. apply andb_true_iff in Hk as [_ Hk].
    rewrite image_props_cons.
    destruct (json_image x) as [y|] eqn:E; [|now apply IHl].
    cbn [forallb snd]. rewrite (IHl Hk Hwl), andb_true_r. now apply Hx.
Qed.

(** A JSON value is its own image. *)
Lemma json_image_id (v : jsval) : is_json v = true -> json_image v = Some v.
Proof.
  induction v as [ | | b | z | raw | s | ms | l IH | l IH] using jsval_nested_ind;
    intros Hj; try discriminate Hj; try reflexivity.
  - cbn [json_image is_json] in *. do 2 f_equal.
    induction IH as [|x l Hx Hl IHl]; [reflexivity|].
    cbn [forallb] in Hj. apply andb_true_iff in Hj as [Hjx Hjl].
    cbn [map]. now rewrite (Hx Hjx), (IHl Hjl).
  - rewrite json_image_obj.
    cbn [is_json] in Hj. do 2 f_equal.
    induction IH as [|[k x] l Hx Hl IHl]; [reflexivity|].
    cbn [forallb snd] in Hj, Hx. apply andb_true_iff in Hj as [Hjx Hjl].
    now rewrite image_props_cons, (Hx Hjx), (IHl Hjl).
Qed.

(** [JSON.parse(JSON.stringify(v))] is the JSON image of [v]. *)
Lemma parse_stringify (v j : jsval) :
  well_formed v = true -> json_image v = Some j ->
  exists text, stringify v = Some text /\ parse text = Some j.
Proof.
  intros Hw Hj. unfold stringify. rewrite Hj. eexists. split; [reflexivity|].
  pose proof (json_image_value v Hw j Hj) as H.
  apply andb_true_iff in H as [H1 H2]. now apply parse_print_text.
Qed.

(** *** Every value returned by [JSON.parse] is a well-formed JSON value *)

Lemma span_fst_all (p : ascii -> bool) (s : list ascii) :
  forallb p (fst (span p s)) = true.
Proof.
  induction s as [|c s IH]; [reflexivity|]. cbn [span].
  destruct (p c) eqn:E; [|reflexivity].
  destruct (span p s). cbn [fst forallb] in *. now rewrite E, IH.
Qed.

Lemma classify_number_value (tok : list ascii) (v : jsval) :
  forallb is_numchar tok = true -> classify_number tok = Some v -> json_value v = true.
Proof.
  intros Hall H. pose proof H as H0. unfold classify_number in H.
  destruct (match tok with
            | [] => (false, tok)
            | c :: r => if (c =? "-")%char then (true, r) else (false, tok)
            end) as [neg t1].
  destruct (read_uint t1) as [d t2].
  destruct (uint_beq (Decimal.unorm d) d); [|discriminate H].
  destruct t2.
  - injection H as <-. reflexivity.
  - destruct (frac_exp_ok (a :: t2)); [|discriminate H].
    injection H as <-. unfold json_value. cbn [well_formed is_json].
    unfold literal_ok. rewrite list_ascii_of_string_of_list_ascii, Hall, H0.
    now rewrite String.eqb_refl.
Qed.

Lemma obj_set_keys (l : list (string * jsval)) (k k' : string) (v : jsval) :
  existsb (String.eqb k') (map fst (obj_set l k v))
  = existsb (String.eqb k') (map fst l) || String.eqb k' k.
Proof.
  induction l as [|[a x] l IH]; cbn [obj_set map fst existsb].
  - now rewrite orb_false_r.
  - destruct (String.eqb_spec a k) as [->|N]; cbn [map fst existsb].
    + destruct (k' =? k)%string, (existsb (String.eqb k') (map fst l)); reflexivity.
    + rewrite IH. now rewrite orb_assoc.
Qed.

Lemma obj_set_distinct (l : list (string * jsval)) (k : string) (v : jsval) :
  keys_distinct (map fst l) = true -> keys_distinct (map fst (obj_set l k v)) = true.
Proof.
  induction l as [|[a x] l IH]; [reflexivity|].
  cbn [obj_set map fst keys_distinct]. intros H. apply andb_true_iff in H as [H1 H2].
  destruct (String.eqb_spec a k) as [->|N]; cbn [map fst keys_distinct].
  - now rewrite H1, H2.
  - rewrite obj_set_keys, (IH H2). apply negb_true_iff in H1. rewrite H1.
    apply String.eqb_neq in N. now rewrite N.
Qed.

Lemma obj_set_values (p : jsval -> bool) (l : list (string * jsval))
      (k : string) (v : jsval) :
  forallb (fun kv => p (snd kv)) l = true -> p v = true ->
  forallb (fun kv => p (snd kv)) (obj_set l k v) = true.
Proof.
  intros Hl Hv. induction l as [|[a x] l IH]; cbn [obj_set forallb snd].
  - now rewrite Hv.
  - cbn [forallb snd] in Hl. apply andb_true_iff in Hl as [H1 H2].
    destruct (a =? k)%string; cbn [forallb snd]; [now rewrite Hv, H2|].
    now rewrite H1, IH.
Qed.

Lemma obj_of_value (l : list (string * jsval)) :
  forallb (fun kv => json_value (snd kv)) l = true -> json_value (VObj (obj_of l)) = true.
Proof.
  intros H. unfold obj_of.
  assert (G : forall acc,
             keys_distinct (map fst acc) = true ->
             forallb (fun kv => json_value (snd kv)) acc = true ->
             let o := fold_left (fun a kv => obj_set a (fst kv) (snd kv)) l acc in
             keys_distinct (map fst o) = true
             /\ forallb (fun kv => json_value (snd kv)) o = true).
  { induction l as [|[k v] l IH]; intros acc Hk Hv; [now split|].
    cbn [forallb snd] in H. apply andb_true_iff in H as [Hx Hl].
    cbn [fold_left fst snd]. apply (IH Hl).
    - now apply obj_set_distinct.
    - now apply obj_set_values. }
  destruct (G [] eq_refl eq_refl) as [Hk Hv].
  unfold json_value in *. cbn [well_formed is_json]. rewrite Hk. cbn [andb].
  rewrite <- forallb_andb. exact Hv.
Qed.

Lemma parse_value_eq (f : nat) (s : list ascii) :
  parse_value (S f) s
  = match skip_ws s with
    | [] => None
    | c :: r =>
        if (c =? "{")%char then
          match peek "}" (skip_ws r) with
          | Some r' => Some (VObj [], r')
          | None =>
              match parse_members f r with
              | Some (l, rest) => Some (VObj (obj_of l), rest)
              | None => None
              end
          end
        else if (c =? "[")%char then
          match peek "]" (skip_ws r) with
          | Some r' => Some (VArr [], r')
          | None =>
              match parse_elements f r with
              | Some (l, rest) => Some (VArr l, rest)
              | None => None
              end
          end
        else if (c =? "034")%char then
          match parse_string r with
          | Some (t, rest) => Some (VStr (string_of_list_ascii t), rest)
          | None => None
          end
        else if (c =? "t")%char then
          option_map (fun rest => (VBool true, rest))
                     (expect (list_ascii_of_string "rue") r)
        else if (c =? "f")%char then
          option_map (fun rest => (VBool false, rest))
                     (expect (list_ascii_of_string "alse") r)
        else if (c =? "n")%char then
          option_map (fun rest => (VNull, rest))
                     (expect (list_ascii_of_string "ull") r)
        else if (is_digit c || (c =? "-")%char) then
          let (tok, rest) := span is_numchar (c :: r) in
          match classify_number tok with
          | Some v => Some (v, rest)
          | None => None
          end
        else None
    end.
Proof. reflexivity. Qed.

Lemma parsed_values (fuel : nat) :
  (forall s v r, parse_value fuel s = Some (v, r) -> json_value v = true)
  /\ (forall s l r, parse_elements fuel s = Some (l, r) -> forallb json_value l = true)
  /\ (forall s l r, parse_members fuel s = Some (l, r) ->
        forallb (fun kv => json_value (snd kv)) l = true).
Proof.
  induction fuel as [|f (IHv & IHe & IHm)]; [repeat split; discriminate|].
  split; [|split].
  - intros s v r. rewrite parse_value_eq.
    destruct (skip_ws s) as [|c t]; [discriminate|].
    destruct (c =? "{")%char.
    { destruct (peek "}" (skip_ws t)); [intros [= <- _]; reflexivity|].
      destruct (parse_members f t) as [[l rest]|] eqn:E; [|discriminate].
      intros [= <- _]. apply obj_of_value. exact (IHm _ _ _ E). }
    destruct (c =? "[")%char.
    { destruct (peek "]" (skip_ws t)); [intros [= <- _]; reflexivity|].
      destruct (parse_elements f t) as [[l rest]|] eqn:E; [|discriminate].
      intros [= <- _]. pose proof (IHe _ _ _ E) as H.
      unfold json_value in *. cbn [well_formed is_json].
      now rewrite <- forallb_andb. }
    destruct (c =? "034")%char.
    { destruct (parse_string t) as [[k rest]|]; [|discriminate].
      intros [= <- _]. reflexivity. }
    destruct (c =? "t")%char.
    { destruct (expect _ t); [|discriminate]. intros [= <- _]. reflexivity. }
    destruct (c =? "f")%char.
    { destruct (expect _ t); [|discriminate]. intros [= <- _]. reflexivity. }
    destruct (c =? "n")%char.
    { destruct (expect _ t); [|discriminate]. intros [= <- _]. reflexivity. }
    destruct (is_digit c || (c =? "-")%char); [|discriminate].
    pose proof (span_fst_all is_numchar (c :: t)) as Hall.
    destruct (span is_numchar (c :: t)) as [tok rest]. cbn [fst] in Hall.
    destruct (classify_number tok) as [x|] eqn:E; [|discriminate].
    intros [= <- _]. exact (classify_number_value _ _ Hall E).
  - intros s l r. rewrite parse_elements_eq.
    destruct (parse_value f s) as [[v rest]|] eqn:E; [|discriminate].
    pose proof (IHv _ _ _ E) as Hv.
    destruct (skip_ws rest) as [|c t]; [discriminate|].
    destruct (c =? ",")%char.
    { destruct (parse_elements f t) as [[l' rest']|] eqn:E'; [|discriminate].
      intros [= <- _]. cbn [forallb]. now rewrite Hv, (IHe _ _ _ E'). }
    destruct (c =? "]")%char; [|discriminate].
    intros [= <- _]. cbn [forallb]. now rewrite Hv.
  - intros s l r. rewrite parse_members_eq.
    destruct (peek "034" (skip_ws s)) as [r0|]; [|discriminate].
    destruct (parse_string r0) as [[k r1]|]; [|discriminate].
    destruct (peek ":" (skip_ws r1)) as [r2|]; [|discriminate].
    destruct (parse_value f r2) as [[v r3]|] eqn:E; [|discriminate].
    pose proof (IHv _ _ _ E) as Hv.
    destruct (skip_ws r3) as [|c t]; [discriminate|].
    destruct (c =? ",")%char.
    { destruct (parse_members f t) as [[l' rest']|] eqn:E'; [|discriminate].
      intros [= <- _]. cbn [forallb snd]. now rewrite Hv, (IHm _ _ _ E'). }
    destruct (c =? "}")%char; [|discriminate].
    intros [= <- _]. cbn [forallb snd]. now rewrite Hv.
Qed.

Lemma parse_value_result (text : string) (v : jsval) :
  parse text = Some v -> json_value v = true.
Proof.
  unfold parse.
  destruct (parse_value _ _) as [[x rest]|] eqn:E; [|discriminate].
  destruct (skip_ws rest); [|discriminate].
  intros [= <-]. exact (proj1 (parsed_values _) _ _ _ E).
Qed.

(** A property of a JSON object is [undefined] or a JSON value. *)
Lemma lookup_value (l : list (string * jsval)) (k : string) :
  forallb (fun kv => json_value (snd kv)) l = true ->
  lookup l k = VUndefined \/ json_value (lookup l k) = true.
Proof.
  induction l as [|[a x] l IH]; [now left|].
  cbn [forallb snd lookup]. intros H. apply andb_true_iff in H as [H1 H2].
  destruct (a =? k)%string; [now right | now apply IH].
Qed.

Lemma json_value_obj (l : list (string * jsval)) :
  json_value (VObj l) = true -> forallb (fun kv => json_value (snd kv)) l = true.
Proof.
  unfold json_value. cbn [well_formed is_json]. intros H.
  apply andb_true_iff in H as [H1 H2]. apply andb_true_iff in H1 as [_ H1].
  rewrite forallb_andb. now rewrite H1, H2.
Qed.

Lemma lookup_prop_value (v : jsval) (k : string) :
  json_value v = true ->
  lookup_prop v k = VUndefined \/ json_value (lookup_prop v k) = true.
Proof.
  destruct v; try (now left). intros H. apply lookup_value. now apply json_value_obj.
Qed.

End JsonValues.

(** ** Sealing and unsealing *)

Section Sealing.
Import JSON EncryptionService.

Lemma check_key_iv_ok (k iv : Buf.buffer) :
  length k = 32 -> 1 <= length iv <= ivLimit -> check_key_iv k iv = Ok tt.
Proof.
  intros Hk [Hiv Hmax]. unfold check_key_iv. rewrite Hk. cbn [Nat.eqb negb].
  destruct (Nat.eqb_spec (length iv) 0); [lia|].
  destruct (Nat.ltb_spec ivLimit (length iv)); [lia | reflexivity].
Qed.

Lemma of_to_string (s : string) : Buf.to_string (Buf.of_string s) = s.
Proof. apply string_of_list_ascii_of_string. Qed.

(** What was sealed under a usable key and iv unseals to its JSON image. *)
Lemma seal_unseal_body (data j : jsval) (key iv : string) :
  well_formed data = true -> json_image data = Some j ->
  length (Base64.decode key) = 32 -> 1 <= length (Base64.decode iv) <= ivLimit ->
  exists s, encrypt_body data key iv = Ok s
            /\ decrypt_body (encrypted s) key iv (tag s) = Ok j.
Proof.
  intros Hw Hj Hk Hiv.
  destruct (parse_stringify data j Hw Hj) as (text & Hs & Hp).
  unfold encrypt_body. rewrite (check_key_iv_ok _ _ Hk Hiv), Hs. cbn [bind].
  pose proof (gcm_decrypt_encrypt (Base64.decode key) (Base64.decode iv) aad
                                  (Buf.of_string text)) as Hgcm.
  pose proof (gcm_tag_length (Base64.decode key) (Base64.decode iv) aad
                (fst (GCM.encrypt (Base64.decode key) (Base64.decode iv) aad
                                  (Buf.of_string text)))) as Hlen.
  destruct (GCM.encrypt (Base64.decode key) (Base64.decode iv) aad (Buf.of_string text))
    as [c t] eqn:E.
  cbn [fst snd] in Hgcm, Hlen.
  assert (Ht : t = GCM.tag (Base64.decode key) (Base64.decode iv) aad c).
  { unfold GCM.encrypt in E. now injection E as <- <-. }
  eexists. split; [reflexivity|].
  unfold decrypt_body. cbn [encrypted tag].
  rewrite (check_key_iv_ok _ _ Hk Hiv). cbn [bind].
  rewrite !hex_decode_encode.
  rewrite Ht at 1. rewrite Hlen. cbn [GCM.valid_tag_length Nat.eqb Nat.leb orb andb negb].
  rewrite hex_encode_even, Hgcm, of_to_string, Hp. reflexivity.
Qed.

Lemma seal_unseal (data j : jsval) (key iv : string) :
  well_formed data = true -> json_image data = Some j ->
  length (Base64.decode key) = 32 -> 1 <= length (Base64.decode iv) <= ivLimit ->
  exists s, encrypt data key iv = Ok s
            /\ decrypt (encrypted s) key iv (tag s) = Ok j
            /\ decrypt_body (encrypted s) key iv (tag s) = Ok j.
Proof.
  intros Hw Hj Hk Hiv.
  destruct (seal_unseal_body data j key iv Hw Hj Hk Hiv) as (s & He & Hd).
  exists s. unfold encrypt, decrypt. now rewrite He, Hd.
Qed.

Lemma generateKey_eq (g : Rng) :
  generateKey g = (Base64.encode (key_bytes g), mkRng (entropy g) (drawn g + 32)).
Proof. reflexivity. Qed.

Lemma generateIV_eq (g : Rng) :
  generateIV (mkRng (entropy g) (drawn g + 32))
  = (Base64.encode (iv_bytes g), mkRng (entropy g) (drawn g + 32 + 16)).
Proof. reflexivity. Qed.

Lemma generated_key_usable (g : Rng) :
  length (Base64.decode (Base64.encode (key_bytes g))) = 32.
Proof. rewrite base64_decode_encode. unfold key_bytes. now rewrite length_map, length_seq. Qed.

Lemma generated_iv_usable (g : Rng) :
  1 <= length (Base64.decode (Base64.encode (iv_bytes g))) <= ivLimit.
Proof.
  rewrite base64_decode_encode. unfold iv_bytes, ivLimit.
  rewrite length_map, length_seq. lia.
Qed.

End Sealing.

(** ** The signature service *)

Section Signatures.
Import JSON EncryptionService ContractSignatureService.

Lemma createSignature_eq (contractData analysisData : jsval) (userId : N) (g : Rng) :
  createSignature contractData analysisData userId g
  = (let k := Base64.encode (key_bytes g) in
     let v := Base64.encode (iv_bytes g) in
     do c <- encrypt contractData k v;
     do a <- encrypt analysisData k v;
     Ok (mkSignature k v (encrypted c) (tag c) (encrypted a) (tag a)),
     mkRng (entropy g) (drawn g + 32 + 16)).
Proof. reflexivity. Qed.

(** A signature made from well-formed payloads can be opened again. *)
Lemma createSignature_opens (contractData analysisData c a : jsval) (userId : N) (g : Rng) :
  well_formed contractData = true -> json_image contractData = Some c ->
  well_formed analysisData = true -> json_image analysisData = Some a ->
  exists s, fst (createSignature contractData analysisData userId g) = Ok s
            /\ decrypt_body (encryptedContent s) (key s) (iv s) (contentTag s) = Ok c
            /\ decrypt_body (encryptedAnalysis s) (key s) (iv s) (analysisTag s) = Ok a.
Proof.
  intros Hwc Hc Hwa Ha. rewrite createSignature_eq. cbn [fst]. cbv zeta.
  destruct (seal_unseal contractData c _ _ Hwc Hc (generated_key_usable g)
                        (generated_iv_usable g)) as (sc & Ec & _ & Dc).
  destruct (seal_unseal analysisData a _ _ Hwa Ha (generated_key_usable g)
                        (generated_iv_usable g)) as (sa & Ea & _ & Da).
  rewrite Ec, Ea. cbn [bind]. eexists. split; [reflexivity|].
  cbn [encryptedContent key iv contentTag encryptedAnalysis analysisTag]. now split.
Qed.

(** The fields of a signature: one key and one iv from the generator,
    each payload sealed under them with its own tag. *)
Lemma createSignature_fields (contractData analysisData : jsval) (userId : N) (g : Rng)
      (s : Signature) :
  fst (createSignature contractData analysisData userId g) = Ok s ->
  key s = Base64.encode (key_bytes g)
  /\ iv s = Base64.encode (iv_bytes g)
  /\ encrypt contractData (key s) (iv s) = Ok (mkSealed (encryptedContent s) (contentTag s))
  /\ encrypt analysisData (key s) (iv s)
     = Ok (mkSealed (encryptedAnalysis s) (analysisTag s)).
Proof.
  rewrite createSignature_eq. cbn [fst]. cbv zeta.
  destruct (encrypt contractData _ _) as [sc|] eqn:Ec; [|discriminate].
  cbn [bind].
  destruct (encrypt analysisData _ _) as [sa|] eqn:Ea; [|discriminate].
  cbn [bind]. intros [= <-].
  cbn [key iv encryptedContent contentTag encryptedAnalysis analysisTag].
  split; [reflexivity|]. split; [reflexivity|]. split.
  - rewrite Ec. now destruct sc.
  - rewrite Ea. now destruct sa.
Qed.


End Signatures.

(** ** The collection *)

Section Store.
Import JSON Model.

Lemma findOne_some (db : Collection) (h : string) (u : N) (d : ContractSignature) :
  findOne db h u = Some d ->
  In d db /\ fileHash d = h /\ uploadedBy d = u /\ status d = active.
Proof.
  unfold findOne. intros H. apply find_some in H as [Hin Hp].
  apply andb_true_iff in Hp as [Hp Hs]. apply andb_true_iff in Hp as [Hh Hu].
  apply String.eqb_eq in Hh. apply N.eqb_eq in Hu.
  repeat split; try assumption. now destruct (status d).
Qed.

Lemma findOne_none (db : Collection) (h : string) (u : N) :
  findOne db h u = None ->
  forall d, In d db -> fileHash d = h -> uploadedBy d = u -> status d <> active.
Proof.
  unfold findOne. intros H d Hin Hh Hu Hs.
  pose proof (find_none _ _ H d Hin) as Hp. cbv beta in Hp.
  rewrite Hh, Hu, Hs, String.eqb_refl, N.eqb_refl in Hp. discriminate Hp.
Qed.

Lemma save_access_present (db : Collection) (now : Z) (mem d : ContractSignature) :
  In d db -> doc_id d = doc_id mem ->
  save_access db now mem = Ok (saved_access db now mem, write_access now mem mem).
Proof.
  intros Hin Hid. unfold save_access.
  assert (H : existsb (fun x => N.eqb (doc_id x) (doc_id mem)) db = true).
  { apply existsb_exists. exists d. split; [exact Hin|]. now apply N.eqb_eq. }
  now rewrite H.
Qed.

Lemma matches_write_access (h : string) (u : N) (now : Z) (mem x : ContractSignature) :
  matches h u (write_access now mem x) = matches h u x.
Proof. reflexivity. Qed.

(** After the save of a copy of the record found under a key, the lookup
    under that key finds the record with the copy's counters. *)
Lemma findOne_saved_access (db : Collection) (h : string) (u : N) (now : Z)
      (mem d : ContractSignature) :
  findOne db h u = Some d -> doc_id mem = doc_id d ->
  findOne (saved_access db now mem) h u = Some (write_access now mem d).
Proof.
  intros H Hid. unfold findOne, saved_access in *.
  change (fun d0 => String.eqb (fileHash d0) h && N.eqb (uploadedBy d0) u
                    && status_eqb (status d0) active) with (matches h u) in *.
  induction db as [|x db IH]; [discriminate|].
  cbn [find map] in *.
  destruct (matches h u x) eqn:E.
  - injection H as ->. rewrite Hid, N.eqb_refl.
    now rewrite matches_write_access, E.
  - specialize (IH H).
    destruct (N.eqb (doc_id x) (doc_id mem)).
    + now rewrite matches_write_access, E.
    + now rewrite E.
Qed.

Lemma readable_write_access (now : Z) (mem x : ContractSignature) :
  readable (write_access now mem x) = readable x.
Proof. reflexivity. Qed.

Lemma readable_set_status (st : Status) (x : ContractSignature) :
  readable (set_status st x) = readable x.
Proof. reflexivity. Qed.

Lemma store_readable_saved (db : Collection) (now : Z) (mem : ContractSignature) :
  store_readable db = true -> store_readable (saved_access db now mem) = true.
Proof.
  unfold store_readable, saved_access. induction db as [|x db IH]; [reflexivity|].
  cbn [forallb map]. intros H. apply andb_true_iff in H as [Hx Hdb].
  rewrite (IH Hdb), andb_true_r.
  destruct (N.eqb (doc_id x) (doc_id mem)); [now rewrite readable_write_access | exact Hx].
Qed.

Lemma store_readable_retire (db : Collection) (id : N) (st : Status) :
  store_readable db = true -> store_readable (retire db id st) = true.
Proof.
  unfold store_readable, retire. induction db as [|x db IH]; [reflexivity|].
  cbn [forallb map]. intros H. apply andb_true_iff in H as [Hx Hdb].
  rewrite (IH Hdb), andb_true_r.
  destruct (N.eqb (doc_id x) id); [now rewrite readable_set_status | exact Hx].
Qed.

Lemma insert_ok (db : Collection) (now : Z) (d : ContractSignature) (r : Collection * ContractSignature) :
  insert db now d = Ok r ->
  fst r = db ++ [snd r] /\ readable (snd r) = readable d
  /\ existsb (fun x => String.eqb (fileHash x) (fileHash d)) db = false.
Proof.
  unfold insert. destruct (negb (validate d)); [discriminate|].
  destruct (existsb _ db); [discriminate|].
  intros [= <-]. cbn [fst snd]. repeat split.
Qed.

(** The unique index on [fileHash]: a record with the same hash, whoever
    uploaded it and whatever its status, makes the insert fail. *)
Lemma insert_conflict (db : Collection) (now : Z) (d x : ContractSignature) :
  validate d = true -> In x db -> fileHash x = fileHash d ->
  insert db now d
  = Throw (new_Error
      "E11000 duplicate key error collection: contractsignatures index: fileHash_1").
Proof.
  intros Hv Hin Hh. unfold insert. rewrite Hv. cbn [negb].
  assert (H : existsb (fun y => String.eqb (fileHash y) (fileHash d)) db = true).
  { apply existsb_exists. exists x. split; [exact Hin|]. now apply String.eqb_eq. }
  now rewrite H.
Qed.

End Store.

(** ** The handlers *)

Section Handlers.
Import JSON Model Multer Routes.

Local Open Scope string_scope.

Lemma path_nonempty (f : MulterFile) :
  String.eqb (getUploadedFilePath f) EmptyString = false.
Proof.
  unfold getUploadedFilePath, or_else.
  destruct (String.eqb (path f) EmptyString) eqn:E; [reflexivity | exact E].
Qed.

Lemma unlink_gone (files : FS) (p : string) : existsSync (unlinkSync files p) p = false.
Proof.
  unfold existsSync, unlinkSync. induction files as [|[q b] files IH]; [reflexivity|].
  cbn [filter fst]. destruct (String.eqb q p) eqn:E; cbn [negb]; [exact IH|].
  cbn [existsb fst]. now rewrite E, IH.
Qed.

Lemma deleted_upload_gone (files : FS) (p : string) :
  String.eqb p EmptyString = false ->
  existsSync (deleteFileIfExists files p) p = false.
Proof.
  intros Hp. unfold deleteFileIfExists. rewrite Hp.
  destruct (existsSync files p) eqn:E; [apply unlink_gone | exact E].
Qed.

(** *** The analysis step *)

Lemma analyzer_promise_value (p : ProcResult) (parsed : jsval) :
  analyzer_promise p = Ok parsed -> json_value parsed = true.
Proof.
  unfold analyzer_promise.
  destruct (parse (candidate_line (stdout p))) as [v|] eqn:E; [|discriminate].
  destruct (get_prop v "ok"); [|discriminate].
  destruct (get_prop v "error"); [|discriminate].
  destruct (_ || _); [discriminate|].
  intros [= <-]. exact (parse_value_result _ _ E).
Qed.

Lemma truthy_defined (v : jsval) : truthy v = true -> v <> VUndefined.
Proof. intros H ->. discriminate H. Qed.

Lemma run_analysis_ok (p : ProcResult) (analysis text : jsval) :
  run_analysis p = Ok (analysis, text) ->
  json_value analysis = true /\ (text = VUndefined \/ json_value text = true).
Proof.
  unfold run_analysis.
  destruct (analyzer_promise p) as [result|] eqn:E; [|discriminate].
  cbn [bind]. pose proof (analyzer_promise_value _ _ E) as Hv.
  destruct (negb (truthy result) || negb (truthy (lookup_prop result "analysis"))) eqn:T;
    [discriminate|].
  intros [= <- <-]. apply orb_false_iff in T as [_ T]. apply negb_false_iff in T.
  split; [|now apply lookup_prop_value].
  destruct (lookup_prop_value result "analysis" Hv) as [H|H]; [|exact H].
  rewrite H in T. discriminate T.
Qed.

(** The errors of the analysis step are plain [Error]s: none carries an
    HTTP response. *)
Lemma run_analysis_error (p : ProcResult) (e : JsError) :
  run_analysis p = Throw e -> response_status e = None.
Proof.
  unfold run_analysis, analyzer_promise.
  destruct (parse (candidate_line (stdout p))) as [v|].
  - destruct (get_prop v "ok"); [destruct (get_prop v "error")|].
    + destruct (_ || _); cbn [bind].
      * now intros [= <-].
      * destruct (_ || _); [now intros [= <-] | discriminate].
    + now intros [= <-].
    + now intros [= <-].
  - now intros [= <-].
Qed.

Lemma analysis_catch_plain (w : World) (p : string) (e : JsError) :
  response_status e = None ->
  analysis_catch w p e = (delete_upload w p, analyze_failed e).
Proof. intros H. unfold analysis_catch. now rewrite H. Qed.

(** *** The content payload *)

Lemma contract_data_image (w : World) (f : MulterFile) (text : jsval) :
  text = VUndefined \/ json_value text = true ->
  well_formed (contract_data w f text) = true
  /\ exists l, json_image (contract_data w f text) = Some (VObj l).
Proof.
  intros Ht. split.
  - unfold contract_data. cbn [well_formed map fst snd forallb].
    change (keys_distinct _) with true. cbn [andb].
    destruct Ht as [->|Ht]; [reflexivity|].
    unfold json_value in Ht. apply andb_true_iff in Ht as [Ht _]. now rewrite Ht.
  - unfold contract_data. rewrite json_image_obj. now eexists.
Qed.

(** *** POST /analyze, step by step *)

Lemma analyze_start_db (w : World) (req : Request) (proc : ProcResult) :
  db (fst (analyze_start w req proc)) = db w.
Proof.
  unfold analyze_start, analysis_step.
  destruct (file req) as [f|]; [|reflexivity].
  destruct (String.eqb _ _); [reflexivity|].
  destruct (readFileSync _ _) as [bytes|e]; [|reflexivity].
  destruct (findOne _ _ _); [reflexivity|].
  destruct (run_analysis proc) as [[analysis text]|e].
  - destruct (ContractSignatureService.createSignature _ _ _ _) as [[s|e] g].
    + reflexivity.
    + unfold analysis_catch. destruct (match response_status e with
                                       | Some 500%Z => true | _ => false end);
        reflexivity.
  - unfold analysis_catch. destruct (match response_status e with
                                     | Some 500%Z => true | _ => false end);
      reflexivity.
Qed.







Lemma check_duplicate_frame (w : World) (req : Request) :
  fst (check_duplicate w req) = w.
Proof.
  unfold check_duplicate.
  destruct (file req); [|reflexivity].
  destruct (hash_of_buffer _); [|reflexivity].
  destruct (findOne _ _ _); [|reflexivity].
  match goal with |- context [match ?x with Ok _ => _ | Throw _ => _ end] =>
    destruct x as [[? ?]|?] end; reflexivity.
Qed.

Lemma receive_db (w : World) (uid : N) (u : option Upload) :
  db (fst (receive w uid u)) = db w.
Proof.
  unfold receive. destruct u as [up|]; [|reflexivity].
  destruct (single _ _ _). reflexivity.
Qed.

(** *** The states the service can be in *)



End Handlers.

(** ** The claims *)

Section Claims.
Import JSON Model Multer Routes.
Local Open Scope string_scope.

Lemma analyze_hit (w : World) (req : Request) (f : MulterFile) (bytes : Buf.buffer)
      (d : ContractSignature) (proc : ProcResult) :
  file req = Some f ->
  readFileSync (fs w) (getUploadedFilePath f) = Ok bytes ->
  findOne (db w) (EncryptionService.generateFileHash bytes) (user req) = Some d ->
  analyze w req proc
  = analyze_finish (delete_upload w (getUploadedFilePath f))
                   (AwaitAccessSave (touch (now w) d)).
Proof.
  intros Hf Hr Hd. unfold analyze, analyze_start, analysis_step.
  now rewrite Hf, path_nonempty, Hr, Hd.
Qed.

Lemma analyze_finish_access (w : World) (mem d : ContractSignature) :
  In d (db w) -> doc_id d = doc_id mem ->
  db (fst (analyze_finish w (AwaitAccessSave mem))) = saved_access (db w) (now w) mem
  /\ analyzer_runs (fst (analyze_finish w (AwaitAccessSave mem))) = analyzer_runs w
  /\ rng (fst (analyze_finish w (AwaitAccessSave mem))) = rng w
  /\ forall a c t,
       getDecryptedAnalysis mem = Ok a -> getDecryptedContent mem = Ok c ->
       get_prop c "extractedText" = Some t ->
       snd (analyze_finish w (AwaitAccessSave mem))
       = duplicate_response (write_access (now w) mem mem) a t.
Proof.
  intros Hin Hid. cbn [analyze_finish].
  rewrite (save_access_present _ _ _ _ Hin Hid).
  change (getDecryptedAnalysis (write_access (now w) mem mem))
    with (getDecryptedAnalysis mem).
  change (getDecryptedContent (write_access (now w) mem mem))
    with (getDecryptedContent mem).
  destruct (getDecryptedAnalysis mem) as [a|e1]; cbn [bind].
  - destruct (getDecryptedContent mem) as [c|e2]; cbn [bind].
    + destruct (get_prop c "extractedText") as [t|] eqn:E.
      * repeat split. intros a' c' t' [= <-] [= <-] Ht.
        rewrite E in Ht. now injection Ht as <-.
      * repeat split. intros a' c' t' _ [= <-] Ht. rewrite E in Ht. discriminate Ht.
    + repeat split. intros a' c' t' _ [=].
  - repeat split. intros a' c' t' [=].
Qed.

Lemma readable_opens (d : ContractSignature) :
  readable d = true ->
  exists a c t, getDecryptedAnalysis d = Ok a /\ getDecryptedContent d = Ok c
                /\ get_prop c "extractedText" = Some t.
Proof.
  unfold readable.
  destruct (getDecryptedAnalysis d) as [a|]; [|discriminate].
  destruct (getDecryptedContent d) as [c|]; [|discriminate].
  destruct (get_prop c "extractedText") as [t|] eqn:E; [|discriminate].
  intros _. now exists a, c, t.
Qed.


(** C8 as amended.  When the analyzer started for an upload closes and
    the analysis step fails (the process exits with an error, prints no
    usable result, or returns no analysis), no record is created, the
    uploaded file is removed from the upload directory, and the caller
    receives status 500 with the message "Failed to analyze contract" and
    the analyzer's error.  The handler sets no time limit: when the
    [close] event of the analyzer does not come, no response is sent, no
    record is created, and the uploaded file stays in the upload
    directory. *)
Theorem failed_analysis_leaves_nothing
        (w : World) (req : Request) (f : MulterFile) (bytes : Buf.buffer)
        (proc : ProcResult) (e : JsError) (save : option string) :
  file req = Some f ->
  readFileSync (fs w) (getUploadedFilePath f) = Ok bytes ->
  findOne (db w) (EncryptionService.generateFileHash bytes) (user req) = None ->
  run_analysis proc = Throw e ->
  (let closed := analyze_under (mkConditions None save (Closes proc)) w req in
   db (fst closed) = db w
   /\ existsSync (fs (fst closed)) (getUploadedFilePath f) = false
   /\ snd closed = Some (failure 500 "Failed to analyze contract" (Some (message e)))
   /\ analyze w req proc = (fst closed, failure 500 "Failed to analyze contract"
                                               (Some (message e))))
  /\ (let waiting := analyze_under (mkConditions None save NeverCloses) w req in
      snd waiting = None
      /\ db (fst waiting) = db w
      /\ readFileSync (fs (fst waiting)) (getUploadedFilePath f) = Ok bytes
      /\ analyzer_runs (fst waiting) = S (analyzer_runs w)).
Proof.
  intros Hf Hr Hd He. cbv zeta.
  unfold analyze_under, analyze, analyze_start, analysis_step.
  cbn [lookup_rejected analyzer].
  rewrite Hf, path_nonempty, Hr, Hd, He.
  rewrite (analysis_catch_plain _ _ _ (run_analysis_error _ _ He)).
  unfold save_under. cbn [save_rejected].
  assert (G : existsSync (fs (delete_upload (spawn_analyzer w) (getUploadedFilePath f)))
                         (getUploadedFilePath f) = false).
  { cbn [delete_upload set_fs fs]. apply deleted_upload_gone, path_nonempty. }
  destruct save as [msg|]; cbn [analyze_finish fst snd];
    (split; [repeat split; exact G | repeat split; exact Hr]).
Qed.

(** C4 as amended.  For every payload and freshly generated key and iv,
    decrypting what [encrypt] returned, with the returned tag, yields the
    JSON image of the payload, which is the payload itself when the
    payload is a JSON value. *)
Theorem seal_round_trip (p j : jsval) (g : Rng) :
  well_formed p = true ->
  json_image p = Some j ->
  exists s,
    EncryptionService.encrypt p (fst (EncryptionService.generateKey g))
      (fst (EncryptionService.generateIV (snd (EncryptionService.generateKey g)))) = Ok s
    /\ EncryptionService.decrypt (EncryptionService.encrypted s)
         (fst (EncryptionService.generateKey g))
         (fst (EncryptionService.generateIV (snd (EncryptionService.generateKey g))))
         (EncryptionService.tag s) = Ok j
    /\ (is_json p = true -> j = p).
Proof.
  intros Hw Hj. rewrite generateKey_eq. cbn [fst snd]. rewrite generateIV_eq. cbn [fst].
  destruct (seal_unseal p j _ _ Hw Hj (generated_key_usable g) (generated_iv_usable g))
    as (s & He & Hd & _).
  exists s. repeat split; try assumption.
  intros H. rewrite (json_image_id p H) in Hj. now injection Hj.
Qed.

(** C3 as amended.  When the insert of a new record meets a record that
    holds the same [fileHash], the handler does not query the collection
    again: it removes the upload, leaves the collection as it is and
    answers status 500, "Failed to analyze contract", with the error of
    the failed save. *)
Theorem insert_conflict_is_reported
        (w : World) (d x : ContractSignature) (a t : jsval) (p : string) :
  In x (db w) -> fileHash x = fileHash d ->
  exists e,
    insert (db w) (now w) d = Throw e
    /\ analyze_finish w (AwaitInsert d a t p)
       = (delete_upload w p, failure 500 "Failed to analyze contract" (Some (message e)))
    /\ db (fst (analyze_finish w (AwaitInsert d a t p))) = db w
    /\ field (snd (analyze_finish w (AwaitInsert d a t p))) "isDuplicate" = VUndefined.
Proof.
  intros Hin Hh. cbn [analyze_finish].
  destruct (validate d) eqn:Hv.
  - rewrite (insert_conflict _ _ _ _ Hv Hin Hh).
    eexists. repeat split.
  - unfold insert. rewrite Hv. cbn [negb]. eexists. repeat split.
Qed.

(** C7 as amended.  The access count is raised in the in-memory copy and
    written back on save, with the time of the hit as [lastAccessed].  Two
    hits that run one after the other leave the stored count 2 above its
    starting value; when the second request loads the record before the
    first one saves, the stored count ends 1 above it. *)
Theorem access_count_read_modify_write
        (w : World) (h : string) (u : N) (d : ContractSignature) :
  findOne (db w) h u = Some d ->
  let first := fst (analyze_finish w (AwaitAccessSave (touch (now w) d))) in
  exists d1,
    findOne (db first) h u = Some d1
    /\ accessCount d1 = (accessCount d + 1)%Z
    /\ lastAccessed d1 = now w
    /\ (exists d2,
          findOne (db (fst (analyze_finish first (AwaitAccessSave (touch (now first) d1)))))
                  h u = Some d2
          /\ accessCount d2 = (accessCount d + 2)%Z)
    /\ (exists d2,
          findOne (db (fst (analyze_finish first (AwaitAccessSave (touch (now w) d)))))
                  h u = Some d2
          /\ accessCount d2 = (accessCount d + 1)%Z).
Proof.
  intros Hd first.
  destruct (findOne_some _ _ _ _ Hd) as (Hin & _).
  destruct (analyze_finish_access w (touch (now w) d) d Hin eq_refl) as (Hdb & _).
  assert (H1 : findOne (db first) h u = Some (write_access (now w) (touch (now w) d) d)).
  { unfold first. rewrite Hdb. now apply findOne_saved_access. }
  eexists. split; [exact H1|]. split; [reflexivity|]. split; [reflexivity|].
  destruct (findOne_some _ _ _ _ H1) as (Hin1 & _).
  split.
  - destruct (analyze_finish_access first
                (touch (now first) (write_access (now w) (touch (now w) d) d))
                _ Hin1 eq_refl) as (Hdb2 & _).
    eexists. split.
    + rewrite Hdb2. apply findOne_saved_access; [exact H1 | reflexivity].
    + cbn [accessCount write_access touch]. lia.
  - destruct (analyze_finish_access first (touch (now w) d) _ Hin1 eq_refl)
      as (Hdb2 & _).
    eexists. split.
    + rewrite Hdb2. apply findOne_saved_access; [exact H1 | reflexivity].
    + reflexivity.
Qed.



End Claims.

Section ClaimsOnSamples.
Import JSON Model Multer Routes.
Local Open Scope string_scope.



(** C1 on the code.  After uploader A has stored a record for a file,
    uploader B, who has no record of it, uploads the same bytes: the
    request fails with status 500 and no second record exists. *)
Lemma second_uploader_is_refused :
  map uploadedBy (db after_first_upload) = [alice]
  /\ map status (db after_first_upload) = [active]
  /\ map fileHash (db after_first_upload) = [lease_hash]
  /\ findOne (db after_first_upload) lease_hash bob = None
  /\ status_code (snd (post_analyze after_first_upload bob (Some lease) analyzer_ok)) = 500%Z
  /\ field (snd (post_analyze after_first_upload bob (Some lease) analyzer_ok)) "message"
     = VStr "Failed to analyze contract"
  /\ field (snd (post_analyze after_first_upload bob (Some lease) analyzer_ok)) "isDuplicate"
     = VUndefined
  /\ map uploadedBy (db (fst (post_analyze after_first_upload bob (Some lease) analyzer_ok)))
     = [alice]
  /\ analyzer_runs (fst (post_analyze after_first_upload bob (Some lease) analyzer_ok)) = 2.
Proof. vm_compute. repeat split. Qed.

(** C2 on the code.  The only record of a file is archived; its uploader
    uploads the same bytes again: the lookup finds nothing, the analyzer
    runs, and the save fails, so that the request ends with status 500 and
    no active record. *)
Lemma reupload_after_archive_is_refused :
  map status (db after_archive) = [archived]
  /\ findOne (db after_archive) lease_hash alice = None
  /\ status_code (snd (post_analyze after_archive alice (Some lease) analyzer_ok)) = 500%Z
  /\ field (snd (post_analyze after_archive alice (Some lease) analyzer_ok)) "message"
     = VStr "Failed to analyze contract"
  /\ field (snd (post_analyze after_archive alice (Some lease) analyzer_ok)) "isDuplicate"
     = VUndefined
  /\ map status (db (fst (post_analyze after_archive alice (Some lease) analyzer_ok)))
     = [archived]
  /\ analyzer_runs (fst (post_analyze after_archive alice (Some lease) analyzer_ok)) = 2.
Proof. vm_compute. repeat split. Qed.

(** C3 as stated fails.  Two uploads of one new file by one uploader, both
    looking the collection up before either saves: the first is stored,
    the second meets the duplicate-key conflict and is answered with
    status 500, not with the stored record. *)
Lemma concurrent_create_conflict_is_an_error :
  status_code (snd (fst (interleaved world0 alice alice lease lease analyzer_ok analyzer_ok)))
  = 200%Z
  /\ status_code (snd (interleaved world0 alice alice lease lease analyzer_ok analyzer_ok))
     = 500%Z
  /\ field (snd (interleaved world0 alice alice lease lease analyzer_ok analyzer_ok)) "message"
     = VStr "Failed to analyze contract"
  /\ field (snd (interleaved world0 alice alice lease lease analyzer_ok analyzer_ok)) "analysis"
     = VUndefined
  /\ length (db (fst (fst (interleaved world0 alice alice lease lease
                                       analyzer_ok analyzer_ok)))) = 1.
Proof. vm_compute. repeat split. Qed.

Lemma insert_conflict_is_reported_witness :
  exists e,
    insert (db after_first_upload) (now after_first_upload) first_record = Throw e
    /\ analyze_finish after_first_upload
         (AwaitInsert first_record sample_analysis VUndefined "upload/lease.txt")
       = (delete_upload after_first_upload "upload/lease.txt",
          failure 500 "Failed to analyze contract" (Some (message e)))
    /\ db (fst (analyze_finish after_first_upload
                  (AwaitInsert first_record sample_analysis VUndefined "upload/lease.txt")))
       = db after_first_upload
    /\ field (snd (analyze_finish after_first_upload
                     (AwaitInsert first_record sample_analysis VUndefined
                                  "upload/lease.txt"))) "isDuplicate" = VUndefined.
Proof.
  apply (insert_conflict_is_reported after_first_upload first_record first_record).
  - vm_compute. left. reflexivity.
  - reflexivity.
Defined.

(** C7 as stated fails.  Two cache hits on one record, both loading it
    before either saves: both are answered as duplicates, and the stored
    count goes from 0 to 1. *)
Lemma concurrent_hits_count_once :
  map accessCount (db after_first_upload) = [0%Z]
  /\ field (snd (fst (interleaved after_first_upload alice alice lease lease
                                  analyzer_ok analyzer_ok))) "isDuplicate" = VBool true
  /\ field (snd (interleaved after_first_upload alice alice lease lease
                             analyzer_ok analyzer_ok)) "isDuplicate" = VBool true
  /\ map accessCount (db (fst (fst (interleaved after_first_upload alice alice lease lease
                                                analyzer_ok analyzer_ok)))) = [1%Z].
Proof. vm_compute. repeat split. Qed.

Lemma access_count_read_modify_write_witness :
  let first :=
    fst (analyze_finish after_first_upload
           (AwaitAccessSave (touch (now after_first_upload) first_record))) in
  exists d1,
    findOne (db first) lease_hash alice = Some d1
    /\ accessCount d1 = (accessCount first_record + 1)%Z
    /\ lastAccessed d1 = now after_first_upload
    /\ (exists d2,
          findOne (db (fst (analyze_finish first (AwaitAccessSave (touch (now first) d1)))))
                  lease_hash alice = Some d2
          /\ accessCount d2 = (accessCount first_record + 2)%Z)
    /\ (exists d2,
          findOne (db (fst (analyze_finish first
                              (AwaitAccessSave (touch (now after_first_upload)
                                                      first_record)))))
                  lease_hash alice = Some d2
          /\ accessCount d2 = (accessCount first_record + 1)%Z).
Proof.
  apply (access_count_read_modify_write after_first_upload lease_hash alice first_record).
  vm_compute. reflexivity.
Defined.


(** C8 as stated fails.  The analyzer started for an upload never closes,
    which is the case that a time limit is there for: the handler, which
    sets none, sends no response, and the uploaded file stays in the
    upload directory. *)
Lemma hung_analyzer_leaves_upload :
  snd (post_analyze_under analyzer_hangs world0 alice (Some lease)) = None
  /\ readFileSync (fs (fst (post_analyze_under analyzer_hangs world0 alice (Some lease))))
                  "upload/lease.txt" = Ok (up_bytes lease)
  /\ db (fst (post_analyze_under analyzer_hangs world0 alice (Some lease))) = []
  /\ analyzer_runs (fst (post_analyze_under analyzer_hangs world0 alice (Some lease))) = 1.
Proof. vm_compute. repeat split. Qed.

Lemma failed_analysis_leaves_nothing_witness :
  (let closed :=
     analyze_under (mkConditions None None (Closes analyzer_crash))
                   (fst (receive world0 alice (Some lease))) (lease_request alice) in
   db (fst closed) = db (fst (receive world0 alice (Some lease)))
   /\ existsSync (fs (fst closed)) (getUploadedFilePath lease_file) = false
   /\ snd closed
      = Some (failure 500 "Failed to analyze contract"
                      (Some (message (new_Error "Traceback: cannot open file"))))
   /\ analyze (fst (receive world0 alice (Some lease))) (lease_request alice) analyzer_crash
      = (fst closed,
         failure 500 "Failed to analyze contract"
                 (Some (message (new_Error "Traceback: cannot open file")))))
  /\ (let waiting :=
        analyze_under (mkConditions None None NeverCloses)
                      (fst (receive world0 alice (Some lease))) (lease_request alice) in
      snd waiting = None
      /\ db (fst waiting) = db (fst (receive world0 alice (Some lease)))
      /\ readFileSync (fs (fst waiting)) (getUploadedFilePath lease_file)
         = Ok (up_bytes lease)
      /\ analyzer_runs (fst waiting)
         = S (analyzer_runs (fst (receive world0 alice (Some lease))))).
Proof.
  apply (failed_analysis_leaves_nothing (fst (receive world0 alice (Some lease)))
           (lease_request alice) lease_file (up_bytes lease) analyzer_crash
           (new_Error "Traceback: cannot open file") None).
  - reflexivity.
  - vm_compute. reflexivity.
  - vm_compute. reflexivity.
  - vm_compute. reflexivity.
Defined.

(** C4 as stated fails.  The content payload of an upload holds a [Date]:
    after sealing and unsealing under a generated key and iv, the date has
    become its ISO string, so that the payload returned differs from the
    one sealed. *)
Lemma date_payload_not_restored :
  exists s j,
    EncryptionService.encrypt dated_payload sample_key sample_iv = Ok s
    /\ EncryptionService.decrypt (EncryptionService.encrypted s) sample_key sample_iv
         (EncryptionService.tag s) = Ok j
    /\ lookup_prop dated_payload "uploadDate" = VDate 1700000000000
    /\ lookup_prop j "uploadDate" = VStr "2023-11-14T22:13:20.000Z"
    /\ j <> dated_payload.
Proof.
  eexists. eexists. split; [vm_compute; reflexivity|].
  split; [vm_compute; reflexivity|].
  split; [reflexivity|]. split; [reflexivity|].
  intros H. apply (f_equal (fun v => lookup_prop v "uploadDate")) in H.
  vm_compute in H. discriminate H.
Qed.

Lemma seal_round_trip_witness :
  exists s,
    EncryptionService.encrypt dated_payload
      (fst (EncryptionService.generateKey (rng world0)))
      (fst (EncryptionService.generateIV (snd (EncryptionService.generateKey (rng world0)))))
    = Ok s
    /\ EncryptionService.decrypt (EncryptionService.encrypted s)
         (fst (EncryptionService.generateKey (rng world0)))
         (fst (EncryptionService.generateIV
                 (snd (EncryptionService.generateKey (rng world0)))))
         (EncryptionService.tag s)
       = Ok (VObj [ ("fileName", VStr "lease.txt"); ("fileSize", VNum 35);
                    ("fileType", VStr "text/plain");
                    ("uploadDate", VStr "2023-11-14T22:13:20.000Z");
                    ("extractedText", VStr "This lease") ])
    /\ (is_json dated_payload = true ->
        VObj [ ("fileName", VStr "lease.txt"); ("fileSize", VNum 35);
               ("fileType", VStr "text/plain");
               ("uploadDate", VStr "2023-11-14T22:13:20.000Z");
               ("extractedText", VStr "This lease") ] = dated_payload).
Proof.
  apply (seal_round_trip dated_payload _ (rng world0)).
  - reflexivity.
  - reflexivity.
Defined.


(** C5 as amended.  [decrypt] either raises an error whose message starts
    with "Decryption failed: " or returns a payload, and it returns one
    only when the tag supplied decodes to an accepted length and to the
    leading bytes of the tag computed from the key, the iv and the
    ciphertext supplied, the payload being the parsed deciphered text;
    so a 16-byte tag is accepted only if it is the computed tag itself. *)
Theorem decrypt_fails_closed (encryptedData key iv tag : string) :
  match EncryptionService.decrypt encryptedData key iv tag with
  | Ok v =>
      GCM.valid_tag_length (length (Hex.decode tag)) = true
      /\ Hex.decode tag
         = firstn (length (Hex.decode tag))
             (GCM.tag (Base64.decode key) (Base64.decode iv) EncryptionService.aad
                      (Hex.decode encryptedData))
      /\ (length (Hex.decode tag) = 16 ->
          Hex.decode tag
          = GCM.tag (Base64.decode key) (Base64.decode iv) EncryptionService.aad
                    (Hex.decode encryptedData))
      /\ parse (Buf.to_string
                  (GCM.gctr (Base64.decode key)
                     (GCM.inc32 (GCM.j0 (Base64.decode key) (Base64.decode iv)))
                     (Hex.decode encryptedData))) = Some v
  | Throw e => exists reason, message e = "Decryption failed: " ++ reason
  end.
Proof.
  unfold EncryptionService.decrypt, EncryptionService.decrypt_body.
  destruct (EncryptionService.check_key_iv _ _) as [[]|e]; cbn [bind];
    [|now eexists].
  destruct (GCM.valid_tag_length (length (Hex.decode tag))) eqn:Hlen; cbn [negb];
    [|now eexists].
  destruct (Nat.odd (String.length encryptedData)); [now eexists|].
  destruct (GCM.decrypt _ _ _ _ _) as [plain|] eqn:Hd; [|now eexists].
  pose proof (gcm_decrypt_checks_tag _ _ _ _ _ _ Hd) as Ht.
  unfold GCM.decrypt in Hd.
  destruct (list_eq_dec ascii_dec _ _); [|discriminate Hd].
  injection Hd as <-.
  destruct (parse _) as [v|] eqn:Hp; [|now eexists].
  split; [reflexivity|]. split; [exact Ht|]. split; [|reflexivity].
  intros H16. rewrite Ht at 1. rewrite H16.
  apply firstn_all2. rewrite gcm_tag_length. lia.
Qed.

(** C5 as stated fails.  The tag of a sealed payload with its last
    character changed to a character that is no hexadecimal digit decodes
    to the first 15 bytes of the tag, which [setAuthTag] accepts when no
    [authTagLength] was given; and a ciphertext with one hexadecimal digit
    changed to upper case decodes to the same bytes.  Both are unsealed to
    the payload. *)
Lemma altered_tag_is_accepted :
  EncryptionService.encrypt sample_analysis sample_key sample_iv = Ok sealed_sample
  /\ String.eqb (set_char 31 "z" (EncryptionService.tag sealed_sample))
                (EncryptionService.tag sealed_sample) = false
  /\ EncryptionService.decrypt (EncryptionService.encrypted sealed_sample)
       sample_key sample_iv (set_char 31 "z" (EncryptionService.tag sealed_sample))
     = Ok sample_analysis
  /\ String.eqb (set_char 2 "F" (EncryptionService.encrypted sealed_sample))
                (EncryptionService.encrypted sealed_sample) = false
  /\ EncryptionService.decrypt (set_char 2 "F" (EncryptionService.encrypted sealed_sample))
       sample_key sample_iv (EncryptionService.tag sealed_sample)
     = Ok sample_analysis.
Proof. vm_compute. repeat split. Qed.

(** C10 on the code.  The uploader of the first record asks
    /check-duplicate about the same file: the upload middleware stores the
    file on disk and gives the handler no [buffer], hashing [undefined]
    throws, and the answer is status 500 instead of the stored analysis;
    the collection is left as it was. *)
Lemma check_duplicate_cannot_read_upload :
  findOne (db after_first_upload) lease_hash alice = Some first_record
  /\ status_code (snd (post_check_duplicate after_first_upload alice (Some lease))) = 500%Z
  /\ field (snd (post_check_duplicate after_first_upload alice (Some lease))) "message"
     = VStr "Failed to check for duplicate contract"
  /\ field (snd (post_check_duplicate after_first_upload alice (Some lease))) "analysis"
     = VUndefined
  /\ db (fst (post_check_duplicate after_first_upload alice (Some lease)))
     = db after_first_upload.
Proof. vm_compute. repeat split. Qed.

(** *** Further properties of the handlers *)

(** /check-duplicate never changes the collection. *)
Lemma check_duplicate_leaves_collection (w : World) (uid : N) (u : option Upload) :
  db (fst (post_check_duplicate w uid u)) = db w.
Proof.
  unfold post_check_duplicate. pose proof (receive_db w uid u) as H.
  destruct (receive w uid u) as [w1 [req|e]]; cbn [fst] in *.
  - now rewrite check_duplicate_frame.
  - exact H.
Qed.

(** With the shared disk-storage middleware, /check-duplicate answers
    every request that carries a named file with status 500. *)
Lemma check_duplicate_always_fails (w : World) (uid : N) (up : Upload) :
  up_name up <> EmptyString ->
  status_code (snd (post_check_duplicate w uid (Some up))) = 500%Z.
Proof.
  intros Hn. unfold post_check_duplicate, receive, single.
  destruct (String.eqb_spec (up_name up) EmptyString) as [E|_]; [contradiction|].
  destruct (negb (fileFilter up)); [reflexivity|].
  destruct (fileSizeLimit <=? N.of_nat (length (up_bytes up)))%N; reflexivity.
Qed.

Lemma check_duplicate_always_fails_witness :
  status_code (snd (post_check_duplicate world0 alice (Some lease))) = 500%Z.
Proof. apply (check_duplicate_always_fails world0 alice lease). discriminate. Defined.

(** An upload whose hash is held by any record of the collection, and for
    which the lookup finds no active record of the uploader, cannot be
    stored: the request ends with status 500 and the collection is left as
    it was. *)
Lemma taken_hash_blocks_upload
      (w : World) (req : Request) (f : MulterFile) (bytes : Buf.buffer)
      (x : ContractSignature) (proc : ProcResult) :
  file req = Some f ->
  readFileSync (fs w) (getUploadedFilePath f) = Ok bytes ->
  findOne (db w) (EncryptionService.generateFileHash bytes) (user req) = None ->
  In x (db w) -> fileHash x = EncryptionService.generateFileHash bytes ->
  status_code (snd (analyze w req proc)) = 500%Z
  /\ db (fst (analyze w req proc)) = db w.
Proof.
  intros Hf Hr Hd Hin Hh. unfold analyze, analyze_start, analysis_step.
  rewrite Hf, path_nonempty, Hr, Hd.
  assert (C : forall v p e, status_code (snd (analysis_catch v p e)) = 500%Z
                            /\ db (fst (analysis_catch v p e)) = db v).
  { intros v p e. unfold analysis_catch.
    destruct (match response_status e with Some 500%Z => true | _ => false end);
      split; reflexivity. }
  destruct (run_analysis proc) as [[analysis text]|e].
  - destruct (ContractSignatureService.createSignature _ _ _ _) as [[s|e] g].
    + cbn [analyze_finish].
      destruct (insert _ _ _) as [[db' saved]|e] eqn:E.
      * apply insert_ok in E as (_ & _ & E). cbn [fileHash new_document] in E.
        assert (T : existsb (fun y => String.eqb (fileHash y)
                                        (EncryptionService.generateFileHash bytes))
                            (db w) = true).
        { apply existsb_exists. exists x. split; [exact Hin|]. now apply String.eqb_eq. }
        cbn [db take_id set_rng spawn_analyzer] in E. rewrite T in E. discriminate E.
      * destruct (C (take_id (set_rng (spawn_analyzer w) g)) (getUploadedFilePath f) e)
          as [C1 C2].
        destruct (analysis_catch _ _ e). cbn [fst snd] in *. now split.
    + destruct (C (set_rng (spawn_analyzer w) g) (getUploadedFilePath f) e) as [C1 C2].
      destruct (analysis_catch _ _ e). cbn [fst snd analyze_finish] in *. now split.
  - destruct (C (spawn_analyzer w) (getUploadedFilePath f) e) as [C1 C2].
    destruct (analysis_catch _ _ e). cbn [fst snd analyze_finish] in *. now split.
Qed.

Lemma taken_hash_blocks_upload_witness :
  status_code (snd (analyze (fst (receive after_first_upload bob (Some lease)))
                            (lease_request bob) analyzer_ok)) = 500%Z
  /\ db (fst (analyze (fst (receive after_first_upload bob (Some lease)))
                      (lease_request bob) analyzer_ok))
     = db (fst (receive after_first_upload bob (Some lease))).
Proof.
  apply (taken_hash_blocks_upload (fst (receive after_first_upload bob (Some lease)))
           (lease_request bob) lease_file (up_bytes lease) first_record analyzer_ok).
  - reflexivity.
  - vm_compute. reflexivity.
  - vm_compute. reflexivity.
  - vm_compute. left. reflexivity.
  - vm_compute. reflexivity.
Defined.

End ClaimsOnSamples.

(** ** Further properties: hashes and sealed payloads *)

Section Shapes.
Import Buf JSON EncryptionService.

Lemma round_length (st : list N) (kw : N * N) :
  length (SHA256.round st kw) = length st.
Proof.
  unfold SHA256.round.
  destruct st as [|a [|b [|c [|d [|e [|f [|g [|h [|i st]]]]]]]]]; reflexivity.
Qed.

Lemma rounds_length (l : list (N * N)) (st : list N) :
  length (fold_left SHA256.round l st) = length st.
Proof.
  revert st. induction l as [|kw l IH]; intros st; [reflexivity|].
  cbn [fold_left]. now rewrite IH, round_length.
Qed.

Lemma compress_length (h : list N) (block : buffer) :
  length (SHA256.compress h block) = length h.
Proof.
  unfold SHA256.compress. rewrite length_map, length_combine, rounds_length.
  apply Nat.min_id.
Qed.

Lemma digest_length (m : buffer) : length (SHA256.digest m) = 32.
Proof.
  unfold SHA256.digest.
  rewrite (flat_map_length_const (of_N 4) 4) by (intros; apply length_of_N).
  assert (H : forall bs h, length (fold_left SHA256.compress bs h) = length h).
  { induction bs as [|b bs IH]; intros h; [reflexivity|].
    cbn [fold_left]. now rewrite IH, compress_length. }
  rewrite H. reflexivity.
Qed.

Lemma hex_digit_lower (n : N) : (n < 16)%N -> lower_hex (Hex.digit n) = true.
Proof.
  intros H. revert n H. apply (forall_below (fun n => lower_hex (Hex.digit n)) 16).
  vm_compute. reflexivity.
Qed.

Lemma hex_encode_lower (b : buffer) :
  forallb lower_hex (list_ascii_of_string (Hex.encode b)) = true.
Proof.
  unfold Hex.encode, Hex.encode_list. rewrite list_ascii_of_string_of_list_ascii.
  induction b as [|x b IH]; [reflexivity|].
  cbn [flat_map]. rewrite forallb_app, IH, andb_true_r.
  unfold Hex.encode_byte. cbn [forallb]. pose proof (N_of_byte_bound x) as Hx.
  rewrite !hex_digit_lower; [reflexivity | |].
  - apply N.mod_lt. discriminate.
  - apply N.Div0.div_lt_upper_bound. exact Hx.
Qed.

(** The hash of a file is 64 lower-case hexadecimal digits, whatever the
    file, the empty one included: they are the hexadecimal form of the 32
    bytes of its SHA-256 digest. *)
Theorem file_hash_shape (fileBuffer : buffer) :
  String.length (generateFileHash fileBuffer) = 64
  /\ forallb lower_hex (list_ascii_of_string (generateFileHash fileBuffer)) = true
  /\ Hex.decode (generateFileHash fileBuffer) = SHA256.digest fileBuffer.
Proof.
  unfold generateFileHash. split; [|split].
  - now rewrite hex_encode_length, digest_length.
  - apply hex_encode_lower.
  - apply hex_decode_encode.
Qed.

End Shapes.

Section SealedPayloads.
Import Buf JSON EncryptionService ContractSignatureService.
Local Open Scope string_scope.

Lemma gctr_length (key : buffer) (icb : N) (x : buffer) :
  length (GCM.gctr key icb x) = length x.
Proof. unfold GCM.gctr. apply xor_bytes_length, keystream_length. Qed.

(** [encrypt] returns exactly when the key decodes to 32 bytes, the iv to
    at least one byte and at most 128, and the payload has a JSON text.  What it returns
    then is a ciphertext of two hexadecimal digits for each byte of that
    text, which shows its length, and a tag of 32 digits.  Otherwise it
    throws an error whose message starts with "Encryption failed: ". *)
Theorem encrypt_outcome (data : jsval) (key iv : string) :
  match encrypt data key iv with
  | Ok s =>
      length (Base64.decode key) = 32
      /\ 1 <= length (Base64.decode iv) <= ivLimit
      /\ exists text,
           stringify data = Some text
           /\ String.length (encrypted s) = 2 * String.length text
           /\ String.length (tag s) = 32
  | Throw e =>
      (length (Base64.decode key) <> 32 \/ length (Base64.decode iv) = 0
       \/ ivLimit < length (Base64.decode iv) \/ stringify data = None)
      /\ exists reason, message e = "Encryption failed: " ++ reason
  end.
Proof.
  unfold encrypt, encrypt_body, check_key_iv.
  destruct (Nat.eqb_spec (length (Base64.decode key)) 32) as [Hk|Hk]; cbn [negb bind].
  - destruct (Nat.eqb_spec (length (Base64.decode iv)) 0) as [Hi|Hi]; cbn [orb bind].
    + split; [now right; left | now eexists].
    + destruct (Nat.ltb_spec ivLimit (length (Base64.decode iv))) as [Hm|Hm]; cbn [bind].
      * split; [now right; right; left | now eexists].
      * destruct (stringify data) as [text|] eqn:Hs.
        -- unfold GCM.encrypt. split; [exact Hk|]. split; [lia|].
           exists text. split; [reflexivity|]. cbn [encrypted tag].
           rewrite !hex_encode_length, gctr_length, gcm_tag_length.
           unfold of_string. rewrite length_list_of_string. now split.
        -- split; [now right; right; right | now eexists].
  - split; [now left | now eexists].
Qed.

(** [decryptSignature] opens what [createSignature] made: for payloads
    with distinct keys and proper number literals, it returns the JSON
    images of the content and of the analysis. *)
Theorem signature_round_trip
        (contractData analysisData c a : jsval) (userId : N) (g : Rng) :
  well_formed contractData = true -> json_image contractData = Some c ->
  well_formed analysisData = true -> json_image analysisData = Some a ->
  exists s,
    fst (createSignature contractData analysisData userId g) = Ok s
    /\ decryptSignature s = Ok (c, a).
Proof.
  intros Hwc Hc Hwa Ha.
  destruct (createSignature_opens contractData analysisData c a userId g Hwc Hc Hwa Ha)
    as (s & Hs & Dc & Da).
  exists s. split; [exact Hs|].
  unfold decryptSignature, decrypt. now rewrite Dc, Da.
Qed.

Lemma xorb_common (a b k : bool) : xorb (xorb a k) (xorb b k) = xorb a b.
Proof. now destruct a, b, k. Qed.

Lemma xor_byte_common (a b k : byte) :
  xor_byte (xor_byte a k) (xor_byte b k) = xor_byte a b.
Proof.
  destruct a, b, k. unfold xor_byte. now rewrite !xorb_common.
Qed.

Lemma xor_bytes_common (p q ks : buffer) :
  length p <= length ks -> length q <= length ks ->
  GCM.xor_bytes (GCM.xor_bytes p ks) (GCM.xor_bytes q ks) = GCM.xor_bytes p q.
Proof.
  unfold GCM.xor_bytes. revert q ks.
  induction p as [|x p IH]; intros q ks Hp Hq; [reflexivity|].
  destruct ks as [|k ks]; [cbn [length] in Hp; lia|].
  destruct q as [|y q]; [reflexivity|].
  cbn [length] in Hp, Hq. cbn [combine map fst snd].
  rewrite xor_byte_common. f_equal. apply IH; lia.
Qed.

Lemma xor_bytes_longer (p ks rest : buffer) :
  length p <= length ks -> GCM.xor_bytes p (ks ++ rest)%list = GCM.xor_bytes p ks.
Proof.
  unfold GCM.xor_bytes. revert ks.
  induction p as [|x p IH]; intros ks H; [reflexivity|].
  destruct ks as [|k ks]; [cbn [length] in H; lia|].
  cbn [length] in H. cbn [app combine map]. f_equal. apply IH. lia.
Qed.

Lemma keystream_prefix (key : buffer) (icb : N) (n m : nat) :
  n <= m ->
  exists rest, GCM.keystream key icb m = (GCM.keystream key icb n ++ rest)%list.
Proof.
  intros H. unfold GCM.keystream.
  assert (D : (n + 15) / 16 <= (m + 15) / 16) by (apply Nat.Div0.div_le_mono; lia).
  replace ((m + 15) / 16) with ((n + 15) / 16 + ((m + 15) / 16 - (n + 15) / 16)) by lia.
  rewrite seq_app, flat_map_app. now eexists.
Qed.

Lemma gctr_common (key : buffer) (icb : N) (p q : buffer) :
  GCM.xor_bytes (GCM.gctr key icb p) (GCM.gctr key icb q) = GCM.xor_bytes p q.
Proof.
  assert (W : forall a b, length a <= length b ->
              GCM.xor_bytes (GCM.gctr key icb a) (GCM.gctr key icb b) = GCM.xor_bytes a b).
  { intros a b H. unfold GCM.gctr.
    destruct (keystream_prefix key icb (length a) (length b) H) as [rest E].
    pose proof (keystream_length key icb (length a)) as La.
    pose proof (keystream_length key icb (length b)) as Lb.
    rewrite <- (xor_bytes_longer a _ rest La), <- E.
    apply xor_bytes_common; [lia | exact Lb]. }
  destruct (Nat.le_ge_cases (length p) (length q)) as [H|H]; [now apply W|].
  assert (S : forall a b, GCM.xor_bytes a b = GCM.xor_bytes b a).
  { unfold GCM.xor_bytes. induction a as [|x a IH]; intros [|y b]; try reflexivity.
    cbn [combine map fst snd]. rewrite IH. f_equal.
    destruct x, y. unfold xor_byte. f_equal; apply xorb_comm. }
  rewrite S, (S p q). now apply W.
Qed.

(** The two payloads of a signature are sealed under one key and one iv,
    hence with one keystream: the exclusive or of the two ciphertexts is
    the exclusive or of the two JSON texts, up to the length of the
    shorter one.  It can be computed from a stored record without the
    key. *)
Theorem signature_payloads_share_keystream
        (contractData analysisData : jsval) (userId : N) (g : Rng) (s : Signature)
        (contentText analysisText : string) :
  fst (createSignature contractData analysisData userId g) = Ok s ->
  stringify contractData = Some contentText ->
  stringify analysisData = Some analysisText ->
  GCM.xor_bytes (Hex.decode (encryptedContent s)) (Hex.decode (encryptedAnalysis s))
  = GCM.xor_bytes (of_string contentText) (of_string analysisText).
Proof.
  intros Hs Hc Ha.
  destruct (createSignature_fields _ _ _ _ _ Hs) as (_ & _ & Ec & Ea).
  unfold encrypt, encrypt_body in Ec, Ea. rewrite Hc in Ec. rewrite Ha in Ea.
  destruct (check_key_iv (Base64.decode (key s)) (Base64.decode (iv s))) as [[]|e];
    cbn [bind] in Ec, Ea; [|discriminate Ec].
  unfold GCM.encrypt in Ec, Ea.
  injection Ec as Ec _. injection Ea as Ea _.
  rewrite <- Ec, <- Ea, !hex_decode_encode. apply gctr_common.
Qed.

End SealedPayloads.

(** ** Further properties: derived keys *)

Section DerivedKeys.
Import Buf JSON EncryptionService.
Local Open Scope string_scope.

(** Published vectors: RFC 4231 (cases 2 and 6) for HMAC-SHA256, and
    PBKDF2 with HMAC-SHA256 for one, two and three iterations. *)
Example hmac_rfc4231_short_key :
  Hex.encode (PBKDF2.hmac (of_string "Jefe") (of_string "what do ya want for nothing?"))
  = "5bdcc146bf60754e6a042426089575c75a003f089d2739839dec58b964ec3843".
Proof. vm_compute. reflexivity. Qed.

Example hmac_rfc4231_long_key :
  Hex.encode (PBKDF2.hmac (repeat (byte_of_N 170) 131)
                (of_string "Test Using Larger Than Block-Size Key - Hash Key First"))
  = "60e431591ee0b67f0d8a26aacbf5b77f8e0bc6213728c5140546040f0ee37f54".
Proof. vm_compute. reflexivity. Qed.

Example pbkdf2_one_iteration :
  Hex.encode (PBKDF2.pbkdf2 (of_string "password") (of_string "salt") 1 32)
  = "120fb6cffcf8b32c43e7225256c4f837a86548c92ccc35480805987cb70be17b".
Proof. vm_compute. reflexivity. Qed.

Example pbkdf2_two_iterations :
  Hex.encode (PBKDF2.pbkdf2 (of_string "password") (of_string "salt") 2 32)
  = "ae4d0c95af6b46d32d0adff928f06dd02a303f8ef3c251dfd6e2d85a95474c43".
Proof. vm_compute. reflexivity. Qed.

Example pbkdf2_two_blocks :
  Hex.encode (PBKDF2.pbkdf2 (of_string "passwordPASSWORDpassword")
                (of_string "saltSALTsaltSALTsaltSALTsaltSALTsalt") 3 40)
  = "325651a5ca818d11f4331cb0c300d6f8b68790c75a09ebad494e74b3f649475856c392e03e00705f".
Proof. vm_compute. reflexivity. Qed.

Lemma hmac_length (key msg : buffer) : length (PBKDF2.hmac key msg) = 32.
Proof. apply digest_length. Qed.

Lemma pbkdf2_block_length (password salt : buffer) (iterations i : N) :
  length (PBKDF2.block password salt iterations i) = 32.
Proof.
  unfold PBKDF2.block.
  apply (N.iter_invariant (iterations - 1) _ (PBKDF2.step password)
           (fun st => length (fst st) = 32 /\ length (snd st) = 32)).
  - intros [u t] [Hu Ht]. cbn [fst snd] in *. unfold PBKDF2.step. cbn [fst snd].
    split; [apply hmac_length|].
    rewrite xor_bytes_length; [exact Ht|]. rewrite hmac_length, Ht. apply le_n.
  - cbn [fst snd]. split; apply hmac_length.
Qed.

Lemma derived_key_length (password salt : string) :
  length (Base64.decode (deriveKey password salt)) = 32.
Proof.
  unfold deriveKey. rewrite base64_decode_encode.
  unfold PBKDF2.pbkdf2, keyLength.
  change ((32 + 31) / 32) with 1. cbn [seq flat_map]. rewrite app_nil_r.
  rewrite firstn_all2; rewrite pbkdf2_block_length; [reflexivity | apply le_n].
Qed.

(** [deriveKey] gives a key of 32 bytes for every password and every
    salt, the empty ones included; what [encrypt] seals under it with
    an iv of 1 to 128 bytes, [decrypt] opens. *)
Theorem derived_key_seals (password salt iv : string) (data j : jsval) :
  well_formed data = true -> json_image data = Some j ->
  1 <= length (Base64.decode iv) <= ivLimit ->
  length (Base64.decode (deriveKey password salt)) = 32
  /\ exists s,
       encrypt data (deriveKey password salt) iv = Ok s
       /\ decrypt (encrypted s) (deriveKey password salt) iv (tag s) = Ok j.
Proof.
  intros Hw Hj Hiv. split; [apply derived_key_length|].
  destruct (seal_unseal data j (deriveKey password salt) iv Hw Hj
              (derived_key_length password salt) Hiv) as (s & He & Hd & _).
  exists s. split; [exact He | exact Hd].
Qed.

End DerivedKeys.

(** ** Further properties: the collection under the handlers *)

Section StoreInvariant.
Import JSON Model Multer Routes.
Local Open Scope string_scope.

Lemma keys_distinct_snoc (ks : list string) (k : string) :
  keys_distinct ks = true -> existsb (fun x => String.eqb x k) ks = false ->
  keys_distinct (ks ++ [k]) = true.
Proof.
  induction ks as [|a ks IH]; [reflexivity|].
  cbn [keys_distinct existsb app]. intros H E.
  apply andb_true_iff in H as [H1 H2]. apply orb_false_iff in E as [E1 E2].
  rewrite (IH H2 E2), andb_true_r. rewrite existsb_app. cbn [existsb].
  apply negb_true_iff in H1. now rewrite H1, E1.
Qed.

Lemma ids_distinct_snoc (l : list N) (n : N) :
  ids_distinct l = true -> forallb (fun x => (x <? n)%N) l = true ->
  ids_distinct (l ++ [n]) = true.
Proof.
  induction l as [|a l IH]; [reflexivity|].
  cbn [ids_distinct forallb app]. intros H E.
  apply andb_true_iff in H as [H1 H2]. apply andb_true_iff in E as [E1 E2].
  rewrite (IH H2 E2), andb_true_r. rewrite existsb_app. cbn [existsb].
  apply negb_true_iff in H1. rewrite H1. cbn [orb].
  apply N.ltb_lt in E1. destruct (N.eqb_spec a n); [lia | reflexivity].
Qed.

Lemma saved_access_hashes (db : Collection) (now : Z) (mem : ContractSignature) :
  map fileHash (saved_access db now mem) = map fileHash db.
Proof.
  unfold saved_access. rewrite map_map. apply map_ext.
  intros x. now destruct (N.eqb (doc_id x) (doc_id mem)).
Qed.

Lemma saved_access_ids (db : Collection) (now : Z) (mem : ContractSignature) :
  map doc_id (saved_access db now mem) = map doc_id db.
Proof.
  unfold saved_access. rewrite map_map. apply map_ext.
  intros x. now destruct (N.eqb (doc_id x) (doc_id mem)).
Qed.

Lemma retire_hashes (db : Collection) (id : N) (st : Status) :
  map fileHash (retire db id st) = map fileHash db.
Proof.
  unfold retire. rewrite map_map. apply map_ext.
  intros x. now destruct (N.eqb (doc_id x) id).
Qed.

Lemma retire_ids (db : Collection) (id : N) (st : Status) :
  map doc_id (retire db id st) = map doc_id db.
Proof.
  unfold retire. rewrite map_map. apply map_ext.
  intros x. now destruct (N.eqb (doc_id x) id).
Qed.

Lemma ids_below_map (db : Collection) (n : N) :
  forallb (fun d => (doc_id d <? n)%N) db = forallb (fun x => (x <? n)%N) (map doc_id db).
Proof. induction db as [|d db IH]; [reflexivity|]. cbn [forallb map]. now rewrite IH. Qed.

Lemma ids_below_weaken (l : list N) (n m : N) :
  (n <= m)%N -> forallb (fun x => (x <? n)%N) l = true ->
  forallb (fun x => (x <? m)%N) l = true.
Proof.
  intros H. induction l as [|a l IH]; [reflexivity|].
  cbn [forallb]. intros E. apply andb_true_iff in E as [E1 E2].
  rewrite (IH E2), andb_true_r. apply N.ltb_lt in E1. apply N.ltb_lt. lia.
Qed.

(** The parts of [consistent], over the collection and the next id. *)
Lemma consistent_parts (w : World) :
  consistent w = true <->
  store_readable (db w) = true
  /\ keys_distinct (map fileHash (db w)) = true
  /\ ids_distinct (map doc_id (db w)) = true
  /\ forallb (fun x => (x <? next_id w)%N) (map doc_id (db w)) = true.
Proof.
  unfold consistent. rewrite !andb_true_iff, ids_below_map. tauto.
Qed.

(** The content payload read back: [extractedText] is the text that was
    stored, also when there was none. *)
Lemma contract_data_text (w : World) (f : MulterFile) (text : jsval) :
  text = VUndefined \/ json_value text = true ->
  exists l, json_image (contract_data w f text) = Some (VObj l)
            /\ lookup l "extractedText" = text.
Proof.
  intros Ht. unfold contract_data. rewrite json_image_obj. eexists.
  split; [reflexivity|].
  rewrite !image_props_cons. cbn [json_image].
  destruct Ht as [->|Ht].
  - reflexivity.
  - unfold json_value in Ht. apply andb_true_iff in Ht as [_ Ht].
    rewrite (json_image_id _ Ht). reflexivity.
Qed.

(** What a miss hands over to the insert. *)
Lemma analyze_start_prepared (w w' : World) (req : Request) (proc : ProcResult)
      (d : ContractSignature) (a t : jsval) (p : string) :
  analyze_start w req proc = (w', AwaitInsert d a t p) ->
  exists f bytes,
    file req = Some f
    /\ readFileSync (fs w) (getUploadedFilePath f) = Ok bytes
    /\ findOne (db w) (EncryptionService.generateFileHash bytes) (user req) = None
    /\ run_analysis proc = Ok (a, t)
    /\ p = getUploadedFilePath f
    /\ w' = take_id (set_rng (spawn_analyzer w) (rng w'))
    /\ fileHash d = EncryptionService.generateFileHash bytes
    /\ uploadedBy d = user req /\ status d = active
    /\ doc_id d = next_id w /\ accessCount d = 0%Z
    /\ fileName d = originalname f /\ fileType d = mimetype f
    /\ getDecryptedAnalysis d = Ok a
    /\ exists c, getDecryptedContent d = Ok c /\ get_prop c "extractedText" = Some t.
Proof.
  unfold analyze_start, analysis_step.
  destruct (file req) as [f|]; [|discriminate].
  destruct (String.eqb _ _); [discriminate|].
  destruct (readFileSync _ _) as [bytes|e] eqn:Er; [|discriminate].
  destruct (findOne _ _ _) eqn:Ef; [discriminate|].
  destruct (run_analysis proc) as [[analysis text]|e] eqn:Ea.
  - destruct (run_analysis_ok _ _ _ Ea) as [Ha Ht].
    destruct (contract_data_image (spawn_analyzer w) f text Ht) as [Hwc _].
    destruct (contract_data_text (spawn_analyzer w) f text Ht) as (l & Hc & Hl).
    unfold json_value in Ha. apply andb_true_iff in Ha as [Hwa Hja].
    destruct (createSignature_opens _ _ _ _ (user req) (rng (spawn_analyzer w))
                Hwc Hc Hwa (json_image_id _ Hja)) as (s & Es & Dc & Da).
    destruct (ContractSignatureService.createSignature _ _ _ _) as [sig g].
    cbn [fst] in Es. subst sig.
    intros [= <- <- <- <- <-]. exists f, bytes.
    split; [reflexivity|]. split; [exact Er|]. split; [exact Ef|].
    do 3 (split; [reflexivity|]).
    do 7 (split; [reflexivity|]).
    unfold getDecryptedAnalysis, getDecryptedContent, decryptData, new_document.
    cbn [encryptedAnalysis encryptionKey iv analysisTag encryptedContent contentTag].
    rewrite Da, Dc. split; [reflexivity|].
    exists (VObj l). split; [reflexivity|]. cbn [get_prop]. now rewrite Hl.
  - destruct (analysis_catch _ _ _). discriminate.
Qed.

Lemma insert_stored (db : Collection) (now : Z) (d : ContractSignature)
      (db' : Collection) (saved : ContractSignature) :
  insert db now d = Ok (db', saved) ->
  db' = (db ++ [saved])%list
  /\ validate d = true
  /\ existsb (fun x => String.eqb (fileHash x) (fileHash d)) db = false
  /\ fileHash saved = fileHash d /\ doc_id saved = doc_id d
  /\ uploadedBy saved = uploadedBy d /\ status saved = status d
  /\ accessCount saved = accessCount d
  /\ getDecryptedAnalysis saved = getDecryptedAnalysis d
  /\ getDecryptedContent saved = getDecryptedContent d.
Proof.
  unfold insert. destruct (validate d); [|discriminate]. cbn [negb].
  destruct (existsb _ db); [discriminate|].
  intros [= <- <-]. repeat split.
Qed.

Lemma analyze_start_next_id (w : World) (req : Request) (proc : ProcResult) :
  (next_id w <= next_id (fst (analyze_start w req proc)))%N.
Proof.
  unfold analyze_start, analysis_step.
  destruct (file req) as [f|]; [|apply N.le_refl].
  destruct (String.eqb _ _); [apply N.le_refl|].
  destruct (readFileSync _ _) as [bytes|e]; [|apply N.le_refl].
  destruct (findOne _ _ _); [apply N.le_refl|].
  assert (C : forall v q e, next_id (fst (analysis_catch v q e)) = next_id v).
  { intros v q e. unfold analysis_catch.
    destruct (match response_status e with Some 500%Z => true | _ => false end);
      reflexivity. }
  destruct (run_analysis proc) as [[analysis text]|e].
  - destruct (ContractSignatureService.createSignature _ _ _ _) as [[s|e] g].
    + cbn [fst next_id take_id set_rng spawn_analyzer]. lia.
    + pose proof (C (set_rng (spawn_analyzer w) g) (getUploadedFilePath f) e) as H.
      destruct (analysis_catch _ _ e). cbn [fst] in *. rewrite H. apply N.le_refl.
  - pose proof (C (spawn_analyzer w) (getUploadedFilePath f) e) as H.
    destruct (analysis_catch _ _ e). cbn [fst] in *. rewrite H. apply N.le_refl.
Qed.

Lemma consistent_saved (w : World) (mem : ContractSignature) :
  consistent w = true ->
  consistent (set_db w (saved_access (db w) (now w) mem)) = true.
Proof.
  rewrite !consistent_parts. cbn [db set_db next_id].
  rewrite saved_access_hashes, saved_access_ids.
  intros (H1 & H2 & H3 & H4). repeat split; try assumption.
  now apply store_readable_saved.
Qed.

Lemma consistent_same_store (w w' : World) :
  db w' = db w -> (next_id w <= next_id w')%N ->
  consistent w = true -> consistent w' = true.
Proof.
  rewrite !consistent_parts. intros -> Hn (H1 & H2 & H3 & H4).
  repeat split; try assumption. now apply (ids_below_weaken _ (next_id w)).
Qed.

Lemma consistent_analyze (w : World) (req : Request) (proc : ProcResult) :
  consistent w = true -> consistent (fst (analyze w req proc)) = true.
Proof.
  intros Hc. unfold analyze.
  pose proof (analyze_start_db w req proc) as Hdb.
  pose proof (analyze_start_next_id w req proc) as Hn.
  destruct (analyze_start w req proc) as [w1 [r | mem | d a t p]] eqn:E;
    cbn [fst] in Hdb, Hn.
  - cbn [analyze_finish fst]. exact (consistent_same_store w w1 Hdb Hn Hc).
  - pose proof (consistent_same_store w w1 Hdb Hn Hc) as Hc1.
    cbn [analyze_finish]. unfold save_access.
    destruct (existsb _ (db w1)); [|exact Hc1].
    fold (saved_access (db w1) (now w1) mem).
    match goal with |- context [match ?x with Ok _ => _ | Throw _ => _ end] =>
      destruct x as [[? ?]|?] end; cbn [fst]; now apply consistent_saved.
  - destruct (analyze_start_prepared _ _ _ _ _ _ _ _ E)
      as (f & bytes & _ & _ & _ & _ & _ & Hw1 & _ & _ & _ & Hid & _ & _ & _ & Ha & c & Hct & Ht).
    cbn [analyze_finish].
    destruct (insert (db w1) (now w1) d) as [[db' saved]|e] eqn:Ei.
    + destruct (insert_stored _ _ _ _ _ Ei)
        as (-> & _ & Hx & Hh & Hi & _ & _ & _ & Sa & Sc).
      cbn [fst]. apply consistent_parts.
      cbn [db next_id remove_temp_dir delete_upload set_fs set_db].
      apply consistent_parts in Hc as (H1 & H2 & H3 & H4).
      rewrite Hdb, !map_app. cbn [map]. rewrite Hh, Hi, Hid.
      assert (Hn1 : next_id w1 = (next_id w + 1)%N) by (rewrite Hw1; reflexivity).
      rewrite Hn1. repeat split.
      * unfold store_readable in *. rewrite forallb_app, H1. cbn [forallb].
        unfold readable. now rewrite Sa, Sc, Ha, Hct, Ht.
      * apply keys_distinct_snoc; [exact H2|].
        rewrite Hdb in Hx. clear -Hx. induction (db w) as [|x l IH]; [reflexivity|].
        cbn [existsb map] in *. apply orb_false_iff in Hx as [Hx1 Hx2].
        now rewrite Hx1, IH.
      * now apply ids_distinct_snoc.
      * rewrite forallb_app. cbn [forallb].
        rewrite (ids_below_weaken _ (next_id w) (next_id w + 1)) by (lia || exact H4).
        rewrite andb_true_r. apply N.ltb_lt. lia.
    + assert (C : forall v q e', db (fst (analysis_catch v q e')) = db v
                                  /\ next_id (fst (analysis_catch v q e')) = next_id v).
      { intros v q e'. unfold analysis_catch.
        destruct (match response_status e' with Some 500%Z => true | _ => false end);
          split; reflexivity. }
      destruct (C w1 p e) as [C1 C2]. destruct (analysis_catch w1 p e) as [w2 r].
      cbn [fst] in *. apply (consistent_same_store w w2); [congruence | lia | exact Hc].
Qed.

Lemma findById_some (db : Collection) (id u : N) (d : ContractSignature) :
  findById db id u = Some d ->
  In d db /\ doc_id d = id /\ uploadedBy d = u /\ status d = active.
Proof.
  unfold findById. intros H. apply find_some in H as [Hin Hp].
  apply andb_true_iff in Hp as [Hp Hs]. apply andb_true_iff in Hp as [Hi Hu].
  apply N.eqb_eq in Hi. apply N.eqb_eq in Hu.
  repeat split; try assumption. now destruct (status d).
Qed.

Lemma get_contract_store (w : World) (uid : N) (contractId : option N) :
  fst (get_contract w uid contractId) = w
  \/ exists mem, fst (get_contract w uid contractId)
                 = set_db w (saved_access (db w) (now w) mem).
Proof.
  unfold get_contract. destruct contractId as [id|]; [|now left].
  destruct (findById (db w) id uid) as [c|]; [|now left].
  unfold save_access. destruct (existsb _ (db w)); [|now left].
  fold (saved_access (db w) (now w) (touch (now w) c)).
  right. exists (touch (now w) c).
  match goal with |- context [match ?x with Ok _ => _ | Throw _ => _ end] =>
    destruct x as [[? ?]|?] end; reflexivity.
Qed.

Lemma consistent_retire (w : World) (id : N) (st : Status) :
  consistent w = true -> consistent (set_db w (retire (db w) id st)) = true.
Proof.
  rewrite !consistent_parts. cbn [db set_db next_id].
  rewrite retire_hashes, retire_ids.
  intros (H1 & H2 & H3 & H4). repeat split; try assumption.
  now apply store_readable_retire.
Qed.

(** POST /analyze, POST /check-duplicate, GET /contract/:contractId and a
    change of status keep the collection consistent: every record can be
    opened with its own key, iv and tags, no two records hold the same
    file hash, no two the same id, and every id is below the next one to
    be given out. *)
Theorem handlers_keep_consistent (w : World) :
  consistent w = true ->
  (forall uid u proc, consistent (fst (post_analyze w uid u proc)) = true)
  /\ (forall uid u, consistent (fst (post_check_duplicate w uid u)) = true)
  /\ (forall uid contractId, consistent (fst (get_contract w uid contractId)) = true)
  /\ (forall id st, consistent (set_db w (retire (db w) id st)) = true).
Proof.
  intros Hc.
  assert (R : forall uid u, consistent (fst (receive w uid u)) = true).
  { intros uid u. apply (consistent_same_store w); [apply receive_db | | exact Hc].
    unfold receive. destruct u as [up|]; [|apply N.le_refl].
    destruct (single _ _ _). apply N.le_refl. }
  split; [|split; [|split]].
  - intros uid u proc. unfold post_analyze. specialize (R uid u).
    destruct (receive w uid u) as [w1 [req|e]]; cbn [fst] in *; [|exact R].
    now apply consistent_analyze.
  - intros uid u. unfold post_check_duplicate. specialize (R uid u).
    destruct (receive w uid u) as [w1 [req|e]]; cbn [fst] in *; [|exact R].
    now rewrite check_duplicate_frame.
  - intros uid contractId.
    destruct (get_contract_store w uid contractId) as [->|[mem ->]];
      [exact Hc | now apply consistent_saved].
  - intros id st. now apply consistent_retire.
Qed.

End StoreInvariant.

(** ** Further properties: an upload and its repetition *)

Section Reupload.
Import JSON Model Multer Routes.
Local Open Scope string_scope.

Lemma failure_not_duplicate (code : Z) (msg : string) (e : option string) :
  field (failure code msg e) "isDuplicate" = VUndefined.
Proof. destruct e; reflexivity. Qed.

Lemma analysis_catch_not_duplicate (w : World) (p : string) (e : JsError) :
  field (snd (analysis_catch w p e)) "isDuplicate" = VUndefined.
Proof.
  unfold analysis_catch.
  destruct (match response_status e with Some 500%Z => true | _ => false end);
    reflexivity.
Qed.

Lemma analyze_start_finished (w w' : World) (req : Request) (proc : ProcResult)
      (r : Response) :
  analyze_start w req proc = (w', Finished r) -> field r "isDuplicate" = VUndefined.
Proof.
  unfold analyze_start, analysis_step.
  destruct (file req) as [f|]; [|now intros [= _ <-]].
  destruct (String.eqb _ _); [now intros [= _ <-]|].
  destruct (readFileSync _ _) as [bytes|e]; [|now intros [= _ <-]].
  destruct (findOne _ _ _); [discriminate|].
  destruct (run_analysis proc) as [[analysis text]|e].
  - destruct (ContractSignatureService.createSignature _ _ _ _) as [[s|e] g];
      [discriminate|].
    pose proof (analysis_catch_not_duplicate (set_rng (spawn_analyzer w) g)
                  (getUploadedFilePath f) e) as H.
    destruct (analysis_catch _ _ e). now intros [= _ <-].
  - pose proof (analysis_catch_not_duplicate (spawn_analyzer w) (getUploadedFilePath f) e)
      as H.
    destruct (analysis_catch _ _ e). now intros [= _ <-].
Qed.

(** A response tagged [isDuplicate = false] comes from a successful
    insert. *)
Lemma analyze_fresh (w : World) (req : Request) (proc : ProcResult) :
  field (snd (analyze w req proc)) "isDuplicate" = VBool false ->
  exists w1 d a t p saved,
    analyze_start w req proc = (w1, AwaitInsert d a t p)
    /\ insert (db w1) (now w1) d = Ok ((db w1 ++ [saved])%list, saved)
    /\ analyze w req proc
       = (remove_temp_dir (delete_upload (set_db w1 (db w1 ++ [saved])%list) p),
          analyzed_response saved a t).
Proof.
  unfold analyze.
  destruct (analyze_start w req proc) as [w1 [r | mem | d a t p]] eqn:E.
  - cbn [analyze_finish snd]. rewrite (analyze_start_finished _ _ _ _ _ E). discriminate.
  - cbn [analyze_finish]. destruct (save_access _ _ _) as [[db' saved]|e].
    + match goal with |- context [match ?x with Ok _ => _ | Throw _ => _ end] =>
        destruct x as [[? ?]|?] end; cbn [snd]; discriminate.
    + cbn [snd]. discriminate.
  - cbn [analyze_finish]. destruct (insert _ _ _) as [[db' saved]|e] eqn:Ei.
    + intros _. destruct (insert_stored _ _ _ _ _ Ei) as (-> & _).
      exists w1, d, a, t, p, saved.
      split; [reflexivity|]. split; [exact Ei | reflexivity].
    + pose proof (analysis_catch_not_duplicate w1 p e) as H.
      destruct (analysis_catch w1 p e). cbn [snd] in *. rewrite H. discriminate.
Qed.

Lemma read_after_write (files : FS) (p : string) (data : Buf.buffer) :
  readFileSync (writeFile files p data) p = Ok data.
Proof. unfold readFileSync, writeFile. cbn [find fst]. now rewrite String.eqb_refl. Qed.

(** An upload that the middleware accepts and hands to the handler is
    stored under a path that depends on the upload and the time only. *)
Lemma receive_accepted (w w1 : World) (uid : N) (up : Upload) (req : Request) :
  receive w uid (Some up) = (w1, Ok req) -> file req <> None ->
  exists f,
    req = mkRequest uid (Some f)
    /\ w1 = set_fs w (writeFile (fs w) (getUploadedFilePath f) (up_bytes up))
    /\ forall w', now w' = now w ->
          receive w' uid (Some up)
          = (set_fs w' (writeFile (fs w') (getUploadedFilePath f) (up_bytes up)), Ok req).
Proof.
  unfold receive, single.
  destruct (String.eqb (up_name up) EmptyString).
  - intros [= <- <-] H. now destruct H.
  - destruct (negb (fileFilter up)); [discriminate|].
    destruct (fileSizeLimit <=? N.of_nat (length (up_bytes up)))%N; [discriminate|].
    intros [= <- <-] _. eexists. split; [reflexivity|]. split; [reflexivity|].
    intros w' ->. reflexivity.
Qed.

Lemma findOne_appended (db : Collection) (h : string) (u : N) (d : ContractSignature) :
  findOne db h u = None -> fileHash d = h -> uploadedBy d = u -> status d = active ->
  findOne (db ++ [d])%list h u = Some d.
Proof.
  unfold findOne. intros Hn Hh Hu Hs.
  induction db as [|x db IH]; cbn [app find] in *.
  - now rewrite Hh, Hu, Hs, String.eqb_refl, N.eqb_refl.
  - destruct (_ && _); [discriminate | now apply IH].
Qed.

(** When an upload has been answered with [isDuplicate = false], the same
    bytes uploaded again by the same user are answered with status 200
    and [isDuplicate = true], with the analysis, the extracted text and
    the contract id of the first answer and an access count of 1; the
    analyzer is not run again, whatever it would have returned, and no
    record is added. *)
Theorem reupload_returns_first_analysis
        (w : World) (uid : N) (up : Upload) (proc proc2 : ProcResult) :
  field (snd (post_analyze w uid (Some up) proc)) "isDuplicate" = VBool false ->
  let first := post_analyze w uid (Some up) proc in
  let second := post_analyze (fst first) uid (Some up) proc2 in
  status_code (snd second) = 200%Z
  /\ field (snd second) "isDuplicate" = VBool true
  /\ field (snd second) "analysis" = field (snd first) "analysis"
  /\ field (snd second) "extracted_text" = field (snd first) "extracted_text"
  /\ field (snd second) "contractId" = field (snd first) "contractId"
  /\ field (snd second) "accessCount" = VNum 1
  /\ analyzer_runs (fst second) = analyzer_runs (fst first)
  /\ length (db (fst second)) = length (db (fst first)).
Proof.
  intros H first second.
  assert (Hfirst : exists w0 f w1 a t saved c,
             receive w uid (Some up) = (w0, Ok (mkRequest uid (Some f)))
             /\ (forall w', now w' = now w ->
                  receive w' uid (Some up)
                  = (set_fs w' (writeFile (fs w') (getUploadedFilePath f) (up_bytes up)),
                     Ok (mkRequest uid (Some f))))
             /\ first = (remove_temp_dir
                           (delete_upload (set_db w1 (db w1 ++ [saved])%list)
                                          (getUploadedFilePath f)),
                         analyzed_response saved a t)
             /\ now w1 = now w
             /\ findOne (db w1 ++ [saved])%list
                        (EncryptionService.generateFileHash (up_bytes up)) uid = Some saved
             /\ accessCount saved = 0%Z
             /\ getDecryptedAnalysis saved = Ok a
             /\ getDecryptedContent saved = Ok c
             /\ get_prop c "extractedText" = Some t).
  { subst first. unfold post_analyze in *.
    destruct (receive w uid (Some up)) as [w0 [req|e]] eqn:Er; [|discriminate H].
    assert (Hfile : file req <> None).
    { intros E. unfold analyze, analyze_start in H. rewrite E in H. discriminate H. }
    destruct (receive_accepted _ _ _ _ _ Er Hfile) as (f & -> & Hw0 & Hagain).
    destruct (analyze_fresh _ _ _ H) as (w1 & d & a & t & p & saved & Es & Ei & Ea).
    destruct (analyze_start_prepared _ _ _ _ _ _ _ _ Es)
      as (f' & bytes & Hf & Hr & Hfind & _ & -> & Hw1 & Hh & Hu & Hst & _ & Hac & _ & _
          & Da & c & Dc & Dt).
    cbn [file user] in *. injection Hf as <-.
    assert (Hb : bytes = up_bytes up).
    { rewrite Hw0 in Hr. cbn [fs set_fs] in Hr. rewrite read_after_write in Hr.
      now injection Hr. }
    subst bytes.
    assert (Hdb1 : db w1 = db w0) by (rewrite Hw1; reflexivity).
    assert (Hdb0 : db w0 = db w) by (rewrite Hw0; reflexivity).
    assert (Hnow1 : now w1 = now w) by (rewrite Hw1, Hw0; reflexivity).
    destruct (insert_stored _ _ _ _ _ Ei)
      as (_ & _ & _ & Sh & Si & Su & Sst & Sac & Sa & Sc).
    exists w0, f, w1, a, t, saved, c.
    split; [reflexivity|]. split; [exact Hagain|]. split; [exact Ea|].
    split; [exact Hnow1|]. split; [|split; [congruence|split; [congruence|]]].
    - rewrite Hdb1. rewrite Hdb0 in Hfind.
      rewrite Hdb0. apply findOne_appended; congruence.
    - split; [congruence | exact Dt]. }
  destruct Hfirst as (w0 & f & w1 & a & t & saved & c & Er & Hagain & Efirst & Hnow1
                      & Hfind & Hac & Da & Dc & Dt).
  set (w2 := remove_temp_dir (delete_upload (set_db w1 (db w1 ++ [saved])%list)
                                            (getUploadedFilePath f))) in *.
  set (w3 := set_fs w2 (writeFile (fs w2) (getUploadedFilePath f) (up_bytes up))).
  assert (Esecond : second
                    = analyze_finish (delete_upload w3 (getUploadedFilePath f))
                                     (AwaitAccessSave (touch (now w3) saved))).
  { subst second. rewrite Efirst. cbn [fst]. unfold post_analyze.
    rewrite (Hagain w2 Hnow1). fold w3.
    apply (analyze_hit w3 (mkRequest uid (Some f)) f (up_bytes up) saved proc2 eq_refl).
    - apply read_after_write.
    - exact Hfind. }
  assert (Hin : In saved (db (delete_upload w3 (getUploadedFilePath f)))).
  { change (In saved (db w1 ++ [saved])%list). apply in_or_app. right. now left. }
  destruct (analyze_finish_access (delete_upload w3 (getUploadedFilePath f))
              (touch (now w3) saved) saved Hin eq_refl) as (Hdb & Hruns & _ & Hresp).
  specialize (Hresp a c t Da Dc Dt).
  rewrite Esecond, Hresp, Hdb, Hruns, Efirst. cbn [fst snd].
  unfold saved_access. rewrite length_map.
  split; [reflexivity|]. split; [reflexivity|].
  split; [reflexivity|]. split; [reflexivity|]. split; [reflexivity|].
  split; [|split; reflexivity].
  change (field _ "accessCount") with (VNum (accessCount saved + 1)).
  now rewrite Hac.
Qed.

End Reupload.

(** ** Further properties: reading a stored contract *)

Section StoredContract.
Import JSON Model Multer Routes.
Local Open Scope string_scope.

Lemma findById_none (db : Collection) (id u : N) :
  findById db id u = None ->
  forall d, In d db -> doc_id d = id -> uploadedBy d = u -> status d <> active.
Proof.
  unfold findById. intros H d Hin Hi Hu Hs.
  pose proof (find_none _ _ H d Hin) as Hp. cbv beta in Hp.
  rewrite Hi, Hu, Hs, !N.eqb_refl in Hp. discriminate Hp.
Qed.

Lemma findById_absent (db : Collection) (id u : N) :
  (forall d, In d db -> doc_id d = id -> uploadedBy d = u -> status d <> active) ->
  findById db id u = None.
Proof.
  intros H. destruct (findById db id u) as [d|] eqn:E; [|reflexivity].
  destruct (findById_some _ _ _ _ E) as (Hin & Hi & Hu & Hs).
  now destruct (H d Hin Hi Hu).
Qed.

(** GET /contract/:contractId answers 200 only for an active record that
    the caller uploaded, with the analysis of that record; for an id
    under which the caller has no active record, be it the id of another
    user's record or of an archived one, it answers 404 and changes
    nothing. *)
Theorem get_contract_owner_only (w : World) (uid : N) (contractId : option N) :
  (status_code (snd (get_contract w uid contractId)) = 200%Z ->
   exists id d,
     contractId = Some id /\ In d (db w) /\ doc_id d = id
     /\ uploadedBy d = uid /\ status d = active
     /\ getDecryptedAnalysis d
        = Ok (field (snd (get_contract w uid contractId)) "analysis"))
  /\ (forall id,
        contractId = Some id ->
        (forall d, In d (db w) -> doc_id d = id -> uploadedBy d = uid ->
                   status d <> active) ->
        get_contract w uid contractId = (w, failure 404 "Contract not found" None)).
Proof.
  split.
  - unfold get_contract. destruct contractId as [id|]; [|discriminate].
    destruct (findById (db w) id uid) as [d|] eqn:E; [|discriminate].
    destruct (findById_some _ _ _ _ E) as (Hin & Hi & Hu & Hs).
    unfold save_access. destruct (existsb _ (db w)); [|discriminate].
    change (getDecryptedAnalysis (write_access (now w) (touch (now w) d) (touch (now w) d)))
      with (getDecryptedAnalysis d).
    change (getDecryptedContent (write_access (now w) (touch (now w) d) (touch (now w) d)))
      with (getDecryptedContent d).
    destruct (getDecryptedAnalysis d) as [a|e1] eqn:Ea; cbn [bind]; [|discriminate].
    destruct (getDecryptedContent d) as [c|e2]; cbn [bind]; [|discriminate].
    destruct (get_prop c "extractedText") as [t|]; [|discriminate].
    intros _. exists id, d. repeat split; assumption.
  - intros id -> H. unfold get_contract. now rewrite (findById_absent _ _ _ H).
Qed.

Lemma ids_distinct_unique (db : Collection) (x d : ContractSignature) :
  ids_distinct (map doc_id db) = true ->
  In x db -> In d db -> doc_id x = doc_id d -> x = d.
Proof.
  induction db as [|y db IH]; [contradiction|].
  cbn [map ids_distinct]. intros H Hx Hd E.
  apply andb_true_iff in H as [H1 H2]. apply negb_true_iff in H1.
  assert (F : forall z, In z db -> doc_id y = doc_id z -> False).
  { intros z Hz Ez.
    assert (T : existsb (N.eqb (doc_id y)) (map doc_id db) = true).
    { apply existsb_exists. exists (doc_id z). split; [now apply in_map|].
      now apply N.eqb_eq. }
    rewrite T in H1. discriminate H1. }
  destruct Hx as [->|Hx], Hd as [->|Hd].
  - reflexivity.
  - now destruct (F d Hd).
  - now destruct (F x Hx).
  - now apply IH.
Qed.

(** The save of a touched copy changes the record with its id and no
    other. *)
Lemma saved_access_spec (db : Collection) (now : Z) (mem d y : ContractSignature) :
  ids_distinct (map doc_id db) = true -> In d db -> doc_id mem = doc_id d ->
  (In y (saved_access db now mem)
   <-> y = write_access now mem d \/ (In y db /\ doc_id y <> doc_id d)).
Proof.
  intros Hu Hd Hid. unfold saved_access. rewrite in_map_iff, Hid. split.
  - intros (x & E & Hx). destruct (N.eqb_spec (doc_id x) (doc_id d)) as [Ex|Ex].
    + left. now rewrite <- E, (ids_distinct_unique db x d Hu Hx Hd Ex).
    + right. subst y. now split.
  - intros [->|[Hy Ey]].
    + exists d. now rewrite N.eqb_refl.
    + exists y. apply N.eqb_neq in Ey. now rewrite Ey.
Qed.

Lemma findById_saved_access (db : Collection) (id u : N) (now : Z)
      (mem d : ContractSignature) :
  findById db id u = Some d -> doc_id mem = doc_id d ->
  findById (saved_access db now mem) id u = Some (write_access now mem d).
Proof.
  intros H Hid. unfold findById, saved_access in *.
  induction db as [|x db IH]; [discriminate|].
  cbn [find map] in *.
  destruct (N.eqb (doc_id x) id && N.eqb (uploadedBy x) u
            && status_eqb (status x) active) eqn:E.
  - injection H as ->. rewrite Hid, N.eqb_refl.
    cbn [doc_id uploadedBy status write_access]. now rewrite E.
  - specialize (IH H).
    destruct (N.eqb (doc_id x) (doc_id mem));
      [cbn [doc_id uploadedBy status write_access]|]; now rewrite E.
Qed.

(** In a consistent collection, GET /contract/:contractId on an active
    record of the caller answers with its decrypted analysis, raises its
    access count by 1, sets its last access to the current time, and
    leaves every other record as it was. *)
Theorem get_contract_counts_access (w : World) (uid id : N) (d : ContractSignature) :
  consistent w = true ->
  findById (db w) id uid = Some d ->
  exists a t,
    getDecryptedAnalysis d = Ok a
    /\ snd (get_contract w uid (Some id))
       = contract_response (write_access (now w) (touch (now w) d) d) a t
    /\ field (snd (get_contract w uid (Some id))) "analysis" = a
    /\ accessCount (write_access (now w) (touch (now w) d) d) = (accessCount d + 1)%Z
    /\ lastAccessed (write_access (now w) (touch (now w) d) d) = now w
    /\ findById (db (fst (get_contract w uid (Some id)))) id uid
       = Some (write_access (now w) (touch (now w) d) d)
    /\ (forall y,
          In y (db (fst (get_contract w uid (Some id))))
          <-> y = write_access (now w) (touch (now w) d) d
              \/ (In y (db w) /\ doc_id y <> id)).
Proof.
  intros Hc Hf. destruct (findById_some _ _ _ _ Hf) as (Hin & Hi & _ & _).
  apply consistent_parts in Hc as (Hr & _ & Hu & _).
  unfold store_readable in Hr. rewrite forallb_forall in Hr.
  destruct (readable_opens d (Hr d Hin)) as (a & c & t & Ha & Hct & Ht).
  exists a, t. split; [exact Ha|].
  unfold get_contract. rewrite Hf.
  rewrite (save_access_present (db w) (now w) (touch (now w) d) d Hin eq_refl).
  change (getDecryptedAnalysis (write_access (now w) (touch (now w) d) (touch (now w) d)))
    with (getDecryptedAnalysis d).
  change (getDecryptedContent (write_access (now w) (touch (now w) d) (touch (now w) d)))
    with (getDecryptedContent d).
  rewrite Ha, Hct. cbn [bind]. rewrite Ht. cbn [fst snd db set_db].
  split; [reflexivity|]. split; [reflexivity|]. split; [reflexivity|].
  split; [reflexivity|]. split.
  - now apply findById_saved_access.
  - intros y. rewrite <- Hi. now apply saved_access_spec.
Qed.

(** In a consistent collection, a cache hit of POST /analyze replaces
    the record found by its copy with the new access count and time, and
    leaves every other record as it was. *)
Theorem cache_hit_changes_one_record
        (w : World) (req : Request) (f : MulterFile) (bytes : Buf.buffer)
        (d : ContractSignature) (proc : ProcResult) :
  consistent w = true ->
  file req = Some f ->
  readFileSync (fs w) (getUploadedFilePath f) = Ok bytes ->
  findOne (db w) (EncryptionService.generateFileHash bytes) (user req) = Some d ->
  forall y,
    In y (db (fst (analyze w req proc)))
    <-> y = write_access (now w) (touch (now w) d) d
        \/ (In y (db w) /\ doc_id y <> doc_id d).
Proof.
  intros Hc Hf Hr Hd y.
  destruct (findOne_some _ _ _ _ Hd) as (Hin & _).
  apply consistent_parts in Hc as (_ & _ & Hu & _).
  rewrite (analyze_hit w req f bytes d proc Hf Hr Hd).
  destruct (analyze_finish_access (delete_upload w (getUploadedFilePath f))
              (touch (now w) d) d Hin eq_refl) as (Hdb & _).
  rewrite Hdb. now apply saved_access_spec.
Qed.

End StoredContract.

(** ** Further properties: the analysis step and the first upload *)

Section FirstUpload.
Import JSON Model Multer Routes.
Local Open Scope string_scope.

(** The analysis step succeeds exactly when the analyzer exits with code
    0 and the line chosen from its output parses to an object whose [ok]
    is not [false] and whose [analysis] is truthy. *)
Theorem analysis_accepted_iff (p : ProcResult) :
  is_ok (run_analysis p) = true
  <-> exit_code p = Some 0%Z
      /\ exists l,
           parse (candidate_line (stdout p)) = Some (VObj l)
           /\ lookup l "ok" <> VBool false
           /\ truthy (lookup l "analysis") = true.
Proof.
  unfold run_analysis, analyzer_promise. split.
  - destruct (parse (candidate_line (stdout p))) as [parsed|]; [|discriminate].
    destruct (get_prop parsed "ok") as [ok|] eqn:Eok; [|discriminate].
    destruct (get_prop parsed "error") as [err|]; [|discriminate].
    destruct (exit_code p) as [[| |]|]; cbn [negb orb]; try discriminate.
    destruct (match ok with VBool false => true | _ => false end) eqn:Ek;
      [discriminate|]. cbn [bind].
    destruct (truthy parsed); cbn [negb orb]; [|discriminate].
    destruct (truthy (lookup_prop parsed "analysis")) eqn:Et; cbn [negb]; [|discriminate].
    intros _. split; [reflexivity|].
    destruct parsed as [ | | | | | | | |l]; try discriminate Et.
    exists l. cbn [get_prop lookup_prop] in *. injection Eok as <-.
    repeat split; try assumption. intros E. rewrite E in Ek. discriminate Ek.
  - intros (Hc & l & Hp & Hok & Ht). rewrite Hp, Hc. cbn [get_prop negb orb].
    destruct (lookup l "ok") as [ | |[|]| | | | | | ]; try (now destruct Hok);
      cbn [bind truthy lookup_prop negb orb]; now rewrite Ht.
Qed.

Lemma nonblank_length (s : string) : String.length s <> 0 -> nonblank s = true.
Proof. now destruct s. Qed.

(** Payloads that open were sealed: none of the six fields is blank. *)
Lemma opened_fields_nonblank (d : ContractSignature) (a c : jsval) :
  getDecryptedAnalysis d = Ok a -> getDecryptedContent d = Ok c ->
  nonblank (encryptedContent d) = true /\ nonblank (encryptedAnalysis d) = true
  /\ nonblank (encryptionKey d) = true /\ nonblank (iv d) = true
  /\ nonblank (contentTag d) = true /\ nonblank (analysisTag d) = true.
Proof.
  assert (B : forall e k v t x,
             EncryptionService.decrypt_body e k v t = Ok x ->
             nonblank e = true /\ nonblank k = true /\ nonblank v = true
             /\ nonblank t = true).
  { intros e k v t x. unfold EncryptionService.decrypt_body, EncryptionService.check_key_iv.
    destruct k as [|k0 k]; [discriminate|].
    destruct (negb _); [discriminate|].
    destruct v as [|v0 v]; [discriminate|].
    destruct (_ || _); [discriminate|]. cbn [bind].
    destruct t as [|t0 t]; [discriminate|].
    destruct (negb _); [discriminate|].
    destruct e as [|e0 e]; [|now intros _].
    cbn [String.length Nat.odd Nat.even negb].
    unfold GCM.decrypt. destruct (list_eq_dec _ _ _); discriminate. }
  unfold getDecryptedAnalysis, getDecryptedContent, decryptData.
  destruct (EncryptionService.decrypt_body (encryptedAnalysis d) _ _ _) eqn:Ea;
    [|discriminate].
  destruct (EncryptionService.decrypt_body (encryptedContent d) _ _ _) eqn:Ec;
    [|discriminate].
  intros _ _. destruct (B _ _ _ _ _ Ea) as (A1 & A2 & A3 & A4).
  destruct (B _ _ _ _ _ Ec) as (C1 & _ & _ & C4). now repeat split.
Qed.

(** The save of a prepared record can be refused by the validators only
    for a blank file name or file type. *)
Lemma prepared_record_valid (w w' : World) (req : Request) (proc : ProcResult)
      (d : ContractSignature) (a t : jsval) (p : string) :
  analyze_start w req proc = (w', AwaitInsert d a t p) ->
  validate d = nonblank (fileName d) && nonblank (fileType d).
Proof.
  intros E.
  destruct (analyze_start_prepared _ _ _ _ _ _ _ _ E)
    as (f & bytes & _ & _ & _ & _ & _ & _ & Hh & _ & _ & _ & _ & _ & _ & Ha & c & Hc & _).
  destruct (opened_fields_nonblank d a c Ha Hc) as (F1 & F2 & F3 & F4 & F5 & F6).
  unfold validate. rewrite F1, F2, F3, F4, F5, F6, Hh, !andb_true_r.
  rewrite nonblank_length; [reflexivity|].
  unfold EncryptionService.generateFileHash. rewrite hex_encode_length, digest_length.
  discriminate.
Qed.

Lemma findOne_unknown_hash (db : Collection) (h : string) (u : N) :
  (forall x, In x db -> fileHash x <> h) -> findOne db h u = None.
Proof.
  intros H. destruct (findOne db h u) as [d|] eqn:E; [|reflexivity].
  destruct (findOne_some _ _ _ _ E) as (Hin & Hh & _). now destruct (H d Hin).
Qed.

Lemma unknown_hash_absent (db : Collection) (h : string) :
  (forall x, In x db -> fileHash x <> h) ->
  existsb (fun x => String.eqb (fileHash x) h) db = false.
Proof.
  intros H. destruct (existsb _ db) eqn:E; [|reflexivity].
  apply existsb_exists in E as (x & Hin & Hx). apply String.eqb_eq in Hx.
  now destruct (H x Hin).
Qed.

(** An upload that the middleware accepts (a type or a name that passes
    the filter, less than 10 MiB), with a file name and a type, of bytes
    whose hash no record holds, and whose analysis succeeds, is
    answered with the analysis and stored as a new active record of the
    uploader, with access count 0, from which the analysis can be
    decrypted; the uploaded file and the temporary directory are
    removed, the analyzer has run once. *)
Theorem fresh_upload_is_stored
        (w : World) (uid : N) (up : Upload) (proc : ProcResult) (analysis text : jsval) :
  fileFilter up = true ->
  (N.of_nat (length (up_bytes up)) < fileSizeLimit)%N ->
  up_name up <> EmptyString -> up_type up <> EmptyString ->
  (forall x, In x (db w) ->
             fileHash x <> EncryptionService.generateFileHash (up_bytes up)) ->
  run_analysis proc = Ok (analysis, text) ->
  exists saved,
    snd (post_analyze w uid (Some up) proc) = analyzed_response saved analysis text
    /\ db (fst (post_analyze w uid (Some up) proc)) = (db w ++ [saved])%list
    /\ fileHash saved = EncryptionService.generateFileHash (up_bytes up)
    /\ uploadedBy saved = uid /\ status saved = active
    /\ accessCount saved = 0%Z /\ doc_id saved = next_id w
    /\ fileName saved = up_name up
    /\ getDecryptedAnalysis saved = Ok analysis
    /\ existsSync (fs (fst (post_analyze w uid (Some up) proc)))
                  (join uploadsDir (up_name up)) = false
    /\ analyzer_runs (fst (post_analyze w uid (Some up) proc)) = S (analyzer_runs w)
    /\ temp_dirs (fst (post_analyze w uid (Some up) proc)) = temp_dirs w.
Proof.
  intros Hfilter Hsize Hname Htype Hnew Hrun.
  assert (N1 : nonblank (up_name up) = true).
  { unfold nonblank. now destruct (String.eqb_spec (up_name up) EmptyString). }
  assert (N2 : nonblank (up_type up) = true).
  { unfold nonblank. now destruct (String.eqb_spec (up_type up) EmptyString). }
  unfold post_analyze, receive, single.
  destruct (String.eqb_spec (up_name up) EmptyString) as [E|_]; [contradiction|].
  rewrite Hfilter. cbn [negb].
  apply N.leb_gt in Hsize. rewrite Hsize.
  assert (Hsafe : or_else (up_name up) ("upload_" ++ decimal (now w)) = up_name up).
  { unfold or_else. destruct (String.eqb_spec (up_name up) EmptyString);
      [contradiction | reflexivity]. }
  rewrite Hsafe.
  set (path := join uploadsDir (up_name up)).
  set (f := mkMulterFile (up_name up) (up_type up) (up_name up) path
                         (Z.of_nat (length (up_bytes up))) None).
  set (w0 := set_fs w (writeFile (fs w) path (up_bytes up))).
  set (req := mkRequest uid (Some f)).
  assert (Hpath : getUploadedFilePath f = path) by reflexivity.
  destruct (run_analysis_ok _ _ _ Hrun) as [Ha Ht].
  destruct (contract_data_image (spawn_analyzer w0) f text Ht) as [Hwc [l Hc]].
  pose proof Ha as Ha'. unfold json_value in Ha'.
  apply andb_true_iff in Ha' as [Hwa Hja].
  destruct (createSignature_opens _ _ _ _ uid (rng (spawn_analyzer w0))
              Hwc Hc Hwa (json_image_id _ Hja)) as (s & Es & _).
  assert (Estart : analyze_start w0 req proc
                   = (take_id (set_rng (spawn_analyzer w0)
                                 (snd (ContractSignatureService.createSignature
                                         (contract_data (spawn_analyzer w0) f text)
                                         analysis uid (rng (spawn_analyzer w0))))),
                      AwaitInsert
                        (new_document
                           (set_rng (spawn_analyzer w0)
                              (snd (ContractSignatureService.createSignature
                                      (contract_data (spawn_analyzer w0) f text)
                                      analysis uid (rng (spawn_analyzer w0)))))
                           (EncryptionService.generateFileHash (up_bytes up)) f uid s)
                        analysis text path)).
  { unfold analyze_start, analysis_step. cbn [file req user]. rewrite path_nonempty, Hpath.
    unfold w0 at 1. cbn [fs set_fs]. rewrite read_after_write.
    rewrite (findOne_unknown_hash _ _ _ Hnew), Hrun.
    destruct (ContractSignatureService.createSignature _ _ _ _) as [sig g].
    cbn [fst snd] in *. now subst sig. }
  set (g := snd (ContractSignatureService.createSignature
                   (contract_data (spawn_analyzer w0) f text)
                   analysis uid (rng (spawn_analyzer w0)))) in *.
  set (d := new_document (set_rng (spawn_analyzer w0) g)
                         (EncryptionService.generateFileHash (up_bytes up)) f uid s) in *.
  assert (Hvalid : validate d = true).
  { rewrite (prepared_record_valid _ _ _ _ _ _ _ _ Estart).
    change (fileName d) with (up_name up). change (fileType d) with (up_type up).
    now rewrite N1, N2. }
  destruct (analyze_start_prepared _ _ _ _ _ _ _ _ Estart)
    as (f' & bytes & _ & _ & _ & _ & _ & _ & _ & _ & _ & _ & _ & _ & _ & Da & _).
  assert (Einsert : exists saved,
             insert (db w) (now w) d = Ok ((db w ++ [saved])%list, saved)
             /\ fileHash saved = EncryptionService.generateFileHash (up_bytes up)
             /\ uploadedBy saved = uid /\ status saved = active
             /\ accessCount saved = 0%Z /\ doc_id saved = next_id w
             /\ fileName saved = up_name up
             /\ getDecryptedAnalysis saved = getDecryptedAnalysis d).
  { unfold insert. rewrite Hvalid. cbn [negb].
    change (fileHash d) with (EncryptionService.generateFileHash (up_bytes up)).
    rewrite (unknown_hash_absent _ _ Hnew).
    eexists. split; [reflexivity|]. repeat split. }
  destruct Einsert as (saved & Ei & S1 & S2 & S3 & S4 & S5 & S6 & S7).
  exists saved. unfold analyze. rewrite Estart. cbn [analyze_finish].
  change (db (take_id (set_rng (spawn_analyzer w0) g))) with (db w).
  change (now (take_id (set_rng (spawn_analyzer w0) g))) with (now w).
  rewrite Ei. cbn [fst snd].
  split; [reflexivity|]. split; [reflexivity|].
  do 6 (split; [assumption|]). split; [now rewrite S7|].
  split; [|split; reflexivity].
  cbn [fs remove_temp_dir delete_upload set_fs set_db].
  apply deleted_upload_gone. reflexivity.
Qed.

End FirstUpload.

(** ** Further properties: the upload directory *)

Section UploadDirectory.
Import JSON Model Multer Routes.
Local Open Scope string_scope.

Lemma unlink_other (files : FS) (p q : string) :
  q <> p -> find (fun e => String.eqb (fst e) q) (unlinkSync files p)
            = find (fun e => String.eqb (fst e) q) files.
Proof.
  intros H. unfold unlinkSync. induction files as [|[r b] files IH]; [reflexivity|].
  cbn [filter find fst]. destruct (String.eqb_spec r p) as [->|Hr]; cbn [negb].
  - destruct (String.eqb_spec p q) as [E|_]; [now destruct H | exact IH].
  - cbn [find fst]. now rewrite IH.
Qed.

(** [deleteFileIfExists] removes the file at the path given, changes no
    other file, does nothing the second time, and does nothing for the
    empty path. *)
Theorem delete_removes_one_file (files : FS) (p : string) :
  (p <> EmptyString -> existsSync (deleteFileIfExists files p) p = false)
  /\ (forall q, q <> p ->
        readFileSync (deleteFileIfExists files p) q = readFileSync files q)
  /\ deleteFileIfExists (deleteFileIfExists files p) p = deleteFileIfExists files p
  /\ deleteFileIfExists files EmptyString = files.
Proof.
  split; [|split; [|split]].
  - intros H. apply deleted_upload_gone. now apply String.eqb_neq.
  - intros q H. unfold deleteFileIfExists, readFileSync.
    destruct (String.eqb p EmptyString); [reflexivity|].
    destruct (existsSync files p); [|reflexivity]. now rewrite unlink_other.
  - unfold deleteFileIfExists at 1.
    destruct (String.eqb p EmptyString) eqn:E; [reflexivity|].
    now rewrite (deleted_upload_gone files p E).
  - reflexivity.
Qed.

(** A named upload of more than 10 MiB is answered with status 500 before
    the handler runs: no record is created, the analyzer is not run, and,
    when the type of the upload is accepted, no file is left under its
    name, not even one that was there before. *)
Theorem oversized_upload_is_refused
        (w : World) (uid : N) (up : Upload) (proc : ProcResult) :
  up_name up <> EmptyString ->
  (fileSizeLimit < N.of_nat (length (up_bytes up)))%N ->
  status_code (snd (post_analyze w uid (Some up) proc)) = 500%Z
  /\ db (fst (post_analyze w uid (Some up) proc)) = db w
  /\ analyzer_runs (fst (post_analyze w uid (Some up) proc)) = analyzer_runs w
  /\ (fileFilter up = true ->
      existsSync (fs (fst (post_analyze w uid (Some up) proc)))
                 (join uploadsDir (up_name up)) = false).
Proof.
  intros Hn H. apply N.lt_le_incl, N.leb_le in H.
  unfold post_analyze, receive, single.
  destruct (String.eqb_spec (up_name up) EmptyString) as [E|_]; [contradiction|].
  destruct (fileFilter up); cbn [negb].
  - rewrite H. cbn [fst snd db fs set_fs analyzer_runs status_code middleware_error].
    repeat split. intros _.
    unfold or_else. destruct (String.eqb_spec (up_name up) EmptyString);
      [contradiction | apply unlink_gone].
  - repeat split. discriminate.
Qed.

(** Uploads are stored under their original name: two accepted uploads
    of the same name, whoever sends them, get the same path, and after
    the second the path holds the bytes of the second. *)
Theorem same_name_uploads_share_a_path
        (w w1 w2 : World) (uid1 uid2 : N) (up1 up2 : Upload) (req1 req2 : Request)
        (f1 f2 : MulterFile) :
  receive w uid1 (Some up1) = (w1, Ok req1) ->
  receive w1 uid2 (Some up2) = (w2, Ok req2) ->
  file req1 = Some f1 -> file req2 = Some f2 ->
  up_name up1 = up_name up2 -> up_name up1 <> EmptyString ->
  getUploadedFilePath f1 = getUploadedFilePath f2
  /\ readFileSync (fs w1) (getUploadedFilePath f1) = Ok (up_bytes up1)
  /\ readFileSync (fs w2) (getUploadedFilePath f1) = Ok (up_bytes up2).
Proof.
  intros E1 E2 F1 F2 Hn Hne.
  assert (N1 : file req1 <> None) by (rewrite F1; discriminate).
  assert (N2 : file req2 <> None) by (rewrite F2; discriminate).
  destruct (receive_accepted _ _ _ _ _ E1 N1) as (g1 & -> & -> & _).
  destruct (receive_accepted _ _ _ _ _ E2 N2) as (g2 & -> & -> & _).
  cbn [file] in F1, F2. injection F1 as ->. injection F2 as ->.
  assert (P : forall w0 w0' uid up f0,
             receive w0 uid (Some up) = (w0', Ok (mkRequest uid (Some f0))) ->
             up_name up <> EmptyString ->
             getUploadedFilePath f0 = join uploadsDir (up_name up)).
  { intros w0 w0' uid up f0. unfold receive, single.
    destruct (String.eqb (up_name up) EmptyString); [discriminate|].
    destruct (negb (fileFilter up)); [discriminate|].
    destruct (fileSizeLimit <=? N.of_nat (length (up_bytes up)))%N; [discriminate|].
    intros [= _ <-] Hu. unfold or_else.
    destruct (String.eqb_spec (up_name up) EmptyString); [contradiction | reflexivity]. }
  pose proof (P _ _ _ _ _ E1 Hne) as P1.
  assert (Hne2 : up_name up2 <> EmptyString) by now rewrite <- Hn.
  pose proof (P _ _ _ _ _ E2 Hne2) as P2.
  split; [now rewrite P1, P2, Hn|]. cbn [fs set_fs]. split.
  - apply read_after_write.
  - rewrite P1, Hn, <- P2. apply read_after_write.
Qed.

End UploadDirectory.

(** ** Further properties: the output of the analyzer *)

Section AnalyzerOutput.
Import JSON Model Multer Routes.
Local Open Scope string_scope.

Lemma list_of_append (a b : string) :
  list_ascii_of_string (a ++ b) = (list_ascii_of_string a ++ list_ascii_of_string b)%list.
Proof. induction a as [|c a IH]; [reflexivity|]. cbn. now rewrite IH. Qed.

Lemma split_lines_one (l cur : list ascii) :
  forallb (fun c => negb (c =? "010")%char) l = true ->
  split_lines cur l = [(rev cur ++ l)%list].
Proof.
  revert cur. induction l as [|c l IH]; intros cur H.
  - cbn [split_lines]. now rewrite app_nil_r.
  - cbn [forallb] in H. apply andb_true_iff in H as [Hc Hl].
    apply negb_true_iff in Hc. cbn [split_lines]. rewrite Hc, (IH _ Hl).
    cbn [rev]. now rewrite <- app_assoc.
Qed.

Lemma split_lines_last (a l cur : list ascii) :
  forallb (fun c => negb (c =? "010")%char) l = true ->
  exists ls, split_lines cur (a ++ "010"%char :: l) = (ls ++ [l])%list.
Proof.
  intros H. revert cur. induction a as [|c a IH]; intros cur.
  - cbn [app split_lines]. rewrite Ascii.eqb_refl, (split_lines_one l [] H).
    now exists [rev cur].
  - cbn [app split_lines]. destruct (c =? "010")%char.
    + destruct (IH []) as [ls E]. rewrite E. now exists (rev cur :: ls).
    + apply IH.
Qed.

(** The shape of a line that holds a result: no space around it, braces
    at its ends. *)
Lemma result_line_ends (l : list ascii) :
  looks_like_json l = true -> trim l = l ->
  (exists r, l = "{"%char :: r) /\ (exists r, rev l = "}"%char :: r).
Proof.
  unfold looks_like_json. intros H T. rewrite T in H.
  apply andb_true_iff in H as [H1 H2]. split.
  - destruct l as [|c r]; [discriminate|]. apply Ascii.eqb_eq in H1. subst. now exists r.
  - destruct (rev l) as [|c r]; [discriminate|]. apply Ascii.eqb_eq in H2. subst.
    now exists r.
Qed.

(** The bytes of a space of two or three bytes are no ASCII characters. *)
Lemma is_space2_bytes (c1 c2 : ascii) :
  is_space2 c1 c2 = true -> (128 <= N_of_ascii c1)%N /\ (128 <= N_of_ascii c2)%N.
Proof.
  unfold is_space2. intros H. apply andb_true_iff in H as [H1 H2].
  apply N.eqb_eq in H1, H2. lia.
Qed.

Lemma is_space3_bytes (c1 c2 c3 : ascii) :
  is_space3 c1 c2 c3 = true ->
  (128 <= N_of_ascii c1)%N /\ (128 <= N_of_ascii c2)%N /\ (128 <= N_of_ascii c3)%N.
Proof.
  unfold is_space3. intros H.
  repeat match type of H with
         | (_ || _) = true => apply orb_true_iff in H as [H|H]
         end;
    repeat match goal with
           | K : (_ && _) = true |- _ => apply andb_true_iff in K as [? ?]
           | K : (_ || _) = true |- _ => apply orb_true_iff in K as [K|K]
           | K : (_ =? _)%N = true |- _ => apply N.eqb_eq in K
           | K : (_ <=? _)%N = true |- _ => apply N.leb_le in K
           end; lia.
Qed.

Lemma is_space2_ascii (c1 c2 : ascii) :
  (N_of_ascii c1 < 128)%N \/ (N_of_ascii c2 < 128)%N -> is_space2 c1 c2 = false.
Proof.
  intros H. destruct (is_space2 c1 c2) eqn:E; [|reflexivity].
  apply is_space2_bytes in E. lia.
Qed.

Lemma is_space3_ascii (c1 c2 c3 : ascii) :
  (N_of_ascii c1 < 128)%N \/ (N_of_ascii c2 < 128)%N \/ (N_of_ascii c3 < 128)%N ->
  is_space3 c1 c2 c3 = false.
Proof.
  intros H. destruct (is_space3 c1 c2 c3) eqn:E; [|reflexivity].
  apply is_space3_bytes in E. lia.
Qed.

Lemma trim_start_cons (c1 : ascii) (r1 : list ascii) :
  trim_start (c1 :: r1)
  = if is_space c1 then trim_start r1
    else match r1 with
         | c2 :: r2 =>
             if is_space2 c1 c2 then trim_start r2
             else match r2 with
                  | c3 :: r3 => if is_space3 c1 c2 c3 then trim_start r3 else c1 :: r1
                  | [] => c1 :: r1
                  end
         | [] => c1 :: r1
         end.
Proof. reflexivity. Qed.

Lemma trim_end_cons (c1 : ascii) (r1 : list ascii) :
  trim_end (c1 :: r1)
  = if is_space c1 then trim_end r1
    else match r1 with
         | c2 :: r2 =>
             if is_space2 c2 c1 then trim_end r2
             else match r2 with
                  | c3 :: r3 => if is_space3 c3 c2 c1 then trim_end r3 else c1 :: r1
                  | [] => c1 :: r1
                  end
         | [] => c1 :: r1
         end.
Proof. reflexivity. Qed.

(** Trimming stops at an ASCII character that is no space. *)
Lemma trim_start_stops (c : ascii) (r : list ascii) :
  is_space c = false -> (N_of_ascii c < 128)%N -> trim_start (c :: r) = c :: r.
Proof.
  intros Hs Hc. rewrite trim_start_cons, Hs.
  destruct r as [|c2 r2]; [reflexivity|].
  rewrite is_space2_ascii by now left.
  destruct r2 as [|c3 r3]; [reflexivity|].
  now rewrite is_space3_ascii by now left.
Qed.

Lemma trim_end_stops (c : ascii) (r : list ascii) :
  is_space c = false -> (N_of_ascii c < 128)%N -> trim_end (c :: r) = c :: r.
Proof.
  intros Hs Hc. rewrite trim_end_cons, Hs.
  destruct r as [|c2 r2]; [reflexivity|].
  rewrite is_space2_ascii by now right.
  destruct r2 as [|c3 r3]; [reflexivity|].
  now rewrite is_space3_ascii by now right; right.
Qed.

(** Trimming the start of a text never cuts into a line that begins with
    a brace. *)
Lemma trim_start_before_line (n : nat) (a r : list ascii) :
  length a <= n ->
  trim_start (a ++ "010"%char :: "{"%char :: r) = "{"%char :: r
  \/ exists a', trim_start (a ++ "010"%char :: "{"%char :: r)
                = (a' ++ "010"%char :: "{"%char :: r)%list.
Proof.
  assert (B : trim_start ("010"%char :: "{"%char :: r) = "{"%char :: r).
  { rewrite trim_start_cons. change (is_space "010"%char) with true. cbv iota.
    now apply trim_start_stops. }
  revert a. induction n as [|n IH]; intros a Hn.
  - destruct a; [|cbn [length] in Hn; lia]. now left.
  - destruct a as [|c1 a1]; [now left|].
    + cbn [length] in Hn. cbn [app]. rewrite trim_start_cons.
      destruct (is_space c1); [apply IH; lia|].
      destruct a1 as [|c2 a2].
      * cbn [app]. rewrite is_space2_ascii by (right; reflexivity).
        rewrite is_space3_ascii by (right; left; reflexivity).
        right. now exists [c1].
      * cbn [length] in Hn. cbn [app].
        destruct (is_space2 c1 c2); [apply IH; lia|].
        destruct a2 as [|c3 a3].
        -- cbn [app]. rewrite is_space3_ascii by (right; right; reflexivity).
           right. now exists [c1; c2].
        -- cbn [length] in Hn. cbn [app].
           destruct (is_space3 c1 c2 c3); [apply IH; lia|].
           right. now exists (c1 :: c2 :: c3 :: a3).
Qed.

Lemma trim_keeps_result_line (a l : list ascii) :
  looks_like_json l = true -> trim l = l ->
  trim (a ++ "010"%char :: l) = l
  \/ exists a', trim (a ++ "010"%char :: l) = (a' ++ "010"%char :: l)%list.
Proof.
  intros H T. destruct (result_line_ends l H T) as [[r Hr] [r' Hr']].
  assert (S : trim_start (a ++ "010"%char :: l) = l
              \/ exists a', trim_start (a ++ "010"%char :: l) = (a' ++ "010"%char :: l)%list).
  { rewrite Hr. apply (trim_start_before_line (length a)). apply le_n. }
  assert (E : forall x, trim_end (rev l ++ x) = (rev l ++ x)%list).
  { intros x. rewrite Hr'. now apply trim_end_stops. }
  unfold trim. destruct S as [->|[a' ->]].
  - left. rewrite <- (app_nil_r (rev l)), E, app_nil_r. apply rev_involutive.
  - right. exists a'. rewrite rev_app_distr. cbn [rev]. rewrite <- app_assoc.
    rewrite E. rewrite rev_app_distr, rev_involutive. cbn [rev app].
    rewrite <- app_assoc. cbn [app]. now rewrite rev_involutive.
Qed.

Lemma candidate_of_lines (ls : list (list ascii)) (l : list ascii) :
  looks_like_json l = true ->
  find looks_like_json (rev (filter nonempty (ls ++ [l]))) = Some l.
Proof.
  intros H. rewrite filter_app. cbn [filter].
  assert (N : nonempty l = true).
  { destruct l; [discriminate H | reflexivity]. }
  rewrite N, rev_app_distr. cbn [rev app find]. now rewrite H.
Qed.

(** The result of the analyzer is read from the last line of its
    output: what it printed on earlier lines changes neither the line
    chosen nor the outcome of the analysis step. *)
Theorem result_is_read_from_last_line (before line : string) :
  looks_like_json (list_ascii_of_string line) = true ->
  trim (list_ascii_of_string line) = list_ascii_of_string line ->
  forallb (fun c => negb (c =? "010")%char) (list_ascii_of_string line) = true ->
  candidate_line (before ++ String "010" line) = line
  /\ candidate_line line = line
  /\ forall code err,
       run_analysis (mkProcResult code (before ++ String "010" line) err)
       = run_analysis (mkProcResult code line err).
Proof.
  intros H T N.
  pose proof (candidate_of_lines [] _ H) as K. cbn [app] in K.
  assert (C1 : candidate_line (before ++ String "010" line) = line).
  { unfold candidate_line. rewrite list_of_append. cbn [list_ascii_of_string].
    destruct (trim_keeps_result_line (list_ascii_of_string before) _ H T) as [->|[a' ->]].
    - rewrite (split_lines_one _ [] N). cbn [rev app].
      rewrite K. apply string_of_list_ascii_of_string.
    - destruct (split_lines_last a' _ [] N) as [ls ->].
      rewrite (candidate_of_lines ls _ H). apply string_of_list_ascii_of_string. }
  assert (C2 : candidate_line line = line).
  { unfold candidate_line. rewrite T, (split_lines_one _ [] N). cbn [rev app].
    rewrite K. apply string_of_list_ascii_of_string. }
  split; [exact C1|]. split; [exact C2|].
  intros code err. unfold run_analysis, analyzer_promise. cbn [stdout exit_code stderr].
  now rewrite C1, C2.
Qed.

End AnalyzerOutput.

(** ** Further properties: content hashes and fingerprints *)

Section ContentHash.
Import Buf JSON EncryptionService ContractSignatureService.
Local Open Scope string_scope.

Example content_hash_sample :
  generateContentHash (String "009" "  Hello   World" ++ String "010" " ")
  = Some "b94d27b9934d3e08a52e52d7da7dabfac484efe37a5380ee9088f7ace2efcde9".
Proof. vm_compute. reflexivity. Qed.

Ltac each_char c := destruct c as [[] [] [] [] [] [] [] []]; try reflexivity; try discriminate.

Lemma lower_blank (c : ascii) : is_blank (lower c) = is_blank c.
Proof. each_char c. Qed.

Lemma lower_idempotent (c : ascii) : lower (lower c) = lower c.
Proof. each_char c. Qed.

Lemma lower_ascii7 (c : ascii) : is_ascii7 (lower c) = is_ascii7 c.
Proof. each_char c. Qed.

Lemma blank_ascii7 (c : ascii) : is_blank c = true -> is_ascii7 c = true.
Proof. each_char c. Qed.

Lemma blank_lower (c : ascii) : is_blank c = true -> lower c = c.
Proof. each_char c. Qed.

Lemma squeeze_lower (fl : bool) (s : list ascii) :
  squeeze fl (map lower s) = map lower (squeeze fl s).
Proof.
  revert fl. induction s as [|c s IH]; intros fl; [reflexivity|].
  cbn [map squeeze]. rewrite lower_blank.
  destruct (is_blank c); [destruct fl|]; cbn [map]; now rewrite IH.
Qed.

Lemma strip_start_lower (s : list ascii) :
  strip_start (map lower s) = map lower (strip_start s).
Proof.
  induction s as [|c s IH]; [reflexivity|].
  cbn [map strip_start]. rewrite lower_blank. now destruct (is_blank c).
Qed.

Lemma strip_lower (s : list ascii) : strip (map lower s) = map lower (strip s).
Proof.
  unfold strip. now rewrite strip_start_lower, <- map_rev, strip_start_lower, map_rev.
Qed.

Lemma normalize_lower (s : list ascii) : normalize (map lower s) = normalize s.
Proof.
  unfold normalize. rewrite squeeze_lower, strip_lower, map_map.
  apply map_ext. apply lower_idempotent.
Qed.

Lemma squeeze_blank_kind (fl : bool) (a b : list ascii) (c c' : ascii) :
  is_blank c = true -> is_blank c' = true ->
  squeeze fl (a ++ c :: b)%list = squeeze fl (a ++ c' :: b)%list.
Proof.
  intros H H'. revert fl. induction a as [|x a IH]; intros fl.
  - cbn [app squeeze]. now rewrite H, H'.
  - cbn [app squeeze]. destruct (is_blank x); [destruct fl|]; now rewrite IH.
Qed.

Lemma squeeze_blank_twice (fl : bool) (a b : list ascii) (c c' : ascii) :
  is_blank c = true -> is_blank c' = true ->
  squeeze fl (a ++ c :: c' :: b)%list = squeeze fl (a ++ c :: b)%list.
Proof.
  intros H H'. revert fl. induction a as [|x a IH]; intros fl.
  - cbn [app squeeze]. now rewrite H, H'.
  - cbn [app squeeze]. destruct (is_blank x); [destruct fl|]; now rewrite IH.
Qed.

Lemma strip_start_squeeze (s : list ascii) :
  strip_start (squeeze true s) = strip_start (squeeze false s).
Proof.
  destruct s as [|c s]; [reflexivity|]. cbn [squeeze].
  destruct (is_blank c); reflexivity.
Qed.

Lemma squeeze_snoc (fl : bool) (s : list ascii) (c : ascii) :
  is_blank c = true ->
  squeeze fl (s ++ [c])%list = squeeze fl s
  \/ squeeze fl (s ++ [c])%list = (squeeze fl s ++ [" "%char])%list.
Proof.
  intros H. revert fl. induction s as [|x s IH]; intros fl.
  - cbn [app squeeze]. rewrite H. destruct fl; [now left | now right].
  - cbn [app squeeze]. destruct (is_blank x); [destruct fl|].
    + apply IH.
    + destruct (IH true) as [E|E]; rewrite E; [now left | now right].
    + destruct (IH false) as [E|E]; rewrite E; [now left | now right].
Qed.

Lemma strip_start_snoc (s : list ascii) (c : ascii) :
  is_blank c = true ->
  (strip_start s = [] /\ strip_start (s ++ [c])%list = [])
  \/ strip_start (s ++ [c])%list = (strip_start s ++ [c])%list.
Proof.
  intros H. induction s as [|x s IH].
  - left. cbn [app strip_start]. now rewrite H.
  - cbn [app strip_start]. destruct (is_blank x); [exact IH | now right].
Qed.

Lemma strip_snoc (s : list ascii) (c : ascii) :
  is_blank c = true -> strip (s ++ [c])%list = strip s.
Proof.
  intros H. unfold strip. destruct (strip_start_snoc s c H) as [[E1 E2]|E].
  - now rewrite E1, E2.
  - rewrite E, rev_app_distr. cbn [rev app strip_start]. now rewrite H.
Qed.

Lemma strip_cons (s : list ascii) (c : ascii) :
  is_blank c = true -> strip (c :: s) = strip s.
Proof. intros H. unfold strip. cbn [strip_start]. now rewrite H. Qed.

Lemma normalize_leading (s : list ascii) (c : ascii) :
  is_blank c = true -> normalize (c :: s) = normalize s.
Proof.
  intros H. unfold normalize. cbn [squeeze]. rewrite H.
  rewrite strip_cons by reflexivity. unfold strip. now rewrite strip_start_squeeze.
Qed.

Lemma normalize_trailing (s : list ascii) (c : ascii) :
  is_blank c = true -> normalize (s ++ [c])%list = normalize s.
Proof.
  intros H. unfold normalize. destruct (squeeze_snoc false s c H) as [->| ->].
  - reflexivity.
  - now rewrite strip_snoc.
Qed.

Lemma content_hash_of_list (l : list ascii) :
  generateContentHash (string_of_list_ascii l)
  = if forallb is_ascii7 l then Some (Hex.encode (SHA256.digest (normalize l))) else None.
Proof. unfold generateContentHash. now rewrite list_ascii_of_string_of_list_ascii. Qed.

(** On ASCII text the content hash does not change when letters change
    case, when a white-space character is replaced by another or
    repeated, or when white space is put in front or at the end; it is
    64 hexadecimal digits. *)
Theorem content_hash_ignores_case_and_spacing (a b : list ascii) (c c' : ascii) :
  is_blank c = true -> is_blank c' = true ->
  generateContentHash (string_of_list_ascii (map lower a))
  = generateContentHash (string_of_list_ascii a)
  /\ generateContentHash (string_of_list_ascii (a ++ c :: b))
     = generateContentHash (string_of_list_ascii (a ++ c' :: b))
  /\ generateContentHash (string_of_list_ascii (a ++ c :: c' :: b))
     = generateContentHash (string_of_list_ascii (a ++ c :: b))
  /\ generateContentHash (string_of_list_ascii (c :: a))
     = generateContentHash (string_of_list_ascii a)
  /\ generateContentHash (string_of_list_ascii (a ++ [c]))
     = generateContentHash (string_of_list_ascii a)
  /\ (forall h, generateContentHash (string_of_list_ascii a) = Some h ->
                String.length h = 64).
Proof.
  intros H H'. pose proof (blank_ascii7 c H) as A. pose proof (blank_ascii7 c' H') as A'.
  rewrite !content_hash_of_list. split; [|split; [|split; [|split; [|split]]]].
  - rewrite normalize_lower. replace (forallb is_ascii7 (map lower a))
      with (forallb is_ascii7 a); [reflexivity|].
    induction a as [|x a IH]; [reflexivity|]. cbn [map forallb].
    now rewrite lower_ascii7, IH.
  - rewrite !forallb_app. cbn [forallb]. rewrite A, A'.
    unfold normalize. now rewrite (squeeze_blank_kind false a b c c' H H').
  - rewrite !forallb_app. cbn [forallb]. rewrite A, A'. cbn [andb].
    unfold normalize. now rewrite (squeeze_blank_twice false a b c c' H H').
  - cbn [forallb]. rewrite A. cbn [andb]. now rewrite normalize_leading.
  - rewrite forallb_app. cbn [forallb]. rewrite A, !andb_true_r.
    now rewrite normalize_trailing.
  - intros h. destruct (forallb is_ascii7 a); [|discriminate].
    intros [= <-]. now rewrite hex_encode_length, digest_length.
Qed.

(** The fingerprint of a contract does not depend on the case of the
    letters of the extracted text; its three parts are the file hash,
    the content hash and the SHA-256 of their concatenation, 64
    hexadecimal digits each. *)
Theorem fingerprint_shape (fileBuffer : buffer) (text : list ascii) :
  generateContractFingerprint fileBuffer (string_of_list_ascii (map lower text))
  = generateContractFingerprint fileBuffer (string_of_list_ascii text)
  /\ forall fp,
       generateContractFingerprint fileBuffer (string_of_list_ascii text) = Some fp ->
       fp_fileHash fp = generateFileHash fileBuffer
       /\ generateContentHash (string_of_list_ascii text) = Some (fp_contentHash fp)
       /\ String.length (fp_fileHash fp) = 64
       /\ String.length (fp_contentHash fp) = 64
       /\ String.length (fingerprint fp) = 64
       /\ Hex.decode (fingerprint fp)
          = SHA256.digest (of_string (fp_fileHash fp ++ fp_contentHash fp)).
Proof.
  unfold generateContractFingerprint. rewrite !content_hash_of_list. split.
  - rewrite normalize_lower. replace (forallb is_ascii7 (map lower text))
      with (forallb is_ascii7 text); [reflexivity|].
    induction text as [|x a IH]; [reflexivity|]. cbn [map forallb].
    now rewrite lower_ascii7, IH.
  - intros fp. destruct (forallb is_ascii7 text); [|discriminate].
    intros [= <-]. cbn [fp_fileHash fp_contentHash fingerprint].
    split; [reflexivity|]. split; [reflexivity|].
    unfold generateFileHash.
    rewrite !hex_encode_length, !digest_length, hex_decode_encode. now repeat split.
Qed.

End ContentHash.

(** ** Further properties: what a request leaves behind *)

Section Leftovers.
Import JSON Model Multer Routes.
Local Open Scope string_scope.

Lemma analysis_catch_plain_error (w : World) (p msg : string) :
  analysis_catch w p (new_Error msg) = (delete_upload w p, analyze_failed (new_Error msg)).
Proof. reflexivity. Qed.

(** The errors of the signature service and of the insert are plain. *)
Lemma createSignature_error (c a : jsval) (u : N) (g : Rng) (e : JsError) :
  fst (ContractSignatureService.createSignature c a u g) = Throw e ->
  response_status e = None.
Proof.
  rewrite createSignature_eq. cbn [fst]. cbv zeta.
  unfold EncryptionService.encrypt.
  destruct (EncryptionService.encrypt_body c _ _); cbn [bind].
  - destruct (EncryptionService.encrypt_body a _ _); cbn [bind]; [discriminate|].
    now intros [= <-].
  - now intros [= <-].
Qed.

Lemma insert_error (db : Collection) (now : Z) (d : ContractSignature) (e : JsError) :
  insert db now d = Throw e -> response_status e = None.
Proof.
  unfold insert. destruct (negb (validate d)); [now intros [= <-]|].
  destruct (existsb _ db); [now intros [= <-] | discriminate].
Qed.

Lemma gone_after_finish (w : World) (p : Pending) (q : string) :
  existsSync (fs w) q = false \/ match p with
                                 | AwaitInsert _ _ _ q' => q' = q
                                 | _ => False
                                 end ->
  String.eqb q EmptyString = false ->
  existsSync (fs (fst (analyze_finish w p))) q = false.
Proof.
  intros H Hq. destruct p as [r | mem | d a t q']; cbn [analyze_finish].
  - destruct H as [H|[]]. exact H.
  - destruct H as [H|[]]. destruct (save_access _ _ _) as [[db' saved]|e]; [|exact H].
    match goal with |- context [match ?x with Ok _ => _ | Throw _ => _ end] =>
      destruct x as [[? ?]|?] end; exact H.
  - destruct (insert _ _ _) as [[db' saved]|e] eqn:E.
    + cbn [fst fs remove_temp_dir delete_upload set_fs set_db].
      destruct H as [H| ->]; [|now apply deleted_upload_gone].
      unfold deleteFileIfExists. destruct (String.eqb q' EmptyString); [exact H|].
      destruct (existsSync (fs w) q'); [|exact H].
      unfold existsSync, unlinkSync in *. clear -H.
      induction (fs w) as [|[r b] files IH]; [reflexivity|].
      cbn [existsb filter fst] in *. apply orb_false_iff in H as [H1 H2].
      destruct (negb (String.eqb r q')); [cbn [existsb fst]; now rewrite H1, IH | now apply IH].
    + rewrite (analysis_catch_plain _ _ _ (insert_error _ _ _ _ E)).
      cbn [fst fs delete_upload set_fs].
      destruct H as [H| ->]; [|now apply deleted_upload_gone].
      unfold deleteFileIfExists. destruct (String.eqb q' EmptyString); [exact H|].
      destruct (existsSync (fs w) q'); [|exact H].
      unfold existsSync, unlinkSync in *. clear -H.
      induction (fs w) as [|[r b] files IH]; [reflexivity|].
      cbn [existsb filter fst] in *. apply orb_false_iff in H as [H1 H2].
      destruct (negb (String.eqb r q')); [cbn [existsb fst]; now rewrite H1, IH | now apply IH].
Qed.

Lemma gone_after_save (c : Conditions) (w : World) (p : Pending) (q : string) :
  existsSync (fs w) q = false \/ match p with
                                 | AwaitInsert _ _ _ q' => q' = q
                                 | _ => False
                                 end ->
  String.eqb q EmptyString = false ->
  existsSync (fs (fst (save_under c w p))) q = false.
Proof.
  intros H Hq. unfold save_under.
  destruct (save_rejected c) as [msg|]; [|now apply gone_after_finish].
  destruct p as [r | mem | d a t q'].
  - now apply gone_after_finish.
  - now destruct H as [H|[]].
  - rewrite analysis_catch_plain_error. cbn [fst fs delete_upload set_fs].
    destruct H as [H| ->]; [|now apply deleted_upload_gone].
    unfold deleteFileIfExists. destruct (String.eqb q' EmptyString); [exact H|].
    destruct (existsSync (fs w) q'); [|exact H].
    unfold existsSync, unlinkSync in *. clear -H.
    induction (fs w) as [|[r b] files IH]; [reflexivity|].
    cbn [existsb filter fst] in *. apply orb_false_iff in H as [H1 H2].
    destruct (negb (String.eqb r q')); [cbn [existsb fst]; now rewrite H1, IH | now apply IH].
Qed.

(** After the analysis step the upload is gone, or it is named in the
    save that is to follow. *)
Lemma analysis_step_upload (w : World) (uid : N) (f : MulterFile) (h : string)
      (proc : ProcResult) :
  existsSync (fs (fst (analysis_step w uid f (getUploadedFilePath f) h proc)))
             (getUploadedFilePath f) = false
  \/ match snd (analysis_step w uid f (getUploadedFilePath f) h proc) with
     | AwaitInsert _ _ _ q' => q' = getUploadedFilePath f
     | _ => False
     end.
Proof.
  assert (G : forall v, existsSync (fs (delete_upload v (getUploadedFilePath f)))
                                   (getUploadedFilePath f) = false).
  { intros v. cbn [fs delete_upload set_fs]. apply deleted_upload_gone, path_nonempty. }
  unfold analysis_step.
  destruct (run_analysis proc) as [[analysis text]|e] eqn:Ea.
  - destruct (ContractSignatureService.createSignature _ _ _ _) as [[s|e] g] eqn:Es.
    + now right.
    + rewrite (analysis_catch_plain _ _ e).
      * left. apply G.
      * exact (createSignature_error _ _ _ _ _ (f_equal fst Es)).
  - rewrite (analysis_catch_plain _ _ _ (run_analysis_error _ _ Ea)). left. apply G.
Qed.

(** The handler under conditions that let it run to its end is the
    handler run without interruption. *)
Lemma analyze_under_served (w : World) (req : Request) (proc : ProcResult) :
  analyze_under (served proc) w req
  = (fst (analyze w req proc), Some (snd (analyze w req proc))).
Proof.
  unfold analyze_under, analyze, analyze_start. cbn [served lookup_rejected analyzer].
  destruct (file req) as [f|]; [|reflexivity].
  destruct (String.eqb _ _); [reflexivity|].
  destruct (readFileSync _ _) as [bytes|e]; [|reflexivity].
  destruct (findOne _ _ _) as [d|].
  - change (save_under (served proc)) with analyze_finish.
    now destruct (analyze_finish _ _).
  - destruct (analysis_step _ _ _ _ _ _) as [w2 p].
    change (save_under (served proc) w2 p) with (analyze_finish w2 p).
    now destruct (analyze_finish w2 p).
Qed.

(** The file that the middleware stored for a named upload to POST
    /analyze is there when the handler starts.  When the lookup is served,
    the file is gone once the request has been answered: on a cache hit,
    on success, on a failed analysis and on a failed save.  When the
    lookup is rejected, the request is answered with status 500 and the
    file stays; and it stays when the request is left without an
    answer. *)
Theorem upload_removed_when_lookup_served
        (c : Conditions) (w w1 : World) (uid : N) (up : Upload)
        (req : Request) (f : MulterFile) :
  up_name up <> EmptyString ->
  receive w uid (Some up) = (w1, Ok req) -> file req = Some f ->
  existsSync (fs w1) (getUploadedFilePath f) = true
  /\ (lookup_rejected c = None ->
      snd (post_analyze_under c w uid (Some up)) <> None ->
      existsSync (fs (fst (post_analyze_under c w uid (Some up))))
                 (getUploadedFilePath f) = false)
  /\ (forall msg, lookup_rejected c = Some msg ->
        snd (post_analyze_under c w uid (Some up))
        = Some (failure 500 "Failed to analyze contract" (Some msg))
        /\ existsSync (fs (fst (post_analyze_under c w uid (Some up))))
                      (getUploadedFilePath f) = true)
  /\ (snd (post_analyze_under c w uid (Some up)) = None ->
      existsSync (fs (fst (post_analyze_under c w uid (Some up))))
                 (getUploadedFilePath f) = true).
Proof.
  intros _ Er Hf. unfold post_analyze_under. rewrite Er.
  assert (Hfile : file req <> None) by (rewrite Hf; discriminate).
  destruct (receive_accepted _ _ _ _ _ Er Hfile) as (f' & -> & -> & _).
  cbn [file] in Hf. injection Hf as ->.
  set (w0 := set_fs w (writeFile (fs w) (getUploadedFilePath f) (up_bytes up))).
  assert (Hthere : existsSync (fs w0) (getUploadedFilePath f) = true).
  { unfold w0. cbn [fs set_fs]. unfold existsSync, writeFile. cbn [existsb fst].
    now rewrite String.eqb_refl. }
  assert (R : readFileSync (fs w0) (getUploadedFilePath f) = Ok (up_bytes up))
    by apply read_after_write.
  split; [exact Hthere|].
  unfold analyze_under. cbn [file user]. rewrite path_nonempty, R.
  destruct (lookup_rejected c) as [msg|].
  - split; [discriminate|]. split; [|discriminate].
    intros m [= <-]. now split.
  - split; [|split; [discriminate|]].
    + intros _. destruct (findOne _ _ _) as [d|].
      * intros _.
        pose proof (gone_after_save c (delete_upload w0 (getUploadedFilePath f))
                      (AwaitAccessSave
                         (touch (now (delete_upload w0 (getUploadedFilePath f))) d))
                      (getUploadedFilePath f)) as G.
        destruct (save_under c _ _) as [w2 r]. cbn [fst] in *. apply G.
        -- left. cbn [fs delete_upload set_fs]. apply deleted_upload_gone, path_nonempty.
        -- apply path_nonempty.
      * destruct (analyzer c) as [proc|]; [|intros H; now destruct H].
        intros _.
        pose proof (analysis_step_upload (spawn_analyzer w0) uid f
                      (EncryptionService.generateFileHash (up_bytes up)) proc) as S.
        destruct (analysis_step _ _ _ _ _ _) as [w2 p]. cbn [fst snd] in S.
        pose proof (gone_after_save c w2 p (getUploadedFilePath f) S (path_nonempty f)) as G.
        destruct (save_under c w2 p) as [w3 r]. exact G.
    + destruct (findOne _ _ _) as [d|].
      * destruct (save_under c _ _) as [w2 r]. discriminate.
      * destruct (analyzer c) as [proc|]; [|intros _; exact Hthere].
        destruct (analysis_step _ _ _ _ _ _) as [w2 p].
        destruct (save_under c w2 p) as [w3 r]. discriminate.
Qed.

Lemma temp_dir_accounting (w : World) (req : Request) (proc : ProcResult) :
  analyzer_runs (fst (analyze w req proc)) = S (analyzer_runs w)
  /\ temp_dirs (fst (analyze w req proc))
     = (if match field (snd (analyze w req proc)) "isDuplicate" with
           | VBool false => true
           | _ => false
           end
        then temp_dirs w else S (temp_dirs w))
  \/ analyzer_runs (fst (analyze w req proc)) = analyzer_runs w
     /\ temp_dirs (fst (analyze w req proc)) = temp_dirs w.
Proof.
  unfold analyze, analyze_start, analysis_step.
  destruct (file req) as [f|]; [|now right].
  destruct (String.eqb _ _); [now right|].
  destruct (readFileSync _ _) as [bytes|e]; [|now right].
  destruct (findOne _ _ _).
  - right. cbn [analyze_finish]. destruct (save_access _ _ _) as [[db' saved]|e];
      [|now split].
    match goal with |- context [match ?x with Ok _ => _ | Throw _ => _ end] =>
      destruct x as [[? ?]|?] end; now split.
  - left. destruct (run_analysis proc) as [[analysis text]|e] eqn:Ea.
    + destruct (ContractSignatureService.createSignature _ _ _ _) as [[s|e] g] eqn:Es.
      * cbn [analyze_finish]. destruct (insert _ _ _) as [[db' saved]|e] eqn:Ei.
        -- now split.
        -- rewrite (analysis_catch_plain _ _ _ (insert_error _ _ _ _ Ei)). now split.
      * rewrite (analysis_catch_plain _ _ e).
        -- now split.
        -- exact (createSignature_error _ _ _ _ _ (f_equal fst Es)).
    + rewrite (analysis_catch_plain _ _ _ (run_analysis_error _ _ Ea)). now split.
Qed.

(** When the analyzer has been started and the request does not end with
    a new record, the temporary directory made for the analyzer stays:
    the [catch] block names [tempDir], which is out of its scope.  It is
    removed on success, and none is made when the analyzer is not
    started. *)
Theorem failed_analysis_leaves_temp_dir (w : World) (req : Request) (proc : ProcResult) :
  (analyzer_runs (fst (analyze w req proc)) = S (analyzer_runs w) ->
   field (snd (analyze w req proc)) "isDuplicate" <> VBool false ->
   temp_dirs (fst (analyze w req proc)) = S (temp_dirs w))
  /\ (field (snd (analyze w req proc)) "isDuplicate" = VBool false ->
      temp_dirs (fst (analyze w req proc)) = temp_dirs w)
  /\ (analyzer_runs (fst (analyze w req proc)) = analyzer_runs w ->
      temp_dirs (fst (analyze w req proc)) = temp_dirs w).
Proof.
  destruct (temp_dir_accounting w req proc) as [[Hr Ht]|[Hr Ht]]; rewrite Ht.
  - split; [|split].
    + intros _ Hn.
      destruct (field (snd (analyze w req proc)) "isDuplicate") as [ | |[|]| | | | | | ];
        try reflexivity. now destruct Hn.
    + now intros ->.
    + intros E. rewrite E in Hr. now destruct (n_Sn _ Hr).
  - split; [|split]; try reflexivity.
    intros E. rewrite E in Hr. now destruct (n_Sn _ (eq_sym Hr)).
Qed.

End Leftovers.

(** ** Further properties: two uploads at the same time *)

Section TwoUploads.
Import JSON Model Multer Routes.
Local Open Scope string_scope.

(** A miss with a successful analysis prepares a record. *)
Lemma analyze_start_miss (w : World) (uid : N) (f : MulterFile) (bytes : Buf.buffer)
      (proc : ProcResult) (a t : jsval) :
  readFileSync (fs w) (getUploadedFilePath f) = Ok bytes ->
  findOne (db w) (EncryptionService.generateFileHash bytes) uid = None ->
  run_analysis proc = Ok (a, t) ->
  exists w' d,
    analyze_start w (mkRequest uid (Some f)) proc
    = (w', AwaitInsert d a t (getUploadedFilePath f))
    /\ db w' = db w /\ fs w' = fs w /\ now w' = now w
    /\ next_id w' = (next_id w + 1)%N
    /\ fileName d = originalname f /\ fileType d = mimetype f
    /\ fileHash d = EncryptionService.generateFileHash bytes
    /\ uploadedBy d = uid /\ doc_id d = next_id w.
Proof.
  intros Hr Hf Ha.
  destruct (run_analysis_ok _ _ _ Ha) as [Hv Ht].
  destruct (contract_data_image (spawn_analyzer w) f t Ht) as [Hwc [l Hc]].
  unfold json_value in Hv. apply andb_true_iff in Hv as [Hwa Hja].
  destruct (createSignature_opens _ _ _ _ uid (rng (spawn_analyzer w))
              Hwc Hc Hwa (json_image_id _ Hja)) as (s & Es & _).
  unfold analyze_start, analysis_step. cbn [file user]. rewrite path_nonempty, Hr, Hf, Ha.
  destruct (ContractSignatureService.createSignature _ _ _ _) as [sig g].
  cbn [fst] in Es. subst sig. eexists. eexists. split; [reflexivity|].
  repeat split.
Qed.

(** The insert of a prepared record whose hash is not taken. *)
Lemma analyze_finish_insert (w0 w' w : World) (req : Request) (proc : ProcResult)
      (d : ContractSignature) (a t : jsval) (p : string) :
  analyze_start w0 req proc = (w', AwaitInsert d a t p) ->
  fileName d <> EmptyString -> fileType d <> EmptyString ->
  (forall x, In x (db w) -> fileHash x <> fileHash d) ->
  exists saved,
    analyze_finish w (AwaitInsert d a t p)
    = (remove_temp_dir (delete_upload (set_db w (db w ++ [saved])%list) p),
       analyzed_response saved a t)
    /\ fileHash saved = fileHash d /\ uploadedBy saved = uploadedBy d
    /\ status saved = active /\ doc_id saved = doc_id d
    /\ getDecryptedAnalysis saved = Ok a.
Proof.
  intros Es Hn Ht Hnew.
  pose proof (prepared_record_valid _ _ _ _ _ _ _ _ Es) as Hvalid.
  destruct (analyze_start_prepared _ _ _ _ _ _ _ _ Es)
    as (f & bytes & _ & _ & _ & _ & _ & _ & _ & _ & Hst & _ & _ & _ & _ & Da & _).
  assert (V : validate d = true).
  { rewrite Hvalid. unfold nonblank.
    destruct (String.eqb_spec (fileName d) EmptyString); [contradiction|].
    now destruct (String.eqb_spec (fileType d) EmptyString). }
  cbn [analyze_finish]. unfold insert. rewrite V. cbn [negb].
  rewrite (unknown_hash_absent _ _ Hnew).
  eexists. split; [reflexivity|]. cbn [fileHash uploadedBy status doc_id].
  split; [reflexivity|]. split; [reflexivity|]. split; [exact Hst|].
  split; [reflexivity|]. exact Da.
Qed.

Lemma receive_stores (w : World) (uid : N) (up : Upload) :
  fileFilter up = true ->
  (N.of_nat (length (up_bytes up)) < fileSizeLimit)%N ->
  up_name up <> EmptyString ->
  exists f,
    receive w uid (Some up)
    = (set_fs w (writeFile (fs w) (getUploadedFilePath f) (up_bytes up)),
       Ok (mkRequest uid (Some f)))
    /\ originalname f = up_name up /\ mimetype f = up_type up.
Proof.
  intros Hf Hs Hn. unfold receive, single.
  destruct (String.eqb_spec (up_name up) EmptyString) as [E|_]; [contradiction|].
  rewrite Hf. cbn [negb]. apply N.leb_gt in Hs. rewrite Hs.
  exists (mkMulterFile (up_name up) (up_type up)
            (or_else (up_name up) ("upload_" ++ decimal (now w)))
            (join uploadsDir (or_else (up_name up) ("upload_" ++ decimal (now w))))
            (Z.of_nat (length (up_bytes up))) None).
  split; [reflexivity|]. now split.
Qed.

(** Two uploads of different files, the second received while the first
    waits for the analyzer, are both stored when each would be stored
    alone (the uploads have different names, so that neither file
    replaces the other): both answers carry their analysis, and the
    collection gains the two records, with different ids. *)
Theorem concurrent_uploads_are_both_stored
        (w : World) (uid1 uid2 : N) (u1 u2 : Upload) (proc1 proc2 : ProcResult)
        (a1 t1 a2 t2 : jsval) :
  fileFilter u1 = true -> fileFilter u2 = true ->
  (N.of_nat (length (up_bytes u1)) < fileSizeLimit)%N ->
  (N.of_nat (length (up_bytes u2)) < fileSizeLimit)%N ->
  up_name u1 <> EmptyString -> up_name u2 <> EmptyString ->
  up_type u1 <> EmptyString -> up_type u2 <> EmptyString ->
  up_name u1 <> up_name u2 ->
  (forall x, In x (db w) ->
             fileHash x <> EncryptionService.generateFileHash (up_bytes u1)
             /\ fileHash x <> EncryptionService.generateFileHash (up_bytes u2)) ->
  EncryptionService.generateFileHash (up_bytes u1)
  <> EncryptionService.generateFileHash (up_bytes u2) ->
  run_analysis proc1 = Ok (a1, t1) -> run_analysis proc2 = Ok (a2, t2) ->
  exists saved1 saved2,
    snd (fst (interleaved w uid1 uid2 u1 u2 proc1 proc2)) = analyzed_response saved1 a1 t1
    /\ snd (interleaved w uid1 uid2 u1 u2 proc1 proc2) = analyzed_response saved2 a2 t2
    /\ db (fst (fst (interleaved w uid1 uid2 u1 u2 proc1 proc2)))
       = (db w ++ [saved1; saved2])%list
    /\ fileHash saved1 = EncryptionService.generateFileHash (up_bytes u1)
    /\ fileHash saved2 = EncryptionService.generateFileHash (up_bytes u2)
    /\ uploadedBy saved1 = uid1 /\ uploadedBy saved2 = uid2
    /\ doc_id saved1 <> doc_id saved2
    /\ getDecryptedAnalysis saved1 = Ok a1
    /\ getDecryptedAnalysis saved2 = Ok a2.
Proof.
  intros F1 F2 S1 S2 N1 N2 T1 T2 _ Hnew Hdiff R1 R2.
  destruct (receive_stores w uid1 u1 F1 S1 N1) as (f1 & Er1 & O1 & M1).
  set (w1 := set_fs w (writeFile (fs w) (getUploadedFilePath f1) (up_bytes u1))) in *.
  destruct (analyze_start_miss w1 uid1 f1 (up_bytes u1) proc1 a1 t1
              (read_after_write _ _ _)
              (findOne_unknown_hash _ _ _ (fun x Hx => proj1 (Hnew x Hx))) R1)
    as (w2 & d1 & Es1 & Db2 & _ & _ & Nx2 & Fn1 & Ft1 & Fh1 & Fu1 & Fi1).
  destruct (receive_stores w2 uid2 u2 F2 S2 N2) as (f2 & Er2 & O2 & M2).
  set (w3 := set_fs w2 (writeFile (fs w2) (getUploadedFilePath f2) (up_bytes u2))) in *.
  assert (Db3 : db w3 = db w) by exact Db2.
  assert (Hnew3 : forall x, In x (db w3) ->
                            fileHash x <> EncryptionService.generateFileHash (up_bytes u2)).
  { intros x Hx. rewrite Db3 in Hx. exact (proj2 (Hnew x Hx)). }
  destruct (analyze_start_miss w3 uid2 f2 (up_bytes u2) proc2 a2 t2
              (read_after_write _ _ _) (findOne_unknown_hash _ _ _ Hnew3) R2)
    as (w4 & d2 & Es2 & Db4 & _ & _ & Nx4 & Fn2 & Ft2 & Fh2 & Fu2 & Fi2).
  assert (Hnew4 : forall x, In x (db w4) -> fileHash x <> fileHash d1).
  { intros x Hx. rewrite Db4, Db3 in Hx. rewrite Fh1. exact (proj1 (Hnew x Hx)). }
  assert (Fn1' : fileName d1 <> EmptyString) by congruence.
  assert (Ft1' : fileType d1 <> EmptyString) by congruence.
  assert (Fn2' : fileName d2 <> EmptyString) by congruence.
  assert (Ft2' : fileType d2 <> EmptyString) by congruence.
  destruct (analyze_finish_insert w1 w2 w4 _ proc1 d1 a1 t1 _ Es1 Fn1' Ft1' Hnew4)
    as (saved1 & Ef1 & H1 & U1 & _ & I1 & D1).
  set (w5 := remove_temp_dir
               (delete_upload (set_db w4 (db w4 ++ [saved1])%list)
                              (getUploadedFilePath f1))) in *.
  assert (Hnew5 : forall x, In x (db w5) -> fileHash x <> fileHash d2).
  { intros x Hx. change (db w5) with (db w4 ++ [saved1])%list in Hx.
    apply in_app_or in Hx as [Hx|[<-|[]]].
    - rewrite Db4, Db3 in Hx. rewrite Fh2. exact (proj2 (Hnew x Hx)).
    - congruence. }
  destruct (analyze_finish_insert w3 w4 w5 _ proc2 d2 a2 t2 _ Es2 Fn2' Ft2' Hnew5)
    as (saved2 & Ef2 & H2 & U2 & _ & I2 & D2).
  exists saved1, saved2.
  unfold interleaved. rewrite Er1, Es1, Er2, Es2, Ef1, Ef2. cbn [fst snd].
  split; [reflexivity|]. split; [reflexivity|]. split.
  - cbn [db remove_temp_dir delete_upload set_fs set_db].
    change (db w5) with (db w4 ++ [saved1])%list.
    rewrite Db4, Db3, <- app_assoc. reflexivity.
  - repeat split; try congruence.
    rewrite I1, I2, Fi1, Fi2. change (next_id w3) with (next_id w2).
    change (next_id w1) with (next_id w) in *. lia.
Qed.

End TwoUploads.

(** ** Further properties: the answers of POST /analyze *)

Section Answers.
Import JSON Model Multer Routes.
Local Open Scope string_scope.

Lemma analysis_catch_answer (w : World) (p : string) (e : JsError) :
  response_status e = None ->
  snd (analysis_catch w p e)
  = failure 500 "Failed to analyze contract" (Some (message e)).
Proof. intros H. now rewrite (analysis_catch_plain w p e H). Qed.

(** POST /analyze has three kinds of answers: 200 with [success] and an
    [isDuplicate] that is [true] or [false]; 400 when the request has no
    file, and then nothing has changed; 500 with the message "Failed to
    analyze contract" and the message of the error.  The messages
    "Upload failed" and "Contract analysis failed. Please try again." are
    never sent. *)
Theorem analyze_answers (w : World) (req : Request) (proc : ProcResult) :
  (status_code (snd (analyze w req proc)) = 200%Z
   /\ field (snd (analyze w req proc)) "success" = VBool true
   /\ (field (snd (analyze w req proc)) "isDuplicate" = VBool true
       \/ field (snd (analyze w req proc)) "isDuplicate" = VBool false))
  \/ (analyze w req proc = (w, failure 400 "No file uploaded" None)
      /\ file req = None)
  \/ (exists e,
        snd (analyze w req proc)
        = failure 500 "Failed to analyze contract" (Some (message e))
        /\ file req <> None).
Proof.
  unfold analyze, analyze_start, analysis_step.
  destruct (file req) as [f|]; [|right; left; now split].
  rewrite path_nonempty.
  destruct (readFileSync _ _) as [bytes|e].
  2:{ right. right. exists e. now split. }
  destruct (findOne _ _ _).
  - cbn [analyze_finish].
    destruct (save_access _ _ _) as [[db' saved]|e].
    + match goal with |- context [match ?x with Ok _ => _ | Throw _ => _ end] =>
        destruct x as [[? ?]|e] end.
      * left. cbn [snd]. split; [reflexivity|]. split; [reflexivity|]. now left.
      * right. right. exists e. now split.
    + right. right. exists e. now split.
  - destruct (run_analysis proc) as [[analysis text]|e] eqn:Ea.
    + destruct (ContractSignatureService.createSignature _ _ _ _) as [[s|e] g] eqn:Es.
      * cbn [analyze_finish]. destruct (insert _ _ _) as [[db' saved]|e] eqn:Ei.
        -- left. cbn [snd]. split; [reflexivity|]. split; [reflexivity|]. now right.
        -- right. right. exists e. split; [|discriminate].
           now rewrite (analysis_catch_plain _ _ _ (insert_error _ _ _ _ Ei)).
      * right. right. exists e. split; [|discriminate].
        pose proof (createSignature_error _ _ _ _ _ (f_equal fst Es)) as He.
        now rewrite (analysis_catch_plain _ _ _ He).
    + right. right. exists e. split; [|discriminate].
      now rewrite (analysis_catch_plain _ _ _ (run_analysis_error _ _ Ea)).
Qed.

(** A cache hit counts the access before it opens the record: when the
    record found cannot be decrypted, the answer is 500 with the message
    of the failed decryption, and the stored record has none the less its
    access count raised by 1; the upload is removed. *)
Theorem unreadable_record_is_still_counted
        (w : World) (req : Request) (f : MulterFile) (bytes : Buf.buffer)
        (d : ContractSignature) (proc : ProcResult) (e : JsError) :
  file req = Some f ->
  readFileSync (fs w) (getUploadedFilePath f) = Ok bytes ->
  findOne (db w) (EncryptionService.generateFileHash bytes) (user req) = Some d ->
  getDecryptedAnalysis d = Throw e ->
  snd (analyze w req proc)
  = failure 500 "Failed to analyze contract" (Some "Failed to decrypt analysis data")
  /\ (exists d',
        findOne (db (fst (analyze w req proc)))
                (EncryptionService.generateFileHash bytes) (user req) = Some d'
        /\ accessCount d' = (accessCount d + 1)%Z)
  /\ existsSync (fs (fst (analyze w req proc))) (getUploadedFilePath f) = false
  /\ analyzer_runs (fst (analyze w req proc)) = analyzer_runs w.
Proof.
  intros Hf Hr Hd He.
  destruct (findOne_some _ _ _ _ Hd) as (Hin & _).
  rewrite (analyze_hit w req f bytes d proc Hf Hr Hd). cbn [analyze_finish].
  set (w1 := delete_upload w (getUploadedFilePath f)).
  change (In d (db w1)) in Hin.
  rewrite (save_access_present (db w1) (now w1) (touch (now w) d) d Hin eq_refl).
  change (getDecryptedAnalysis (write_access (now w1) (touch (now w) d) (touch (now w) d)))
    with (getDecryptedAnalysis d).
  assert (M : message e = "Failed to decrypt analysis data").
  { unfold getDecryptedAnalysis in He. destruct (decryptData _ _ _ _); [discriminate|].
    now injection He as <-. }
  rewrite He. cbn [bind fst snd db set_db]. unfold analyze_failed. rewrite M.
  split; [reflexivity|]. split; [|split; [|reflexivity]].
  - eexists. split.
    + apply findOne_saved_access; [exact Hd | reflexivity].
    + reflexivity.
  - unfold w1. cbn [fs set_db delete_upload set_fs].
    apply deleted_upload_gone, path_nonempty.
Qed.

End Answers.

(** ** The further properties on the sample data *)

Section FurtherSamplesChecked.
Import JSON Model Multer Routes.
Local Open Scope string_scope.

Lemma signature_round_trip_witness :
  exists s,
    fst (ContractSignatureService.createSignature dated_payload sample_analysis alice
           (rng world0)) = Ok s
    /\ ContractSignatureService.decryptSignature s
       = Ok (dated_payload_image, sample_analysis).
Proof.
  apply (signature_round_trip dated_payload sample_analysis dated_payload_image
           sample_analysis alice (rng world0)); reflexivity.
Defined.

Lemma signature_payloads_share_keystream_witness :
  GCM.xor_bytes (Hex.decode (ContractSignatureService.encryptedContent sample_signature))
                (Hex.decode (ContractSignatureService.encryptedAnalysis sample_signature))
  = GCM.xor_bytes (Buf.of_string (text_of dated_payload))
                  (Buf.of_string (text_of sample_analysis)).
Proof.
  apply (signature_payloads_share_keystream dated_payload sample_analysis alice
           (rng world0) sample_signature (text_of dated_payload) (text_of sample_analysis)).
  - vm_compute. reflexivity.
  - reflexivity.
  - reflexivity.
Defined.

Lemma derived_key_seals_witness :
  length (Base64.decode (EncryptionService.deriveKey "correct horse" "c2FsdA==")) = 32
  /\ exists s,
       EncryptionService.encrypt sample_analysis
         (EncryptionService.deriveKey "correct horse" "c2FsdA==") sample_iv = Ok s
       /\ EncryptionService.decrypt (EncryptionService.encrypted s)
            (EncryptionService.deriveKey "correct horse" "c2FsdA==") sample_iv
            (EncryptionService.tag s) = Ok sample_analysis.
Proof.
  apply (derived_key_seals "correct horse" "c2FsdA==" sample_iv sample_analysis
           sample_analysis).
  - reflexivity.
  - reflexivity.
  - change (1 <= 16 <= 128). lia.
Defined.

Lemma handlers_keep_consistent_witness :
  (forall uid u proc, consistent (fst (post_analyze after_first_upload uid u proc)) = true)
  /\ (forall uid u, consistent (fst (post_check_duplicate after_first_upload uid u)) = true)
  /\ (forall uid contractId,
        consistent (fst (get_contract after_first_upload uid contractId)) = true)
  /\ (forall id st,
        consistent (set_db after_first_upload (retire (db after_first_upload) id st)) = true).
Proof.
  apply (handlers_keep_consistent after_first_upload). vm_compute. reflexivity.
Defined.

Lemma reupload_returns_first_analysis_witness :
  let first := post_analyze world0 alice (Some lease) analyzer_ok in
  let second := post_analyze (fst first) alice (Some lease) analyzer_crash in
  status_code (snd second) = 200%Z
  /\ field (snd second) "isDuplicate" = VBool true
  /\ field (snd second) "analysis" = field (snd first) "analysis"
  /\ field (snd second) "extracted_text" = field (snd first) "extracted_text"
  /\ field (snd second) "contractId" = field (snd first) "contractId"
  /\ field (snd second) "accessCount" = VNum 1
  /\ analyzer_runs (fst second) = analyzer_runs (fst first)
  /\ length (db (fst second)) = length (db (fst first)).
Proof.
  apply (reupload_returns_first_analysis world0 alice lease analyzer_ok analyzer_crash).
  vm_compute. reflexivity.
Defined.

Lemma get_contract_counts_access_witness :
  exists a t,
    getDecryptedAnalysis first_record = Ok a
    /\ snd (get_contract after_first_upload alice (Some 1%N))
       = contract_response
           (write_access (now after_first_upload)
              (touch (now after_first_upload) first_record) first_record) a t
    /\ field (snd (get_contract after_first_upload alice (Some 1%N))) "analysis" = a
    /\ accessCount (write_access (now after_first_upload)
                      (touch (now after_first_upload) first_record) first_record)
       = (accessCount first_record + 1)%Z
    /\ lastAccessed (write_access (now after_first_upload)
                       (touch (now after_first_upload) first_record) first_record)
       = now after_first_upload
    /\ findById (db (fst (get_contract after_first_upload alice (Some 1%N)))) 1 alice
       = Some (write_access (now after_first_upload)
                 (touch (now after_first_upload) first_record) first_record)
    /\ (forall y,
          In y (db (fst (get_contract after_first_upload alice (Some 1%N))))
          <-> y = write_access (now after_first_upload)
                    (touch (now after_first_upload) first_record) first_record
              \/ (In y (db after_first_upload) /\ doc_id y <> 1%N)).
Proof.
  apply (get_contract_counts_access after_first_upload alice 1 first_record).
  - vm_compute. reflexivity.
  - vm_compute. reflexivity.
Defined.

Lemma cache_hit_changes_one_record_witness :
  In first_record
     (db (fst (analyze second_upload_stored (lease_request alice) analyzer_crash)))
  <-> first_record
      = write_access (now second_upload_stored)
          (touch (now second_upload_stored) first_record) first_record
      \/ (In first_record (db second_upload_stored)
          /\ doc_id first_record <> doc_id first_record).
Proof.
  apply (cache_hit_changes_one_record second_upload_stored (lease_request alice) lease_file
           (up_bytes lease) first_record analyzer_crash).
  - vm_compute. reflexivity.
  - reflexivity.
  - vm_compute. reflexivity.
  - vm_compute. reflexivity.
Defined.

Lemma fresh_upload_is_stored_witness :
  exists saved,
    snd (post_analyze world0 alice (Some lease) analyzer_ok)
    = analyzed_response saved sample_analysis (VStr "This lease")
    /\ db (fst (post_analyze world0 alice (Some lease) analyzer_ok))
       = (db world0 ++ [saved])%list
    /\ fileHash saved = EncryptionService.generateFileHash (up_bytes lease)
    /\ uploadedBy saved = alice /\ status saved = active
    /\ accessCount saved = 0%Z /\ doc_id saved = next_id world0
    /\ fileName saved = up_name lease
    /\ getDecryptedAnalysis saved = Ok sample_analysis
    /\ existsSync (fs (fst (post_analyze world0 alice (Some lease) analyzer_ok)))
                  (join uploadsDir (up_name lease)) = false
    /\ analyzer_runs (fst (post_analyze world0 alice (Some lease) analyzer_ok))
       = S (analyzer_runs world0)
    /\ temp_dirs (fst (post_analyze world0 alice (Some lease) analyzer_ok))
       = temp_dirs world0.
Proof.
  apply (fresh_upload_is_stored world0 alice lease analyzer_ok sample_analysis
           (VStr "This lease")).
  - reflexivity.
  - vm_compute. reflexivity.
  - discriminate.
  - discriminate.
  - intros x [].
  - vm_compute. reflexivity.
Defined.

Lemma oversized_upload_is_refused_witness :
  status_code (snd (post_analyze world0 alice (Some big_upload) analyzer_ok)) = 500%Z
  /\ db (fst (post_analyze world0 alice (Some big_upload) analyzer_ok)) = db world0
  /\ analyzer_runs (fst (post_analyze world0 alice (Some big_upload) analyzer_ok))
     = analyzer_runs world0
  /\ (fileFilter big_upload = true ->
      existsSync (fs (fst (post_analyze world0 alice (Some big_upload) analyzer_ok)))
                 (join uploadsDir (up_name big_upload)) = false).
Proof.
  apply (oversized_upload_is_refused world0 alice big_upload analyzer_ok);
    [discriminate|].
  unfold big_upload. cbn [up_bytes]. rewrite repeat_length, Nat2N.inj_pow. reflexivity.
Defined.

Lemma same_name_uploads_share_a_path_witness :
  getUploadedFilePath lease_file = getUploadedFilePath other_lease_file
  /\ readFileSync (fs (fst (receive world0 alice (Some lease))))
                  (getUploadedFilePath lease_file) = Ok (up_bytes lease)
  /\ readFileSync (fs (fst (receive (fst (receive world0 alice (Some lease))) bob
                                    (Some other_lease))))
                  (getUploadedFilePath lease_file) = Ok (up_bytes other_lease).
Proof.
  apply (same_name_uploads_share_a_path world0 (fst (receive world0 alice (Some lease)))
           (fst (receive (fst (receive world0 alice (Some lease))) bob (Some other_lease)))
           alice bob lease other_lease (lease_request alice)
           (mkRequest bob (Some other_lease_file)) lease_file other_lease_file).
  - reflexivity.
  - reflexivity.
  - reflexivity.
  - reflexivity.
  - reflexivity.
  - discriminate.
Defined.

Lemma result_is_read_from_last_line_witness :
  candidate_line ("loading the model" ++ String "010" (stdout analyzer_ok))
  = stdout analyzer_ok
  /\ candidate_line (stdout analyzer_ok) = stdout analyzer_ok
  /\ forall code err,
       run_analysis (mkProcResult code
                       ("loading the model" ++ String "010" (stdout analyzer_ok)) err)
       = run_analysis (mkProcResult code (stdout analyzer_ok) err).
Proof.
  apply (result_is_read_from_last_line "loading the model" (stdout analyzer_ok));
    vm_compute; reflexivity.
Defined.

Lemma content_hash_ignores_case_and_spacing_witness :
  EncryptionService.generateContentHash
    (string_of_list_ascii
       (map EncryptionService.lower (list_ascii_of_string "This Lease")))
  = EncryptionService.generateContentHash
      (string_of_list_ascii (list_ascii_of_string "This Lease"))
  /\ EncryptionService.generateContentHash
       (string_of_list_ascii
          (list_ascii_of_string "This Lease" ++ " "%char :: list_ascii_of_string "is made"))
     = EncryptionService.generateContentHash
         (string_of_list_ascii
            (list_ascii_of_string "This Lease" ++ "010"%char
                                  :: list_ascii_of_string "is made"))
  /\ EncryptionService.generateContentHash
       (string_of_list_ascii
          (list_ascii_of_string "This Lease" ++ " "%char :: "010"%char
                                :: list_ascii_of_string "is made"))
     = EncryptionService.generateContentHash
         (string_of_list_ascii
            (list_ascii_of_string "This Lease" ++ " "%char
                                  :: list_ascii_of_string "is made"))
  /\ EncryptionService.generateContentHash
       (string_of_list_ascii (" "%char :: list_ascii_of_string "This Lease"))
     = EncryptionService.generateContentHash
         (string_of_list_ascii (list_ascii_of_string "This Lease"))
  /\ EncryptionService.generateContentHash
       (string_of_list_ascii (list_ascii_of_string "This Lease" ++ [" "%char]))
     = EncryptionService.generateContentHash
         (string_of_list_ascii (list_ascii_of_string "This Lease"))
  /\ (forall h,
        EncryptionService.generateContentHash
          (string_of_list_ascii (list_ascii_of_string "This Lease")) = Some h ->
        String.length h = 64).
Proof.
  apply (content_hash_ignores_case_and_spacing (list_ascii_of_string "This Lease")
           (list_ascii_of_string "is made") " "%char "010"%char); reflexivity.
Defined.

Lemma upload_removed_when_lookup_served_witness :
  existsSync (fs (fst (receive world0 alice (Some lease)))) (getUploadedFilePath lease_file)
  = true
  /\ (lookup_rejected (served analyzer_crash) = None ->
      snd (post_analyze_under (served analyzer_crash) world0 alice (Some lease)) <> None ->
      existsSync (fs (fst (post_analyze_under (served analyzer_crash) world0 alice
                                               (Some lease))))
                 (getUploadedFilePath lease_file) = false)
  /\ (forall msg, lookup_rejected (served analyzer_crash) = Some msg ->
        snd (post_analyze_under (served analyzer_crash) world0 alice (Some lease))
        = Some (failure 500 "Failed to analyze contract" (Some msg))
        /\ existsSync (fs (fst (post_analyze_under (served analyzer_crash) world0 alice
                                                   (Some lease))))
                      (getUploadedFilePath lease_file) = true)
  /\ (snd (post_analyze_under (served analyzer_crash) world0 alice (Some lease)) = None ->
      existsSync (fs (fst (post_analyze_under (served analyzer_crash) world0 alice
                                               (Some lease))))
                 (getUploadedFilePath lease_file) = true).
Proof.
  apply (upload_removed_when_lookup_served (served analyzer_crash) world0
           (fst (receive world0 alice (Some lease)))
           alice lease (lease_request alice) lease_file);
    [discriminate | reflexivity | reflexivity].
Defined.

Lemma concurrent_uploads_are_both_stored_witness :
  exists saved1 saved2,
    snd (fst (interleaved world0 alice bob lease deed analyzer_ok analyzer_ok))
    = analyzed_response saved1 sample_analysis (VStr "This lease")
    /\ snd (interleaved world0 alice bob lease deed analyzer_ok analyzer_ok)
       = analyzed_response saved2 sample_analysis (VStr "This lease")
    /\ db (fst (fst (interleaved world0 alice bob lease deed analyzer_ok analyzer_ok)))
       = (db world0 ++ [saved1; saved2])%list
    /\ fileHash saved1 = EncryptionService.generateFileHash (up_bytes lease)
    /\ fileHash saved2 = EncryptionService.generateFileHash (up_bytes deed)
    /\ uploadedBy saved1 = alice /\ uploadedBy saved2 = bob
    /\ doc_id saved1 <> doc_id saved2
    /\ getDecryptedAnalysis saved1 = Ok sample_analysis
    /\ getDecryptedAnalysis saved2 = Ok sample_analysis.
Proof.
  apply (concurrent_uploads_are_both_stored world0 alice bob lease deed analyzer_ok
           analyzer_ok sample_analysis (VStr "This lease") sample_analysis
           (VStr "This lease")).
  - reflexivity.
  - reflexivity.
  - vm_compute. reflexivity.
  - vm_compute. reflexivity.
  - discriminate.
  - discriminate.
  - discriminate.
  - discriminate.
  - discriminate.
  - intros x [].
  - vm_compute. discriminate.
  - vm_compute. reflexivity.
  - vm_compute. reflexivity.
Defined.

Lemma unreadable_record_is_still_counted_witness :
  snd (analyze damaged_store (lease_request alice) analyzer_ok)
  = failure 500 "Failed to analyze contract" (Some "Failed to decrypt analysis data")
  /\ (exists d',
        findOne (db (fst (analyze damaged_store (lease_request alice) analyzer_ok)))
                (EncryptionService.generateFileHash (up_bytes lease)) alice = Some d'
        /\ accessCount d' = (accessCount damaged_record + 1)%Z)
  /\ existsSync (fs (fst (analyze damaged_store (lease_request alice) analyzer_ok)))
                (getUploadedFilePath lease_file) = false
  /\ analyzer_runs (fst (analyze damaged_store (lease_request alice) analyzer_ok))
     = analyzer_runs damaged_store.
Proof.
  apply (unreadable_record_is_still_counted damaged_store (lease_request alice) lease_file
           (up_bytes lease) damaged_record analyzer_ok
           (new_Error "Failed to decrypt analysis data")).
  - reflexivity.
  - vm_compute. reflexivity.
  - vm_compute. reflexivity.
  - vm_compute. reflexivity.
Defined.

End FurtherSamplesChecked.
